(** * Trajectory analysis of VisulizarRotasCorreto.py

    A shallow embedding of the module-level functions [haversine_km] and
    [detectar_paradas], and of the route segmentation loop of
    [criar_mapa_rotas], together with the properties the specification
    states about them.  The last part, "Further properties", covers the code
    around them: the detection of the coordinate and date columns in
    [carregar_dados_ais], the bounds, colours and markers of the map and the
    nested copy of the detector in [criar_mapa_rotas], and the summary of a
    ship's page in [criar_mapas_por_navio].

    Numbers.  A Python [float] is modelled by [pyfloat]: a finite value is
    a real number, and the three special values [nan], [inf] and [-inf] are
    kept apart, since the code tests for them ([pd.isna]) and the [math]
    module raises on some of them.  Arithmetic on finite values is exact:
    rounding and overflow are not part of the model.  In binary
    floating-point [hav] can be rounded to a value just below 0 or just
    above 1, on which [math.sqrt] or [math.asin] raise [ValueError]; the
    [haversine_km] of the model has no such error on finite coordinates.
    The properties are therefore stated of the calls that return, or of
    what a call raises; none says that a call on finite coordinates
    returns, except where the points coincide ([hav] is then 0 in
    floating-point too) or where the distance is given.

    Exceptions.  A Python expression that can raise is a computation in the
    [result] monad.

    Libraries.  [math], and the operations of pandas that the code calls
    ([pd.isna], [dropna], [Series.min], [Series.max], [Series.median],
    [pd.to_numeric]), are modelled by what their documentation says of
    them. *)

From Stdlib Require Import String.
From Stdlib Require Import Reals Lra Lia List Sorted Bool Arith ZArith.
From Equations Require Import Equations.
Import ListNotations.

Set Implicit Arguments.
Local Open Scope R_scope.

(** ** Exceptions *)

Inductive exn : Type :=
| ValueError          (* math domain error *)
| ZeroDivisionError.  (* division by zero *)

Inductive result (A : Type) : Type :=
| Ok (a : A)
| Raise (e : exn).

Arguments Ok {A} a.
Arguments Raise {A} e.

Definition bind {A B : Type} (m : result A) (k : A -> result B) : result B :=
  match m with
  | Ok a => k a
  | Raise e => Raise e
  end.

Notation "x <- m ;; k" := (bind m (fun x => k))
  (at level 61, m at next level, right associativity).

(** ** Python floats *)

Inductive pyfloat : Type :=
| Fin (r : R)
| PInf
| NInf
| NaN.

Definition Rleb (x y : R) : bool := if Rle_dec x y then true else false.
Definition Rltb (x y : R) : bool := if Rlt_dec x y then true else false.

(** [a <= b] and [a < b]; every comparison with [nan] is [False]. *)
Definition py_le (a b : pyfloat) : bool :=
  match a, b with
  | NaN, _ => false
  | _, NaN => false
  | Fin x, Fin y => Rleb x y
  | NInf, _ => true
  | _, PInf => true
  | _, _ => false
  end.

Definition py_lt (a b : pyfloat) : bool :=
  match a, b with
  | NaN, _ => false
  | _, NaN => false
  | Fin x, Fin y => Rltb x y
  | PInf, _ => false
  | _, NInf => false
  | _, _ => true
  end.

Definition py_ge (a b : pyfloat) : bool := py_le b a.
Definition py_gt (a b : pyfloat) : bool := py_lt b a.

(** Truth value of a float in a condition: false for zero only. *)
Definition py_truthy (a : pyfloat) : bool :=
  match a with
  | Fin x => negb (Rleb x 0 && Rleb 0 x)
  | _ => true
  end.

(** An infinity of the given sign times a finite factor. *)
Definition inf_times (positive : bool) (x : R) : pyfloat :=
  if Rltb 0 x then (if positive then PInf else NInf)
  else if Rltb x 0 then (if positive then NInf else PInf)
  else NaN.

Definition py_neg (a : pyfloat) : pyfloat :=
  match a with
  | Fin x => Fin (- x)
  | PInf => NInf
  | NInf => PInf
  | NaN => NaN
  end.

Definition py_add (a b : pyfloat) : pyfloat :=
  match a, b with
  | NaN, _ => NaN
  | _, NaN => NaN
  | Fin x, Fin y => Fin (x + y)
  | PInf, NInf => NaN
  | NInf, PInf => NaN
  | PInf, _ => PInf
  | _, PInf => PInf
  | NInf, _ => NInf
  | _, NInf => NInf
  end.

Definition py_sub (a b : pyfloat) : pyfloat := py_add a (py_neg b).

Definition py_mul (a b : pyfloat) : pyfloat :=
  match a, b with
  | NaN, _ => NaN
  | _, NaN => NaN
  | Fin x, Fin y => Fin (x * y)
  | PInf, Fin y => inf_times true y
  | Fin x, PInf => inf_times true x
  | NInf, Fin y => inf_times false y
  | Fin x, NInf => inf_times false x
  | PInf, PInf => PInf
  | NInf, NInf => PInf
  | PInf, NInf => NInf
  | NInf, PInf => NInf
  end.

(** [a / b]: a zero divisor raises, whatever the dividend. *)
Definition py_div (a b : pyfloat) : result pyfloat :=
  match b with
  | Fin y =>
      if Rleb y 0 && Rleb 0 y then Raise ZeroDivisionError
      else match a with
           | Fin x => Ok (Fin (x / y))
           | PInf => Ok (inf_times true y)
           | NInf => Ok (inf_times false y)
           | NaN => Ok NaN
           end
  | NaN => Ok NaN
  | _ => match a with
         | Fin _ => Ok (Fin 0)
         | _ => Ok NaN
         end
  end.

(** [a ** 2] *)
Definition py_pow2 (a : pyfloat) : pyfloat :=
  match a with
  | Fin x => Fin (x * x)
  | NaN => NaN
  | _ => PInf
  end.

(** ** The [math] module *)

Definition math_radians (a : pyfloat) : pyfloat := py_mul a (Fin (PI / 180)).

Definition math_sin (a : pyfloat) : result pyfloat :=
  match a with
  | Fin x => Ok (Fin (sin x))
  | NaN => Ok NaN
  | _ => Raise ValueError
  end.

Definition math_cos (a : pyfloat) : result pyfloat :=
  match a with
  | Fin x => Ok (Fin (cos x))
  | NaN => Ok NaN
  | _ => Raise ValueError
  end.

Definition math_sqrt (a : pyfloat) : result pyfloat :=
  match a with
  | Fin x => if Rltb x 0 then Raise ValueError else Ok (Fin (sqrt x))
  | PInf => Ok PInf
  | NInf => Raise ValueError
  | NaN => Ok NaN
  end.

Definition math_asin (a : pyfloat) : result pyfloat :=
  match a with
  | Fin x => if Rltb x (-1) || Rltb 1 x then Raise ValueError
             else Ok (Fin (asin x))
  | NaN => Ok NaN
  | _ => Raise ValueError
  end.

(** ** [haversine_km] (lines 104-114) *)

Definition ponto : Type := (pyfloat * pyfloat)%type.

Definition haversine_km (a b : ponto) : result pyfloat :=
  let '(lat1, lon1) := a in
  let '(lat2, lon2) := b in
  let R := Fin 6371 in
  let phi1 := math_radians lat1 in
  let phi2 := math_radians lat2 in
  let dphi := math_radians (py_sub lat2 lat1) in
  let dlambda := math_radians (py_sub lon2 lon1) in
  hphi <- py_div dphi (Fin 2) ;;
  s1 <- math_sin hphi ;;
  c1 <- math_cos phi1 ;;
  c2 <- math_cos phi2 ;;
  hlam <- py_div dlambda (Fin 2) ;;
  s2 <- math_sin hlam ;;
  let hav := py_add (py_pow2 s1) (py_mul (py_mul c1 c2) (py_pow2 s2)) in
  root <- math_sqrt hav ;;
  ang <- math_asin root ;;
  Ok (py_mul (py_mul (Fin 2) R) ang).

(** The value of [hav] and of the distance on finite coordinates. *)
Definition hav_R (lat1 lon1 lat2 lon2 : R) : R :=
  sin ((lat2 - lat1) * (PI / 180) / 2) * sin ((lat2 - lat1) * (PI / 180) / 2)
  + cos (lat1 * (PI / 180)) * cos (lat2 * (PI / 180))
    * (sin ((lon2 - lon1) * (PI / 180) / 2)
       * sin ((lon2 - lon1) * (PI / 180) / 2)).

Definition dist_R (lat1 lon1 lat2 lon2 : R) : R :=
  2 * 6371 * asin (sqrt (hav_R lat1 lon1 lat2 lon2)).

(** ** The data frame [df_pts]

    A row carries a latitude, a longitude and a timestamp.  A coordinate
    cell is a float (possibly [nan]) or [None], for which [float(...)]
    raises; a timestamp is a number of nanoseconds or [NaT].  A frame
    without a ['datetime'] column is a frame whose timestamps are all
    [NaT] (line 127). *)

Inductive cell : Type :=
| Num (x : pyfloat)
| PyNone.

Record Fix : Type := mkFix {
  latitude : cell;
  longitude : cell;
  datetime : option Z
}.

(** [float(c)], with [None] for the exception caught at line 136. *)
Definition float_of (c : cell) : option pyfloat :=
  match c with
  | Num x => Some x
  | PyNone => None
  end.

Definition pd_isna (c : cell) : bool :=
  match c with
  | Num NaN => true
  | Num _ => false
  | PyNone => true
  end.

(** [(t2 - t1).total_seconds() / 60.0] *)
Definition minutes_between (t1 t2 : Z) : pyfloat :=
  Fin (IZR (t2 - t1) / 1000000000 / 60).

(** ** [detectar_paradas], kinematic pass (lines 129-154) *)

Record kin : Type := mkKin {
  deltas_min : list (option pyfloat);
  dists_km : list pyfloat;
  speeds_kmh : list pyfloat
}.

Definition kin_append (st : kin) (dt : option pyfloat) (dist speed : pyfloat)
  : kin :=
  {| deltas_min := deltas_min st ++ [dt];
     dists_km := dists_km st ++ [dist];
     speeds_kmh := speeds_kmh st ++ [speed] |}.

(** Lines 145-148. *)
Definition delta_of (t1 t2 : option Z) : option pyfloat :=
  match t1, t2 with
  | Some x, Some y => Some (minutes_between x y)
  | _, _ => None
  end.

(** Lines 150-153. *)
Definition speed_of (dt_min : option pyfloat) (dist : pyfloat)
  : result pyfloat :=
  match dt_min with
  | Some d =>
      if py_truthy d && py_gt d (Fin 0) then
        if py_gt d (Fin 0) then
          hours <- py_div d (Fin 60) ;; py_div dist hours
        else Ok (Fin 0)
      else Ok (Fin 0)
  | None => Ok (Fin 0)
  end.

Section Kinematic.

Variables (lats lons : list cell) (times : list (option Z)).

(** The body of the loop of line 132, at index [i]. *)
Definition kin_body (i : nat) (st : kin) : result kin :=
  match float_of (nth i lats PyNone), float_of (nth i lons PyNone),
        float_of (nth (S i) lats PyNone), float_of (nth (S i) lons PyNone)
  with
  | Some la, Some lo, Some lb, Some lob =>
      dist <- haversine_km (la, lo) (lb, lob) ;;
      let dt_min := delta_of (nth i times None) (nth (S i) times None) in
      speed <- speed_of dt_min dist ;;
      Ok (kin_append st dt_min dist speed)
  | _, _, _, _ => Ok (kin_append st None (Fin 0) (Fin 0))
  end.

Fixpoint for_range (body : nat -> kin -> result kin) (idx : list nat)
  (st : kin) : result kin :=
  match idx with
  | [] => Ok st
  | i :: rest => st' <- body i st ;; for_range body rest st'
  end.

Definition kinematic : result kin :=
  for_range kin_body (seq 0 (length lats - 1)) (mkKin [] [] []).

End Kinematic.

(** ** [detectar_paradas], classification (lines 156-164) *)

Section Flags.

Variables (max_jump_km min_stop_minutes speed_threshold_kmh : pyfloat).

Definition low_movement (dt : option pyfloat) (sp dist : pyfloat) : bool :=
  match dt with
  | Some d => py_ge d min_stop_minutes && py_le dist max_jump_km
  | None => false
  end
  || py_le sp speed_threshold_kmh.

Definition low_flags (st : kin) : list bool :=
  map (fun i => low_movement (nth i (deltas_min st) None)
                             (nth i (speeds_kmh st) NaN)
                             (nth i (dists_km st) NaN))
      (seq 0 (length (speeds_kmh st))).

End Flags.

(** ** [detectar_paradas], grouping (lines 166-191) *)

Record Stop : Type := mkStop {
  start_idx : nat;
  end_idx : nat;
  start_time : option Z;
  end_time : option Z;
  duration_min : option pyfloat;
  centroid : pyfloat * pyfloat
}.

Definition inspect {A : Type} (a : A) : {b : A | a = b} := exist _ a eq_refl.

(** [sum(l)] and [sum(l) / len(l)] *)
Definition py_sum (l : list pyfloat) : pyfloat := fold_left py_add l (Fin 0).

Definition mean (l : list pyfloat) : result pyfloat :=
  py_div (py_sum l) (Fin (INR (length l))).

(** [[col[k] for k in idx if not pd.isna(col[k])]] *)
Definition present (col : list cell) (idx : list nat) : list pyfloat :=
  flat_map (fun k => match nth k col PyNone with
                     | Num x => if pd_isna (Num x) then [] else [x]
                     | PyNone => []
                     end) idx.

Definition duration_of (t1 t2 : option Z) : option pyfloat :=
  match t1, t2 with
  | Some x, Some y => Some (minutes_between x y)
  | _, _ => None
  end.

Section Grouping.

Variables (lats lons : list cell) (times : list (option Z)).
Variable (flags : list bool).

(** The inner loop of line 173: the last index of the run that holds [i]. *)
Equations? run_end (i : nat) : nat by wf (length flags - i)%nat lt :=
  run_end i with inspect ((S i <? length flags)%nat
                          && nth (S i) flags false) := {
    | exist _ true _ => run_end (S i)
    | exist _ false _ => i }.
Proof.
  apply andb_prop in e. destruct e as [e _].
  apply Nat.ltb_lt in e. lia.
Qed.

(** Lines 175-190 for the run of edges [start .. last]: [None] when the
    run is dropped at line 181. *)
Definition run_stop (start last : nat) : result (option Stop) :=
  let idx_start := start in
  let idx_end := S last in
  let pts_idx := seq idx_start (idx_end + 1 - idx_start) in
  let lats_seg := present lats pts_idx in
  let lons_seg := present lons pts_idx in
  if (length lats_seg =? 0)%nat then Ok None
  else
    clat <- mean lats_seg ;;
    clon <- mean lons_seg ;;
    let t1 := nth idx_start times None in
    let t2 := nth idx_end times None in
    Ok (Some {| start_idx := idx_start; end_idx := idx_end;
                start_time := t1; end_time := t2;
                duration_min := duration_of t1 t2;
                centroid := (clat, clon) |}).

(** The loop of line 168. *)
Equations? group_runs (i : nat) (stops : list Stop) : result (list Stop)
  by wf (length flags - i)%nat lt :=
  group_runs i stops with le_lt_dec (length flags) i := {
    | left _ => Ok stops
    | right _ =>
        if negb (nth i flags false) then group_runs (S i) stops
        else
          match run_stop i (run_end i) with
          | Raise e => Raise e
          | Ok None => group_runs (S (run_end i)) stops
          | Ok (Some s) => group_runs (S (run_end i)) (stops ++ [s])
          end }.
Proof.
  all: assert (Hge : forall k, (k <= run_end k)%nat)
    by (clear; intros k; funelim (run_end k); lia).
  all: specialize (Hge i); lia.
Qed.

End Grouping.

(** ** [detectar_paradas] (lines 117-193) *)

Definition detectar_paradas (df_pts : list Fix)
  (max_jump_km min_stop_minutes speed_threshold_kmh : pyfloat)
  : result (list Stop) :=
  if (length df_pts <? 2)%nat then Ok []
  else
    let lats := map latitude df_pts in
    let lons := map longitude df_pts in
    let times := map datetime df_pts in
    st <- kinematic lats lons times ;;
    let flags :=
      low_flags max_jump_km min_stop_minutes speed_threshold_kmh st in
    group_runs lats lons times flags 0 [].

(** The documented defaults of the three thresholds (line 117). *)
Definition default_max_jump_km : pyfloat := Fin (1 / 10).
Definition default_min_stop_minutes : pyfloat := Fin 30.
Definition default_speed_threshold_kmh : pyfloat := Fin 2.

(** ** Route segmentation in [criar_mapa_rotas] (lines 362-375) *)

(** [zip(pontos[:-1], pontos[1:])] *)
Fixpoint adjacent {A : Type} (pontos : list A) : list (A * A) :=
  match pontos with
  | a :: (b :: _) as rest => (a, b) :: adjacent rest
  | _ => []
  end.

Record seg_state : Type := mkSeg {
  segment : list ponto;
  segments : list (list ponto)
}.

(** Lines 371-372 and 374-375: keep the open segment when it can be drawn. *)
Definition close_segment (st : seg_state) : list (list ponto) :=
  if (2 <=? length (segment st))%nat then segments st ++ [segment st]
  else segments st.

Definition seg_body (max_jump_km : pyfloat) (st : seg_state)
  (ab : ponto * ponto) : result seg_state :=
  dist <- haversine_km (fst ab) (snd ab) ;;
  if py_le dist max_jump_km then
    Ok {| segment := segment st ++ [snd ab]; segments := segments st |}
  else
    Ok {| segment := [snd ab]; segments := close_segment st |}.

Fixpoint seg_loop (max_jump_km : pyfloat) (prs : list (ponto * ponto))
  (st : seg_state) : result seg_state :=
  match prs with
  | [] => Ok st
  | ab :: rest =>
      st' <- seg_body max_jump_km st ab ;; seg_loop max_jump_km rest st'
  end.

(** A ship without a valid point is skipped at lines 344-345, before
    [pontos[0]] is evaluated: nothing is drawn for it. *)
Definition split_route (max_jump_km : pyfloat) (pontos : list ponto)
  : result (list (list ponto)) :=
  match pontos with
  | [] => Ok []
  | p0 :: _ =>
      st <- seg_loop max_jump_km (adjacent pontos)
              {| segment := [p0]; segments := [] |} ;;
      Ok (close_segment st)
  end.

(** Line 362. *)
Definition route_max_jump_km : pyfloat := Fin 100.

Definition route_segments (pontos : list ponto) : result (list (list ponto)) :=
  split_route route_max_jump_km pontos.

(** ** Markers and colours in [criar_mapa_rotas] *)

(** [range(start, stop, step)] for a step that is not zero. *)
Definition py_range (start stop step : nat) : list nat :=
  map (fun k => (start + k * step)%nat)
      (seq 0 ((stop - start + step - 1) / step)).

(** Lines 405-407: the indices [j] of the small markers along a route of
    [n] points. *)
Definition density_markers (n : nat) : list nat :=
  if (10 <? n)%nat then
    let passo := (n / 10)%nat in
    py_range passo n passo
  else [].

(** Lines 206-209. *)
Definition cores : list String.string :=
  ["red"; "blue"; "green"; "purple"; "orange"; "darkred";
   "lightred"; "darkblue"; "darkgreen"; "cadetblue"; "darkpurple";
   "white"; "pink"; "lightblue"; "lightgreen"; "gray"; "black";
   "lightgray"; "beige"; "maroon"]%string.

(** Line 348, [cores[idx % len(cores)]]; [None] stands for [IndexError]. *)
Definition cor_do_navio (idx : nat) : option String.string :=
  nth_error cores (idx mod length cores).

(** ** Columns in [carregar_dados_ais] (lines 41-90) *)

Definition lat_names : list String.string :=
  ["latitude"; "lat"; "lati"]%string.

Definition lon_names : list String.string :=
  ["longitude"; "lon"; "long"; "lng"]%string.

Definition date_names : list String.string :=
  ["datetime"; "date_time"; "timestamp"; "time"; "datahora"; "data_hora";
   "date"; "hora"; "data"]%string.

(** [c in names] *)
Definition name_in (names : list String.string) (c : String.string) : bool :=
  existsb (String.eqb c) names.

(** [next((c for c in columns if c in names), None)] *)
Definition first_column (names columns : list String.string)
  : option String.string :=
  find (name_in names) columns.

(** Where the ['datetime'] column of a ship comes from (lines 79-90). *)
Inductive datetime_source : Type :=
| FromColumn (c : String.string)   (* line 90 *)
| FromDateAndTime                  (* line 84 *)
| AllNaT.                          (* line 88 *)

Definition datetime_plan (columns : list String.string) : datetime_source :=
  match first_column date_names columns with
  | None =>
      if name_in columns "date"%string && name_in columns "time"%string
      then FromDateAndTime
      else AllNaT
  | Some dt_col => FromColumn dt_col
  end.

(** ** Rows with coordinates (lines 342 and 560) *)

Definition has_coordinates (r : Fix) : bool :=
  negb (pd_isna (latitude r) || pd_isna (longitude r)).

(** [df.dropna(subset=['latitude', 'longitude'])] *)
Definition dropna_lat_lon (df : list Fix) : list Fix :=
  filter has_coordinates df.

(** ** Summary of a ship's page in [criar_mapas_por_navio] (lines 622-625) *)

(** [d or 0] *)
Definition or_zero (d : option pyfloat) : pyfloat :=
  match d with
  | Some x => if py_truthy x then x else Fin 0
  | None => Fin 0
  end.

(** Line 624. *)
Definition total_stop_minutes (stops : list Stop) : pyfloat :=
  py_sum (map (fun s => or_zero (duration_min s)) stops).

(** Lines 622-624: [total_stops] and [total_stop_minutes]. *)
Definition stops_summary (df_valido : list Fix) : result (nat * pyfloat) :=
  stops <- detectar_paradas df_valido default_max_jump_km
             default_min_stop_minutes default_speed_threshold_kmh ;;
  Ok (length stops, total_stop_minutes stops).

(** ** The bounds of the map in [criar_mapa_rotas] (lines 212-224) *)

Definition is_nan (x : pyfloat) : bool :=
  match x with
  | NaN => true
  | _ => false
  end.

(** [min(a, b)] and [max(a, b)]: [a], unless [b] is smaller (larger). *)
Definition py_min (a b : pyfloat) : pyfloat := if py_lt b a then b else a.

Definition py_max (a b : pyfloat) : pyfloat := if py_gt b a then b else a.

(** The values of a column that [Series.min()] and [Series.max()] look at:
    the missing ones are skipped. *)
Definition column_values (col : list cell) : list pyfloat :=
  flat_map (fun c => match c with
                     | Num x => if is_nan x then [] else [x]
                     | PyNone => []
                     end) col.

(** [Series.min()] and [Series.max()]: [nan] when no value is left. *)
Definition series_min (col : list cell) : pyfloat :=
  match column_values col with
  | [] => NaN
  | x :: l => fold_left py_min l x
  end.

Definition series_max (col : list cell) : pyfloat :=
  match column_values col with
  | [] => NaN
  | x :: l => fold_left py_max l x
  end.

Record bounds : Type := mkBounds {
  lat_min : pyfloat;
  lat_max : pyfloat;
  lon_min : pyfloat;
  lon_max : pyfloat
}.

(** Lines 212-213. *)
Definition initial_bounds : bounds :=
  {| lat_min := Fin 90; lat_max := Fin (-90);
     lon_min := Fin 180; lon_max := Fin (-180) |}.

(** Lines 216-220; a frame that lacks a coordinate column is [None]. *)
Definition bounds_body (b : bounds) (df : option (list Fix)) : bounds :=
  match df with
  | Some rows =>
      {| lat_min := py_min (lat_min b) (series_min (map latitude rows));
         lat_max := py_max (lat_max b) (series_max (map latitude rows));
         lon_min := py_min (lon_min b) (series_min (map longitude rows));
         lon_max := py_max (lon_max b) (series_max (map longitude rows)) |}
  | None => b
  end.

Definition map_bounds (dados_ais : list (option (list Fix))) : bounds :=
  fold_left bounds_body dados_ais initial_bounds.

(** Lines 223-224. *)
Definition map_center (b : bounds) : result (pyfloat * pyfloat) :=
  center_lat <- py_div (py_add (lat_min b) (lat_max b)) (Fin 2) ;;
  center_lon <- py_div (py_add (lon_min b) (lon_max b)) (Fin 2) ;;
  Ok (center_lat, center_lon).

(** ** Coordinates in [carregar_dados_ais] (lines 56-76) *)

(** A column of a frame read from a file: numbers, or objects, that is
    strings and missing values.  The labels of the columns of a frame are
    distinct. *)
Inductive column : Type :=
| Floats (l : list pyfloat)
| Objects (l : list (option String.string)).

Definition frame : Type := list (String.string * column).

Definition columns (df : frame) : list String.string := map fst df.

(** [df[c]]; [None] stands for [KeyError]. *)
Definition df_get (df : frame) (c : String.string) : option column :=
  option_map snd (find (fun kv => String.eqb (fst kv) c) df).

(** [df[c] = v]: the column is replaced where it stands, or added last. *)
Fixpoint df_set (df : frame) (c : String.string) (v : column) : frame :=
  match df with
  | [] => [(c, v)]
  | (k, w) :: rest =>
      if String.eqb k c then (k, v) :: rest else (k, w) :: df_set rest c v
  end.

Definition py_abs (x : pyfloat) : pyfloat :=
  match x with
  | Fin r => Fin (Rabs r)
  | NaN => NaN
  | _ => PInf
  end.

Definition py_half (x : pyfloat) : pyfloat := py_mul x (Fin (1 / 2)).

Fixpoint insert_sorted (x : pyfloat) (l : list pyfloat) : list pyfloat :=
  match l with
  | [] => [x]
  | y :: rest =>
      if py_le x y then x :: y :: rest else y :: insert_sorted x rest
  end.

Definition sort_floats (l : list pyfloat) : list pyfloat :=
  fold_right insert_sorted [] l.

(** [Series.median(skipna=True)]: the middle of the values that are not
    [nan], in ascending order, the mean of the two middle ones when their
    number is even, [nan] when there is none. *)
Definition series_median (l : list pyfloat) : pyfloat :=
  let v := sort_floats (filter (fun x => negb (is_nan x)) l) in
  let n := length v in
  if (n =? 0)%nat then NaN
  else if Nat.odd n then nth (n / 2) v NaN
  else py_half (py_add (nth (n / 2 - 1) v NaN) (nth (n / 2) v NaN)).

Definition obind {A B : Type} (m : option A) (k : A -> option B) : option B :=
  match m with
  | Some a => k a
  | None => None
  end.

Notation "x <~ m ;; k" := (obind m (fun x => k))
  (at level 61, m at next level, right associativity).

(** [Series.abs().median(skipna=True)]; a column of objects has no absolute
    value ([TypeError]). *)
Definition abs_median (c : column) : option pyfloat :=
  match c with
  | Floats l => Some (series_median (map py_abs l))
  | Objects _ => None
  end.

Section Load.

(** The number that [pd.to_numeric] reads in a string, [nan] when it reads
    none. *)
Variable parse_number : String.string -> pyfloat.

(** [pd.to_numeric(col, errors='coerce')] *)
Definition to_numeric (c : column) : column :=
  match c with
  | Floats l => Floats l
  | Objects l => Floats (map (fun o => match o with
                                       | Some s => parse_number s
                                       | None => NaN
                                       end) l)
  end.

(** Lines 56-76; [None] when the ship is not loaded: a coordinate column is
    missing (line 61) or an exception is caught (line 97). *)
Definition detect_coordinates (df : frame) : option frame :=
  match first_column lat_names (columns df),
        first_column lon_names (columns df) with
  | Some lat_col, Some lon_col =>
      c <~ df_get df lat_col ;;
      let df := df_set df lat_col (to_numeric c) in
      c <~ df_get df lon_col ;;
      let df := df_set df lon_col (to_numeric c) in
      a <~ df_get df lat_col ;;
      lat_median <~ abs_median a ;;
      b <~ df_get df lon_col ;;
      lon_median <~ abs_median b ;;
      if py_gt lat_median (Fin 90) && py_le lon_median (Fin 90) then
        v <~ df_get df lon_col ;;
        let df := df_set df "latitude"%string v in
        v <~ df_get df lat_col ;;
        Some (df_set df "longitude"%string v)
      else
        v <~ df_get df lat_col ;;
        let df := df_set df "latitude"%string v in
        v <~ df_get df lon_col ;;
        Some (df_set df "longitude"%string v)
  | _, _ => None
  end.

End Load.

(** ** The detector nested in [criar_mapa_rotas] (lines 234-322)

    [criar_mapa_rotas] defines a [haversine_km] and a [detectar_paradas] of
    its own, which hide the ones of the module inside it.  The nested
    [haversine_km] is the one of line 104, statement for statement; the
    nested detector differs in its kinematic pass, where [float(...)] is
    not guarded: the [TypeError] leaves the function. *)

Inductive outcome (A : Type) : Type :=
| Returns (a : A)
| Raises (e : exn)
| RaisesTypeError.

Arguments Returns {A} a.
Arguments Raises {A} e.
Arguments RaisesTypeError {A}.

Definition lift {A : Type} (r : result A) : outcome A :=
  match r with
  | Ok a => Returns a
  | Raise e => Raises e
  end.

Section Nested.

Variables (lats lons : list cell) (times : list (option Z)).

(** The body of the loop of line 263, at index [i]. *)
Definition nested_kin_body (i : nat) (st : kin) : outcome kin :=
  match float_of (nth i lats PyNone), float_of (nth i lons PyNone),
        float_of (nth (S i) lats PyNone), float_of (nth (S i) lons PyNone)
  with
  | Some la, Some lo, Some lb, Some lob =>
      lift (dist <- haversine_km (la, lo) (lb, lob) ;;
            let dt_min := delta_of (nth i times None) (nth (S i) times None) in
            speed <- speed_of dt_min dist ;;
            Ok (kin_append st dt_min dist speed))
  | _, _, _, _ => RaisesTypeError
  end.

Fixpoint nested_for_range (idx : list nat) (st : kin) : outcome kin :=
  match idx with
  | [] => Returns st
  | i :: rest =>
      match nested_kin_body i st with
      | Returns st' => nested_for_range rest st'
      | Raises e => Raises e
      | RaisesTypeError => RaisesTypeError
      end
  end.

End Nested.

(** Lines 247-322; the classification and the grouping are those of lines
    156-191. *)
Definition nested_detectar_paradas (df_pts : list Fix)
  (max_jump_km min_stop_minutes speed_threshold_kmh : pyfloat)
  : outcome (list Stop) :=
  if (length df_pts <? 2)%nat then Returns []
  else
    let lats := map latitude df_pts in
    let lons := map longitude df_pts in
    let times := map datetime df_pts in
    match nested_for_range lats lons times (seq 0 (length lats - 1))
            (mkKin [] [] []) with
    | Returns st =>
        let flags :=
          low_flags max_jump_km min_stop_minutes speed_threshold_kmh st in
        lift (group_runs lats lons times flags 0 [])
    | Raises e => Raises e
    | RaisesTypeError => RaisesTypeError
    end.

(** Lines 419-422: the stops marked on the map for a ship. *)
Definition stops_on_map (df_valido : list Fix) : list Stop :=
  match nested_detectar_paradas df_valido default_max_jump_km
          default_min_stop_minutes default_speed_threshold_kmh with
  | Returns stops => stops
  | _ => []
  end.

(** * Vocabulary of the properties *)

(** ** Coordinates and rows *)

(** A coordinate that is a number or [nan]. *)
Definition num_or_nan (o : option R) : pyfloat :=
  match o with
  | Some x => Fin x
  | None => NaN
  end.

(** A row with finite coordinates. *)
Definition fix_at (lat lon : R) (t : option Z) : Fix :=
  mkFix (Num (Fin lat)) (Num (Fin lon)) t.

(** A cell that is not an infinity. *)
Definition tame (c : cell) : bool :=
  match c with
  | Num PInf => false
  | Num NInf => false
  | _ => true
  end.

(** A row whose coordinates are present or missing together. *)
Definition paired_row (f : Fix) : bool :=
  Bool.eqb (pd_isna (latitude f)) (pd_isna (longitude f)).

Definition Rsum (l : list R) : R := fold_right Rplus 0 l.

(** ** Edges and flags *)

(** An edge: elapsed minutes, distance and speed. *)
Definition Edge : Type := (option pyfloat * pyfloat * pyfloat)%type.

Definition e_delta (e : Edge) : option pyfloat := fst (fst e).

Definition e_dist (e : Edge) : pyfloat := snd (fst e).

Definition e_speed (e : Edge) : pyfloat := snd e.

Definition no_edge : Edge := (None, NaN, NaN).

(** The edge that the body of the loop of line 132 computes at index [i]. *)
Definition edge_at (lats lons : list cell) (times : list (option Z))
  (i : nat) : result Edge :=
  match float_of (nth i lats PyNone), float_of (nth i lons PyNone),
        float_of (nth (S i) lats PyNone), float_of (nth (S i) lons PyNone)
  with
  | Some la, Some lo, Some lb, Some lob =>
      dist <- haversine_km (la, lo) (lb, lob) ;;
      let dt_min := delta_of (nth i times None) (nth (S i) times None) in
      speed <- speed_of dt_min dist ;;
      Ok (dt_min, dist, speed)
  | _, _, _, _ => Ok (None, Fin 0, Fin 0)
  end.

(** The flags that [detectar_paradas] computes before it groups them. *)
Definition edge_flags (df_pts : list Fix)
  (max_jump_km min_stop_minutes speed_threshold_kmh : pyfloat)
  : result (list bool) :=
  if (length df_pts <? 2)%nat then Ok []
  else
    st <- kinematic (map latitude df_pts) (map longitude df_pts)
            (map datetime df_pts) ;;
    Ok (low_flags max_jump_km min_stop_minutes speed_threshold_kmh st).

(** ** Runs and stops *)

(** A maximal run of flagged edges, from edge [s] to edge [e]. *)
Definition maximal_run (flags : list bool) (s e : nat) : Prop :=
  (s <= e)%nat /\
  (forall k, (s <= k <= e)%nat -> nth k flags false = true) /\
  (s = 0%nat \/ nth (pred s) flags false = false) /\
  nth (S e) flags false = false.

(** What the loop of line 168, started at edge [i], adds to the stops. *)
Record runs_from (lats lons : list cell) (times : list (option Z))
  (flags : list bool) (i : nat) (new : list Stop) : Prop := mkRunsFrom {
  rf_start : Forall (fun s => (i <= start_idx s)%nat) new;
  rf_sorted :
    StronglySorted (fun a b => (end_idx a < start_idx b)%nat) new;
  rf_sound :
    Forall (fun s => exists e,
              end_idx s = S e /\
              maximal_run flags (start_idx s) e /\
              run_stop lats lons times (start_idx s) e = Ok (Some s)) new;
  rf_complete :
    forall s e, (i <= s)%nat -> maximal_run flags s e ->
    run_stop lats lons times s e = Ok None \/
    exists st, In st new /\ run_stop lats lons times s e = Ok (Some st)
}.

(** The coordinates present among the fixes [s .. e] of a frame. *)
Definition present_lats (df_pts : list Fix) (s e : nat) : list pyfloat :=
  present (map latitude df_pts) (seq s (e + 1 - s)).

Definition present_lons (df_pts : list Fix) (s e : nat) : list pyfloat :=
  present (map longitude df_pts) (seq s (e + 1 - s)).

(** How the stops of a frame sit on the flags of its edges. *)
Definition stops_follow_runs (df_pts : list Fix) (flags : list bool)
  (stops : list Stop) : Prop :=
  (* ascending by [start_idx], one stop ending before the next starts *)
  StronglySorted (fun a b => (start_idx a < start_idx b)%nat /\
                             (end_idx a < start_idx b)%nat) stops /\
  (* at least two fixes each, all of them fixes of the frame *)
  Forall (fun s => (start_idx s < end_idx s < length df_pts)%nat) stops /\
  (* the stops are the maximal runs in whose span a latitude is present:
     the run of the edges [s .. e] is the stop of the fixes [s .. e + 1] *)
  (forall s e',
     (exists st, In st stops /\ start_idx st = s /\ end_idx st = e') <->
     (exists e, e' = S e /\ maximal_run flags s e /\
                present_lats df_pts s (S e) <> [])) /\
  (* a run of [k] edges gives a stop of [k + 1] fixes *)
  (forall st, In st stops ->
     exists e, maximal_run flags (start_idx st) e /\ end_idx st = S e /\
               (end_idx st + 1 - start_idx st
                = (e + 1 - start_idx st) + 1)%nat) /\
  (* a maximal run in whose span no latitude is present gives no stop *)
  (forall s e, maximal_run flags s e ->
     present_lats df_pts s (S e) = [] ->
     forall st, In st stops -> start_idx st <> s) /\
  (* a run of one edge that is kept spans two fixes *)
  (forall s, maximal_run flags s s -> present_lats df_pts s (S s) <> [] ->
     exists st, In st stops /\ start_idx st = s /\
                (end_idx st + 1 - start_idx st = 2)%nat).

(** The centroid in the words of the specification: the mean over the fixes
    of the span whose two coordinates are present. *)
Definition fixes_with_coordinates (df_pts : list Fix) (s e : nat)
  : list (pyfloat * pyfloat) :=
  flat_map (fun k =>
              match nth k df_pts (mkFix PyNone PyNone None) with
              | {| latitude := Num x; longitude := Num y |} =>
                  if pd_isna (Num x) || pd_isna (Num y) then [] else [(x, y)]
              | _ => []
              end) (seq s (e + 1 - s)).

Definition stated_centroid (df_pts : list Fix) (s e : nat)
  : result (pyfloat * pyfloat) :=
  clat <- mean (map fst (fixes_with_coordinates df_pts s e)) ;;
  clon <- mean (map snd (fixes_with_coordinates df_pts s e)) ;;
  Ok (clat, clon).

(** ** Chunks of a route *)

(** The test of line 367 on two points: [haversine_km] returns a distance,
    and this distance is at most [max_jump_km]. *)
Definition within_jump (max_jump : pyfloat) (a b : ponto) : bool :=
  match haversine_km a b with
  | Ok dist => py_le dist max_jump
  | Raise _ => false
  end.

(** [haversine_km] returns a distance for the two points, and the test of
    line 367 fails on it. *)
Definition jump (max_jump : pyfloat) (a b : ponto) : Prop :=
  exists dist, haversine_km a b = Ok dist /\ py_le dist max_jump = false.

(** [haversine_km] returns a distance for the two points, and the test of
    line 367 holds of it. *)
Definition no_jump (max_jump : pyfloat) (a b : ponto) : Prop :=
  exists dist, haversine_km a b = Ok dist /\ py_le dist max_jump = true.

(** The chunks in which the jumps cut the points [cur ++ l], when [cur] is
    the chunk under way and [a] its last point. *)
Fixpoint groups_from (max_jump : pyfloat) (cur : list ponto) (a : ponto)
  (l : list ponto) : list (list ponto) :=
  match l with
  | [] => [cur]
  | b :: l' =>
      if within_jump max_jump a b
      then groups_from max_jump (cur ++ [b]) b l'
      else cur :: groups_from max_jump [b] b l'
  end.

(** The chunks of a list of points. *)
Definition chunks (max_jump : pyfloat) (pts : list ponto)
  : list (list ponto) :=
  match pts with
  | [] => []
  | p0 :: rest => groups_from max_jump [p0] p0 rest
  end.

(** A chunk that line 371 or line 374 keeps. *)
Definition drawable (g : list ponto) : bool := (2 <=? length g)%nat.

(** Every two neighbours of the list pass the test of line 367. *)
Definition linked (max_jump : pyfloat) (g : list ponto) : Prop :=
  Forall (fun ab => within_jump max_jump (fst ab) (snd ab) = true)
         (adjacent g).

(** Between two chunks that follow each other the test of line 367 fails. *)
Definition apart (max_jump : pyfloat) (d : ponto)
  (groups : list (list ponto)) : Prop :=
  Forall (fun gg => within_jump max_jump (last (fst gg) d) (hd d (snd gg))
                    = false)
         (adjacent groups).

(** The chunks in which the jumps cut a list of points: together they are
    the list, none is empty, inside a chunk the distance that
    [haversine_km] returns from a point to the next is at most [max_jump],
    and from the last point of a chunk to the first point of the next it is
    not. *)
Definition cut_at_jumps (max_jump : pyfloat) (pts : list ponto)
  (groups : list (list ponto)) : Prop :=
  concat groups = pts /\
  Forall (fun g => g <> []) groups /\
  Forall (fun g => Forall (fun ab => no_jump max_jump (fst ab) (snd ab))
                          (adjacent g)) groups /\
  Forall (fun gg => jump max_jump (last (fst gg) (Fin 0, Fin 0))
                                  (hd (Fin 0, Fin 0) (snd gg)))
         (adjacent groups).

(** ** Frames without missing coordinates *)

Definition is_inf (x : pyfloat) : bool :=
  match x with
  | PInf | NInf => true
  | _ => false
  end.

(** The cells of a column from fix [s] to fix [e]. *)
Definition span_cells (col : list cell) (s e : nat) : list cell :=
  firstn (e + 1 - s) (skipn s col).

(** ** Frames sorted by time *)

(** The timestamps that are known do not decrease along the frame, as after
    [sort_values('datetime')]. *)
Definition sorted_by_time (times : list (option Z)) : Prop :=
  forall i j ti tj,
    (i <= j)%nat -> nth i times None = Some ti -> nth j times None = Some tj ->
    (ti <= tj)%Z.

(** Every known timestamp lies between [lo] and [hi]. *)
Definition times_within (lo hi : Z) (times : list (option Z)) : Prop :=
  forall i t, nth i times None = Some t -> (lo <= t <= hi)%Z.

(** Two fixes at the same place, forty minutes apart, and their stop. *)
Definition still_rows : list Fix :=
  [fix_at 0 0 (Some 0%Z); fix_at 0 0 (Some 2400000000000%Z)].

Definition still_stop : Stop :=
  {| start_idx := 0; end_idx := 1; start_time := Some 0%Z;
     end_time := Some 2400000000000%Z; duration_min := Some (Fin 40);
     centroid := (Fin 0, Fin 0) |}.

(** ** Bounds of a map *)

(** The smallest (largest) value of a column over the frames seen so far,
    starting from [init]. *)
Definition running_min (col : Fix -> cell) (dados : list (option (list Fix)))
  (init : pyfloat) : pyfloat :=
  fold_left (fun acc df => match df with
                           | Some rows => py_min acc (series_min (map col rows))
                           | None => acc
                           end) dados init.

Definition running_max (col : Fix -> cell) (dados : list (option (list Fix)))
  (init : pyfloat) : pyfloat :=
  fold_left (fun acc df => match df with
                           | Some rows => py_max acc (series_max (map col rows))
                           | None => acc
                           end) dados init.

(** [x] lies between the two bounds. *)
Definition between (lo hi x : pyfloat) : Prop :=
  py_le lo x = true /\ py_le x hi = true.

(** ** Coordinates of a loaded frame *)

(** The numbers of a column once converted. *)
Definition numbers (parse_number : String.string -> pyfloat) (c : column)
  : list pyfloat :=
  match to_numeric parse_number c with
  | Floats l => l
  | Objects _ => []
  end.

(** The test of line 70 on the converted coordinates. *)
Definition looks_swapped (lat lon : list pyfloat) : bool :=
  py_gt (series_median (map py_abs lat)) (Fin 90)
  && py_le (series_median (map py_abs lon)) (Fin 90).

(** A latitude that is missing or between -90 and 90. *)
Definition latitude_in_range (x : pyfloat) : bool :=
  is_nan x || py_le (py_abs x) (Fin 90).

(** A frame whose latitudes exceed 90 and whose longitudes do not, under
    the labels ['latitude'] and ['longitude']. *)
Definition swapped_frame : frame :=
  [("latitude"%string, Floats [Fin 100]);
   ("longitude"%string, Floats [Fin 10])].

(** ** Frames used as examples *)

(** Three fixes without timestamps, the middle one without coordinates, and
    the stop that they make. *)
Definition gap_rows : list Fix :=
  [fix_at 10 20 None; mkFix (Num NaN) (Num NaN) None; fix_at 30 40 None].

Definition gap_stop : Stop :=
  {| start_idx := 0; end_idx := 2; start_time := None; end_time := None;
     duration_min := None; centroid := (Fin 20, Fin 30) |}.

(** Two fixes without coordinates and without timestamps. *)
Definition blank_rows : list Fix :=
  [mkFix (Num NaN) (Num NaN) None; mkFix (Num NaN) (Num NaN) None].

(** Two fixes without timestamps, the first with a latitude and no
    longitude. *)
Definition half_rows : list Fix :=
  [mkFix (Num (Fin 10)) (Num NaN) None; fix_at 20 40 None].

(** Two fixes without timestamps, both with a latitude and no longitude. *)
Definition lat_only_rows : list Fix :=
  [mkFix (Num (Fin 10)) (Num NaN) None; mkFix (Num (Fin 20)) (Num NaN) None].

(** Three fixes at the same place, ten minutes apart; the middle one has
    [nan] coordinates in [nan_rows] and [None] coordinates in
    [none_rows]. *)
Definition nan_rows : list Fix :=
  [fix_at 0 0 (Some 0%Z);
   mkFix (Num NaN) (Num NaN) (Some 600000000000%Z);
   fix_at 0 0 (Some 1200000000000%Z)].

Definition none_rows : list Fix :=
  [fix_at 0 0 (Some 0%Z);
   mkFix PyNone PyNone (Some 600000000000%Z);
   fix_at 0 0 (Some 1200000000000%Z)].

(** The stop that [gap_rows] makes once its row without coordinates is
    dropped. *)
Definition gap_valid_stop : Stop :=
  {| start_idx := 0; end_idx := 1; start_time := None; end_time := None;
     duration_min := None; centroid := (Fin 20, Fin 30) |}.

(** Two fixes, the second at an infinite latitude. *)
Definition inf_rows : list Fix :=
  [fix_at 0 0 None; mkFix (Num PInf) (Num (Fin 0)) None].

(** A frame with a latitude of 10 and a longitude of 120 degrees. *)
Definition east_frame : frame :=
  [("lat"%string, Floats [Fin 10]); ("lon"%string, Floats [Fin 120])].

(** * Properties *)

(** ** Facts on the float model *)

Lemma Rleb_true x y : Rleb x y = true <-> x <= y.
Proof. unfold Rleb. destruct (Rle_dec x y); split; auto; discriminate. Qed.

Lemma Rleb_false x y : Rleb x y = false <-> y < x.
Proof.
  unfold Rleb. destruct (Rle_dec x y); split; intros; try discriminate;
    try lra; auto.
Qed.

Lemma Rltb_true x y : Rltb x y = true <-> x < y.
Proof. unfold Rltb. destruct (Rlt_dec x y); split; auto; discriminate. Qed.

Lemma Rltb_false x y : Rltb x y = false <-> y <= x.
Proof.
  unfold Rltb. destruct (Rlt_dec x y); split; intros; try discriminate;
    try lra; auto.
Qed.

Lemma is_zero_false y : y <> 0 -> Rleb y 0 && Rleb 0 y = false.
Proof.
  intros H. destruct (Rleb y 0) eqn:E1, (Rleb 0 y) eqn:E2; auto.
  apply Rleb_true in E1, E2. lra.
Qed.

Lemma half_not_zero : Rleb 2 0 && Rleb 0 2 = false.
Proof. apply is_zero_false. lra. Qed.

Lemma hav_R_bounds lat1 lon1 lat2 lon2 :
  0 <= hav_R lat1 lon1 lat2 lon2 <= 1.
Proof.
  unfold hav_R.
  set (k := PI / 180).
  set (s := sin ((lon2 - lon1) * k / 2)).
  assert (Hs : 0 <= s * s <= 1).
  { pose proof (sin2_cos2 ((lon2 - lon1) * k / 2)) as H. unfold Rsqr in H.
    fold s in H. nra. }
  assert (Hhalf : sin ((lat2 - lat1) * k / 2) * sin ((lat2 - lat1) * k / 2)
                  = (1 - (cos (lat2 * k) * cos (lat1 * k)
                          + sin (lat2 * k) * sin (lat1 * k))) / 2).
  { rewrite <- cos_minus.
    replace (lat2 * k - lat1 * k) with (2 * ((lat2 - lat1) * k / 2)) by lra.
    rewrite cos_2a_sin. lra. }
  rewrite Hhalf.
  pose proof (sin2_cos2 (lat1 * k)) as H1. unfold Rsqr in H1.
  pose proof (sin2_cos2 (lat2 * k)) as H2. unfold Rsqr in H2.
  set (c1 := cos (lat1 * k)) in *. set (c2 := cos (lat2 * k)) in *.
  set (s1 := sin (lat1 * k)) in *. set (s2 := sin (lat2 * k)) in *.
  set (t := s * s) in *.
  pose proof (Rle_0_sqr (s1 - s2)) as Q1.
  pose proof (Rle_0_sqr (s1 + s2)) as Q2.
  pose proof (Rle_0_sqr (c1 - c2)) as Q3.
  pose proof (Rle_0_sqr (c1 + c2)) as Q4.
  unfold Rsqr in Q1, Q2, Q3, Q4.
  assert (A : s2 * s1 + c2 * c1 <= 1) by lra.
  assert (B : s2 * s1 - c2 * c1 <= 1) by lra.
  assert (C : -1 <= s2 * s1 + c2 * c1) by lra.
  assert (D : -1 <= s2 * s1 - c2 * c1) by lra.
  assert (E : 0 <= t * (1 - (s2 * s1 - c2 * c1))) by (apply Rmult_le_pos; lra).
  assert (F : 0 <= (1 - t) * (1 - (s2 * s1 + c2 * c1)))
    by (apply Rmult_le_pos; lra).
  assert (G : 0 <= t * (1 + (s2 * s1 - c2 * c1))) by (apply Rmult_le_pos; lra).
  assert (H : 0 <= (1 - t) * (1 + (s2 * s1 + c2 * c1)))
    by (apply Rmult_le_pos; lra).
  split; lra.
Qed.

Lemma haversine_km_fin lat1 lon1 lat2 lon2 :
  haversine_km (Fin lat1, Fin lon1) (Fin lat2, Fin lon2)
  = Ok (Fin (dist_R lat1 lon1 lat2 lon2)).
Proof.
  pose proof (hav_R_bounds lat1 lon1 lat2 lon2) as Hb.
  unfold haversine_km, math_radians, py_sub. cbn [py_neg py_add py_mul py_div].
  rewrite half_not_zero. cbn [bind math_sin math_cos py_pow2 py_mul py_add].
  fold (Rminus lat2 lat1). fold (Rminus lon2 lon1).
  change (sin ((lat2 - lat1) * (PI / 180) / 2) *
          sin ((lat2 - lat1) * (PI / 180) / 2) +
          cos (lat1 * (PI / 180)) * cos (lat2 * (PI / 180)) *
          (sin ((lon2 - lon1) * (PI / 180) / 2) *
           sin ((lon2 - lon1) * (PI / 180) / 2)))
    with (hav_R lat1 lon1 lat2 lon2).
  unfold math_sqrt.
  assert (E1 : Rltb (hav_R lat1 lon1 lat2 lon2) 0 = false)
    by (apply Rltb_false; lra).
  rewrite E1. cbn [bind math_asin].
  assert (Hq : 0 <= sqrt (hav_R lat1 lon1 lat2 lon2) <= 1).
  { split; [apply sqrt_pos|]. rewrite <- sqrt_1. apply sqrt_le_1_alt. lra. }
  assert (E2 : Rltb (sqrt (hav_R lat1 lon1 lat2 lon2)) (-1) = false)
    by (apply Rltb_false; lra).
  assert (E3 : Rltb 1 (sqrt (hav_R lat1 lon1 lat2 lon2)) = false)
    by (apply Rltb_false; lra).
  rewrite E2, E3. cbn [orb py_mul]. reflexivity.
Qed.

(** ** The grouping loop *)

Section GroupingFacts.

Variables (lats lons : list cell) (times : list (option Z)).
Variable (flags : list bool).

Lemma run_end_step i :
  run_end flags i =
  if (S i <? length flags)%nat && nth (S i) flags false
  then run_end flags (S i) else i.
Proof.
  funelim (run_end flags i).
  - rewrite e. reflexivity.
  - rewrite e. reflexivity.
Qed.

Lemma group_runs_step i stops :
  group_runs lats lons times flags i stops =
  if (length flags <=? i)%nat then Ok stops
  else if negb (nth i flags false)
       then group_runs lats lons times flags (S i) stops
       else match run_stop lats lons times i (run_end flags i) with
            | Raise e => Raise e
            | Ok None =>
                group_runs lats lons times flags (S (run_end flags i)) stops
            | Ok (Some s) =>
                group_runs lats lons times flags (S (run_end flags i))
                  (stops ++ [s])
            end.
Proof.
  rewrite group_runs_unfold_eq at 1. unfold group_runs_unfold.
  destruct (le_lt_dec (length flags) i) as [H | H]; cbn.
  - apply Nat.leb_le in H. rewrite H. reflexivity.
  - apply Nat.leb_gt in H. rewrite H. reflexivity.
Qed.

End GroupingFacts.

Lemma maximal_run_unique flags s e e' :
  maximal_run flags s e -> maximal_run flags s e' -> e = e'.
Proof.
  intros (H1 & H2 & _ & H4) (H1' & H2' & _ & H4').
  destruct (Nat.lt_trichotomy e e') as [L | [L | L]]; auto.
  - rewrite (H2' (S e)) in H4 by lia. discriminate.
  - rewrite (H2 (S e')) in H4' by lia. discriminate.
Qed.

Section RunEnd.

Variable (flags : list bool).

Lemma run_end_cases (P : nat -> nat -> Prop) :
  (forall i, (S i < length flags)%nat -> nth (S i) flags false = true ->
             P (S i) (run_end flags (S i)) -> P i (run_end flags (S i))) ->
  (forall i, nth (S i) flags false = false -> P i i) ->
  forall i, P i (run_end flags i).
Proof.
  intros Hstep Hstop i.
  remember (length flags - i)%nat as m eqn:Hm. revert i Hm.
  induction m as [m IH] using lt_wf_ind. intros i Hm.
  rewrite run_end_step.
  destruct (S i <? length flags)%nat eqn:E1; cbn [andb].
  - apply Nat.ltb_lt in E1.
    destruct (nth (S i) flags false) eqn:E2.
    + apply Hstep; auto. apply (IH (length flags - S i)%nat); lia.
    + apply Hstop; auto.
  - apply Nat.ltb_ge in E1. apply Hstop. apply nth_overflow. lia.
Qed.

Lemma run_end_ge i : (i <= run_end flags i)%nat.
Proof.
  apply run_end_cases with (P := fun i j => (i <= j)%nat); intros; lia.
Qed.

Lemma run_end_next i : nth (S (run_end flags i)) flags false = false.
Proof.
  apply run_end_cases
    with (P := fun _ j => nth (S j) flags false = false); auto.
Qed.

Lemma run_end_flagged i k :
  nth i flags false = true -> (i <= k <= run_end flags i)%nat ->
  nth k flags false = true.
Proof.
  revert k.
  apply run_end_cases
    with (P := fun i j => forall k, nth i flags false = true ->
                          (i <= k <= j)%nat -> nth k flags false = true).
  - intros i0 _ Hn IH k Hi Hk.
    destruct (Nat.eq_dec k i0) as [-> | Hne]; auto.
    apply IH; auto. lia.
  - intros i0 _ k Hi Hk. assert (k = i0) by lia. subst. auto.
Qed.

Lemma run_end_maximal i :
  nth i flags false = true ->
  (i = 0%nat \/ nth (pred i) flags false = false) ->
  maximal_run flags i (run_end flags i).
Proof.
  intros Hi Hp. split; [apply run_end_ge|].
  split; [intros k Hk; apply run_end_flagged with (i := i); auto|].
  split; [auto | apply run_end_next].
Qed.

End RunEnd.

Section GroupRuns.

Variables (lats lons : list cell) (times : list (option Z)).
Variable (flags : list bool).

Let run_stop' := run_stop lats lons times.
Let group_runs' := group_runs lats lons times flags.

Lemma run_stop_span start last st :
  run_stop' start last = Ok (Some st) ->
  start_idx st = start /\ end_idx st = S last.
Proof.
  unfold run_stop', run_stop.
  destruct (length _ =? 0)%nat; [discriminate|].
  destruct (mean _); cbn [bind]; [|discriminate].
  destruct (mean _); cbn [bind]; [|discriminate].
  intros H. injection H as <-. auto.
Qed.

Lemma runs_from_weaken i j new :
  (i <= j)%nat ->
  (forall s e, (i <= s < j)%nat -> maximal_run flags s e ->
     run_stop' s e = Ok None \/
     exists st, In st new /\ run_stop' s e = Ok (Some st)) ->
  runs_from lats lons times flags j new ->
  runs_from lats lons times flags i new.
Proof.
  intros Hij Hlow [H1 H2 H3 H4]. split; auto.
  - eapply Forall_impl; [|exact H1]. cbn. intros; lia.
  - intros s e Hs Hm. destruct (Nat.lt_ge_cases s j); auto.
Qed.

Lemma group_runs_acc i acc out :
  (nth i flags false = true ->
   i = 0%nat \/ nth (pred i) flags false = false) ->
  group_runs' i acc = Ok out ->
  exists new, out = acc ++ new /\ runs_from lats lons times flags i new.
Proof.
  remember (length flags - i)%nat as m eqn:Hm. revert i acc out Hm.
  induction m as [m IH] using lt_wf_ind. intros i acc out Hm Hinv.
  unfold group_runs'. rewrite group_runs_step.
  destruct (length flags <=? i)%nat eqn:Hlen.
  - apply Nat.leb_le in Hlen. intros H. injection H as <-.
    exists []. rewrite app_nil_r. split; auto.
    split; auto using SSorted_nil.
    intros s e Hs (Hse & Hfl & _). exfalso.
    specialize (Hfl s ltac:(lia)).
    rewrite nth_overflow in Hfl by lia. discriminate.
  - apply Nat.leb_gt in Hlen.
    destruct (nth i flags false) eqn:Hi; cbn [negb].
    + (* a run starts at [i] *)
      pose proof (@run_end_maximal flags i Hi (Hinv eq_refl)) as Hmax.
      pose proof (run_end_ge flags i) as Hge.
      pose proof (run_end_next flags i) as Hnext.
      set (j := run_end flags i) in *.
      assert (Hafter : forall s e, (i < s)%nat -> maximal_run flags s e ->
                                   (S j < s)%nat).
      { intros s e Hs (Hse & Hfl & Hpred & _).
        destruct Hpred as [-> | Hpred]; [lia|].
        destruct (Nat.le_gt_cases s (S j)) as [Hle | Hgt]; auto.
        destruct (Nat.eq_dec s (S j)) as [-> | Hne].
        - rewrite (Hfl (S j)) in Hnext by lia. discriminate.
        - destruct Hmax as (_ & Hfl' & _).
          rewrite (Hfl' (pred s)) in Hpred by lia. discriminate. }
      assert (Hinv' : nth (S j) flags false = true ->
                      S j = 0%nat \/ nth (pred (S j)) flags false = false)
        by (rewrite Hnext; discriminate).
      destruct (run_stop lats lons times i j) as [[st|]|err] eqn:Hrs;
        [| |discriminate].
      * intros H.
        destruct (IH (length flags - S j)%nat ltac:(lia) (S j) (acc ++ [st])
                     out eq_refl Hinv' H) as (new & -> & Hnew).
        exists (st :: new). rewrite <- app_assoc. split; auto.
        pose proof Hrs as Hsp. apply run_stop_span in Hsp.
        destruct Hsp as [Hst1 Hst2].
        destruct Hnew as [H1 H2 H3 H4]. split.
        -- constructor; [lia|].
           eapply Forall_impl; [|exact H1]. cbn. intros; lia.
        -- constructor; auto.
           rewrite Forall_forall in *. intros b Hb.
           specialize (H1 b Hb). destruct (H3 b Hb) as (e & _ & Hmb & _).
           destruct (Nat.eq_dec (start_idx b) (S j)) as [Heq | Hne]; [|lia].
           destruct Hmb as (? & Hfl & _).
           rewrite <- Heq, (Hfl (start_idx b)) in Hnext by lia. discriminate.
        -- constructor; auto. exists j. rewrite Hst1. auto.
        -- intros s e Hs Hse.
           destruct (Nat.eq_dec s i) as [-> | Hne].
           ++ right. exists st. split; [left; auto|].
              rewrite (maximal_run_unique Hse Hmax). exact Hrs.
           ++ assert (S j < s)%nat by (apply (Hafter s e); auto; lia).
              destruct (H4 s e ltac:(lia) Hse) as [? | (st' & ? & ?)]; auto.
              right. exists st'. split; [right; auto | auto].
      * intros H.
        destruct (IH (length flags - S j)%nat ltac:(lia) (S j) acc
                     out eq_refl Hinv' H) as (new & -> & Hnew).
        exists new. split; auto.
        apply runs_from_weaken with (j := S j); auto.
        intros s e Hs Hse.
        destruct (Nat.eq_dec s i) as [-> | Hne].
        -- left. rewrite (maximal_run_unique Hse Hmax). exact Hrs.
        -- assert (S j < s)%nat by (apply (Hafter s e); auto; lia). lia.
    + intros H.
      destruct (IH (length flags - S i)%nat ltac:(lia) (S i) acc out eq_refl
                   ltac:(intros _; right; exact Hi) H) as (new & -> & Hnew).
      exists new. split; auto.
      apply runs_from_weaken with (j := S i); auto.
      intros s e Hs (Hse & Hfl & _).
      assert (s = i) by lia. subst s.
      rewrite (Hfl i) in Hi by lia. discriminate.
Qed.

Lemma group_runs_spec out :
  group_runs' 0 [] = Ok out -> runs_from lats lons times flags 0 out.
Proof.
  intros H. apply group_runs_acc in H; auto.
  destruct H as (new & -> & H). exact H.
Qed.

End GroupRuns.

(** ** The kinematic pass *)

Arguments Rleb : simpl never.
Arguments Rltb : simpl never.

Section KinematicFacts.

Variables (lats lons : list cell) (times : list (option Z)).

Lemma kin_body_edge i st :
  kin_body lats lons times i st =
  (e <- edge_at lats lons times i ;;
   Ok (kin_append st (e_delta e) (e_dist e) (e_speed e))).
Proof.
  unfold kin_body, edge_at.
  destruct (float_of (nth i lats PyNone)); auto.
  destruct (float_of (nth i lons PyNone)); auto.
  destruct (float_of (nth (S i) lats PyNone)); auto.
  destruct (float_of (nth (S i) lons PyNone)); auto.
  destruct (haversine_km _ _); cbn [bind]; auto.
  destruct (speed_of _ _); cbn [bind]; auto.
Qed.

Lemma for_range_edges n : forall a st st',
  for_range (kin_body lats lons times) (seq a n) st = Ok st' ->
  exists es : list Edge,
    length es = n /\
    deltas_min st' = deltas_min st ++ map e_delta es /\
    dists_km st' = dists_km st ++ map e_dist es /\
    speeds_kmh st' = speeds_kmh st ++ map e_speed es /\
    forall k, (k < n)%nat ->
      edge_at lats lons times (a + k) = Ok (nth k es no_edge).
Proof.
  induction n as [|n IH]; intros a st st'; cbn [seq for_range].
  - intros H. injection H as <-. exists []. cbn.
    rewrite !app_nil_r. repeat split; auto. intros; lia.
  - rewrite kin_body_edge.
    destruct (edge_at lats lons times a) as [e|] eqn:He; cbn [bind];
      [|discriminate].
    intros H. apply IH in H. destruct H as (es & Hl & Hd & Hk & Hs & Hat).
    exists (e :: es). cbn [length map kin_append deltas_min dists_km
                           speeds_kmh] in *.
    rewrite <- app_assoc in Hd, Hk, Hs. repeat split; auto.
    intros [|k] Hlt; cbn [nth].
    + rewrite Nat.add_0_r. exact He.
    + replace (a + S k)%nat with (S a + k)%nat by lia. apply Hat. lia.
Qed.

Lemma kinematic_edges st :
  kinematic lats lons times = Ok st ->
  exists es : list Edge,
    length es = (length lats - 1)%nat /\
    deltas_min st = map e_delta es /\
    dists_km st = map e_dist es /\
    speeds_kmh st = map e_speed es /\
    forall k, (k < length lats - 1)%nat ->
      edge_at lats lons times k = Ok (nth k es no_edge).
Proof.
  unfold kinematic. intros H. apply for_range_edges in H.
  destruct H as (es & ? & ? & ? & ? & ?). exists es. auto.
Qed.

(** A pass that raises does so at an edge, with the error of that edge. *)
Lemma for_range_raise n : forall a st err,
  for_range (kin_body lats lons times) (seq a n) st = Raise err ->
  exists k, (k < n)%nat /\ edge_at lats lons times (a + k) = Raise err.
Proof.
  induction n as [|n IH]; intros a st err; cbn [seq for_range].
  - discriminate.
  - rewrite kin_body_edge.
    destruct (edge_at lats lons times a) as [e|err'] eqn:He; cbn [bind].
    + intros H. apply IH in H. destruct H as (k & Hk & H).
      exists (S k). split; [lia|].
      replace (a + S k)%nat with (S a + k)%nat by lia. exact H.
    + intros H. injection H as <-. exists 0%nat.
      rewrite Nat.add_0_r. split; [lia | exact He].
Qed.

End KinematicFacts.

(** The speed step never raises. *)
Lemma speed_of_total dt dist : exists sp, speed_of dt dist = Ok sp.
Proof.
  unfold speed_of. destruct dt as [d|]; [|eauto].
  destruct (py_truthy d && py_gt d (Fin 0)) eqn:E; [|eauto].
  apply andb_prop in E. destruct E as [_ E]. rewrite E.
  unfold py_gt, py_lt in E.
  destruct d as [x| | |]; try discriminate.
  - apply Rltb_true in E. cbn [py_div].
    rewrite (@is_zero_false 60) by lra. cbn [bind py_div].
    rewrite is_zero_false by lra. destruct dist; eauto.
  - cbn [py_div]. rewrite (@is_zero_false 60) by lra. cbn [bind].
    unfold inf_times.
    replace (Rltb 0 60) with true by (symmetry; apply Rltb_true; lra).
    cbn [py_div]. destruct dist; eauto.
Qed.

(** The three lists of the pass hold, at index [i], the edge of index [i]. *)
Lemma kinematic_nth lats lons times st i :
  kinematic lats lons times = Ok st ->
  (i < length lats - 1)%nat ->
  edge_at lats lons times i =
  Ok (nth i (deltas_min st) None, nth i (dists_km st) NaN,
      nth i (speeds_kmh st) NaN).
Proof.
  intros Hk Hi. apply kinematic_edges in Hk.
  destruct Hk as (es & Hlen & Hd & Hkm & Hs & Hat).
  rewrite (Hat i Hi), Hd, Hkm, Hs.
  change None with (e_delta no_edge). rewrite map_nth.
  change NaN with (e_dist no_edge) at 1. rewrite map_nth.
  change NaN with (e_speed no_edge). rewrite map_nth.
  destruct (nth i es no_edge) as [[? ?] ?]. reflexivity.
Qed.

Lemma kinematic_length lats lons times st :
  kinematic lats lons times = Ok st ->
  length (speeds_kmh st) = (length lats - 1)%nat.
Proof.
  intros Hk. apply kinematic_edges in Hk.
  destruct Hk as (es & Hlen & _ & _ & Hs & _).
  rewrite Hs, length_map. exact Hlen.
Qed.

(** ** Classification *)

Lemma low_flags_length mj ms sthr st :
  length (low_flags mj ms sthr st) = length (speeds_kmh st).
Proof. unfold low_flags. rewrite length_map, length_seq. reflexivity. Qed.

Lemma low_flags_nth mj ms sthr st i :
  (i < length (speeds_kmh st))%nat ->
  nth i (low_flags mj ms sthr st) false =
  low_movement mj ms sthr (nth i (deltas_min st) None)
    (nth i (speeds_kmh st) NaN) (nth i (dists_km st) NaN).
Proof.
  intros Hi. unfold low_flags.
  rewrite nth_indep with (d' := low_movement mj ms sthr
    (nth 0 (deltas_min st) None) (nth 0 (speeds_kmh st) NaN)
    (nth 0 (dists_km st) NaN))
    by (rewrite length_map, length_seq; exact Hi).
  rewrite (map_nth (fun i => low_movement mj ms sthr
    (nth i (deltas_min st) None) (nth i (speeds_kmh st) NaN)
    (nth i (dists_km st) NaN)) (seq 0 (length (speeds_kmh st))) 0%nat i).
  rewrite seq_nth by exact Hi. reflexivity.
Qed.

(** C1.  Every edge of the kinematic pass gets one flag, and the flag of edge
    [i] is set if and only if clause (a) holds (the elapsed time is known, it
    is at least [min_stop_minutes] and the distance is at most
    [max_jump_km]) or clause (b) holds (the speed is at most
    [speed_threshold_kmh]); either clause alone is enough. *)
Theorem low_movement_either_clause :
  forall (lats lons : list cell) (times : list (option Z))
         (max_jump_km min_stop_minutes speed_threshold_kmh : pyfloat)
         (st : kin) (i : nat),
    kinematic lats lons times = Ok st ->
    (i < length lats - 1)%nat ->
    let flags :=
      low_flags max_jump_km min_stop_minutes speed_threshold_kmh st in
    let dt := nth i (deltas_min st) None in
    let dist := nth i (dists_km st) NaN in
    let sp := nth i (speeds_kmh st) NaN in
    edge_at lats lons times i = Ok (dt, dist, sp) /\
    length flags = (length lats - 1)%nat /\
    (nth i flags false = true <->
     (exists m, dt = Some m /\ py_ge m min_stop_minutes = true /\
                py_le dist max_jump_km = true)
     \/ py_le sp speed_threshold_kmh = true).
Proof.
  intros lats lons times mj ms sthr st i Hk Hi flags dt dist sp.
  pose proof (kinematic_length lats lons times Hk) as Hsl.
  split; [|split].
  - apply kinematic_nth; assumption.
  - unfold flags. rewrite low_flags_length. exact Hsl.
  - unfold flags. rewrite low_flags_nth by lia.
    fold dt dist sp. unfold low_movement.
    rewrite orb_true_iff. split.
    + intros [H | H]; [left | right; exact H].
      destruct dt as [m|]; [|discriminate].
      apply andb_prop in H. destruct H. exists m. auto.
    + intros [(m & -> & H1 & H2) | H]; [left | right; exact H].
      rewrite H1, H2. reflexivity.
Qed.

Lemma low_movement_either_clause_witness :
  let lats := [Num (Fin 0); Num (Fin 0)] in
  let lons := [Num (Fin 0); Num (Fin 0)] in
  let times := [@None Z; None] in
  let st := mkKin [None] [Fin (dist_R 0 0 0 0)] [Fin 0] in
  let flags := low_flags default_max_jump_km default_min_stop_minutes
                 default_speed_threshold_kmh st in
  edge_at lats lons times 0 = Ok (None, Fin (dist_R 0 0 0 0), Fin 0) /\
  length flags = 1%nat /\
  (nth 0 flags false = true <->
   (exists m, @None pyfloat = Some m /\
              py_ge m default_min_stop_minutes = true /\
              py_le (Fin (dist_R 0 0 0 0)) default_max_jump_km = true)
   \/ py_le (Fin 0) default_speed_threshold_kmh = true).
Proof.
  intros lats lons times st flags.
  apply (@low_movement_either_clause lats lons times default_max_jump_km
           default_min_stop_minutes default_speed_threshold_kmh st 0%nat).
  - unfold kinematic, lats, lons, times, st.
    cbn [length seq Nat.sub for_range]. unfold kin_body.
    cbn [nth float_of]. rewrite haversine_km_fin. reflexivity.
  - cbn. lia.
Defined.

(** ** Speed *)

Lemma speed_of_pos m dist :
  0 < m -> speed_of (Some (Fin m)) dist = py_div dist (Fin (m / 60)).
Proof.
  intros Hm. unfold speed_of, py_truthy, py_gt, py_lt.
  replace (Rltb 0 m) with true by (symmetry; apply Rltb_true; lra).
  rewrite is_zero_false by lra. cbn [negb andb py_div].
  rewrite (@is_zero_false 60) by lra. reflexivity.
Qed.

Lemma speed_of_nonpos m dist :
  m <= 0 -> speed_of (Some (Fin m)) dist = Ok (Fin 0).
Proof.
  intros Hm. unfold speed_of, py_gt, py_lt.
  replace (Rltb 0 m) with false by (symmetry; apply Rltb_false; lra).
  rewrite andb_false_r. reflexivity.
Qed.

Lemma delta_of_cases t1 t2 :
  delta_of t1 t2 = None \/ exists m, delta_of t1 t2 = Some (Fin m).
Proof.
  destruct t1, t2; cbn; auto. right. unfold minutes_between. eauto.
Qed.

(** C8.  For the edge at every index [i] of the pass: with a known and
    strictly positive elapsed time [m] (in minutes) the speed is the
    distance divided by [m / 60]; with an elapsed time that is unknown,
    zero or negative the speed is [0.0].  The speed step returns for every
    elapsed time and distance, so when the pass raises, the error is the one
    of a distance computation. *)
Theorem speed_from_elapsed_time :
  forall (lats lons : list cell) (times : list (option Z)),
    (forall (st : kin) (i : nat),
       kinematic lats lons times = Ok st ->
       (i < length lats - 1)%nat ->
       let dt := nth i (deltas_min st) None in
       let dist := nth i (dists_km st) NaN in
       let sp := nth i (speeds_kmh st) NaN in
       (dt = None \/ exists m, dt = Some (Fin m)) /\
       (forall m, dt = Some (Fin m) -> 0 < m ->
          py_div dist (Fin (m / 60)) = Ok sp /\
          forall d, dist = Fin d -> sp = Fin (d / (m / 60))) /\
       (forall m, dt = Some (Fin m) -> m <= 0 -> sp = Fin 0) /\
       (dt = None -> sp = Fin 0)) /\
    (forall dt dist, exists sp, speed_of dt dist = Ok sp) /\
    (forall err, kinematic lats lons times = Raise err ->
       exists i a b, (i < length lats - 1)%nat /\
                     float_of (nth i lats PyNone) = Some (fst a) /\
                     float_of (nth i lons PyNone) = Some (snd a) /\
                     float_of (nth (S i) lats PyNone) = Some (fst b) /\
                     float_of (nth (S i) lons PyNone) = Some (snd b) /\
                     haversine_km a b = Raise err).
Proof.
  intros lats lons times. split; [|split].
  - intros st i Hk Hi dt dist sp.
    pose proof (kinematic_nth lats lons times Hk Hi) as He.
    fold dt dist sp in He.
    unfold edge_at in He.
    destruct (float_of (nth i lats PyNone)) as [la|];
      [|injection He as <- _ <-; repeat split; auto; discriminate].
    destruct (float_of (nth i lons PyNone)) as [lo|];
      [|injection He as <- _ <-; repeat split; auto; discriminate].
    destruct (float_of (nth (S i) lats PyNone)) as [lb|];
      [|injection He as <- _ <-; repeat split; auto; discriminate].
    destruct (float_of (nth (S i) lons PyNone)) as [lob|];
      [|injection He as <- _ <-; repeat split; auto; discriminate].
    destruct (haversine_km (la, lo) (lb, lob)) as [d0|]; cbn [bind] in He;
      [|discriminate].
    destruct (speed_of _ d0) as [s0|] eqn:Hsp; cbn [bind] in He;
      [|discriminate].
    injection He as Hdt <- <-.
    split; [rewrite <- Hdt; apply delta_of_cases|].
    rewrite <- Hdt. split; [|split].
    + intros m Hm Hpos. rewrite Hm, speed_of_pos in Hsp by exact Hpos.
      split; [exact Hsp|]. intros d ->. cbn [py_div] in Hsp.
      rewrite is_zero_false in Hsp by lra. injection Hsp as <-. reflexivity.
    + intros m Hm Hneg. rewrite Hm, speed_of_nonpos in Hsp by exact Hneg.
      injection Hsp as <-. reflexivity.
    + intros Hn. rewrite Hn in Hsp. cbn in Hsp. injection Hsp as <-.
      reflexivity.
  - apply speed_of_total.
  - intros err H. unfold kinematic in H. apply for_range_raise in H.
    destruct H as (k & Hk & H). cbn [Nat.add] in H. unfold edge_at in H.
    destruct (float_of (nth k lats PyNone)) as [la|] eqn:E1; [|discriminate].
    destruct (float_of (nth k lons PyNone)) as [lo|] eqn:E2; [|discriminate].
    destruct (float_of (nth (S k) lats PyNone)) as [lb|] eqn:E3;
      [|discriminate].
    destruct (float_of (nth (S k) lons PyNone)) as [lob|] eqn:E4;
      [|discriminate].
    exists k, (la, lo), (lb, lob). repeat split; auto.
    destruct (haversine_km (la, lo) (lb, lob)) as [d0|e0]; cbn [bind] in H.
    + destruct (speed_of_total
                  (delta_of (nth k times None) (nth (S k) times None)) d0)
        as (sp & Hsp).
      rewrite Hsp in H. discriminate.
    + injection H as ->. reflexivity.
Qed.

(** ** Great-circle distance *)

Lemma hav_R_sym lat1 lon1 lat2 lon2 :
  hav_R lat1 lon1 lat2 lon2 = hav_R lat2 lon2 lat1 lon1.
Proof.
  unfold hav_R.
  replace ((lat1 - lat2) * (PI / 180) / 2)
    with (- ((lat2 - lat1) * (PI / 180) / 2)) by lra.
  replace ((lon1 - lon2) * (PI / 180) / 2)
    with (- ((lon2 - lon1) * (PI / 180) / 2)) by lra.
  rewrite !sin_neg. ring.
Qed.

Lemma dist_R_sym lat1 lon1 lat2 lon2 :
  dist_R lat1 lon1 lat2 lon2 = dist_R lat2 lon2 lat1 lon1.
Proof. unfold dist_R. rewrite hav_R_sym. reflexivity. Qed.

Lemma dist_R_same lat lon : dist_R lat lon lat lon = 0.
Proof.
  unfold dist_R, hav_R.
  replace ((lat - lat) * (PI / 180) / 2) with 0 by lra.
  replace ((lon - lon) * (PI / 180) / 2) with 0 by lra.
  rewrite sin_0.
  replace (0 * 0 + cos (lat * (PI / 180)) * cos (lat * (PI / 180)) * (0 * 0))
    with 0 by ring.
  rewrite sqrt_0, asin_0. ring.
Qed.

Lemma asin_nonneg y : 0 <= y <= 1 -> 0 <= asin y.
Proof.
  intros Hy. pose proof (asin_bound y) as Hb.
  pose proof (sin_asin y ltac:(lra)) as Hs. pose proof PI_RGT_0.
  destruct (Rle_lt_dec 0 (asin y)) as [Hle | Hlt]; auto.
  pose proof (sin_lt_0_var (asin y) ltac:(lra) Hlt). lra.
Qed.

Lemma haversine_km_num_or_nan o1 o2 o3 o4 :
  haversine_km (num_or_nan o1, num_or_nan o2) (num_or_nan o3, num_or_nan o4)
  = Ok match o1, o2, o3, o4 with
       | Some lat1, Some lon1, Some lat2, Some lon2 =>
           Fin (dist_R lat1 lon1 lat2 lon2)
       | _, _, _, _ => NaN
       end.
Proof.
  destruct o1 as [lat1|], o2 as [lon1|], o3 as [lat2|], o4 as [lon2|];
    cbn [num_or_nan]; try apply haversine_km_fin;
    unfold haversine_km, math_radians, py_sub;
    repeat (cbn [py_neg py_add py_mul py_div py_pow2 bind math_sin math_cos
                 math_sqrt math_asin];
            rewrite ?half_not_zero);
    reflexivity.
Qed.

(** *** What the function raises and what it returns *)

Lemma py_div_two a : exists r, py_div a (Fin 2) = Ok r.
Proof. unfold py_div. rewrite half_not_zero. destruct a; eauto. Qed.

Lemma math_sin_raise a e : math_sin a = Raise e -> e = ValueError.
Proof. destruct a; cbn; congruence. Qed.

Lemma math_cos_raise a e : math_cos a = Raise e -> e = ValueError.
Proof. destruct a; cbn; congruence. Qed.

Lemma math_sqrt_raise a e : math_sqrt a = Raise e -> e = ValueError.
Proof. destruct a; cbn; try destruct (Rltb r 0); congruence. Qed.

Lemma math_asin_raise a e : math_asin a = Raise e -> e = ValueError.
Proof.
  destruct a; cbn; try destruct (Rltb r (-1) || Rltb 1 r); congruence.
Qed.

Ltac raise_step lem :=
  match goal with
  | |- bind ?m _ = Raise _ -> _ =>
      let E := fresh "E" in
      destruct m eqn:E; cbn [bind];
      [| let H := fresh in intros H; injection H as <-; exact (lem _ _ E)]
  end.

Lemma haversine_km_raise_value a b e :
  haversine_km a b = Raise e -> e = ValueError.
Proof.
  destruct a as [lat1 lon1], b as [lat2 lon2]. unfold haversine_km.
  destruct (py_div_two (math_radians (py_sub lat2 lat1))) as [h1 ->].
  cbn [bind]. raise_step math_sin_raise.
  raise_step math_cos_raise. raise_step math_cos_raise.
  destruct (py_div_two (math_radians (py_sub lon2 lon1))) as [h2 ->].
  cbn [bind]. raise_step math_sin_raise.
  raise_step math_sqrt_raise. raise_step math_asin_raise.
  discriminate.
Qed.

Lemma PI_180_pos : Rltb 0 (PI / 180) = true.
Proof. apply Rltb_true. pose proof PI_RGT_0. lra. Qed.

Lemma math_radians_inf x :
  is_inf x = true -> math_radians x = x.
Proof.
  destruct x; try discriminate; intros _; unfold math_radians; cbn;
    unfold inf_times; rewrite PI_180_pos; reflexivity.
Qed.

Lemma py_div_two_inf x : is_inf x = true -> py_div x (Fin 2) = Ok x.
Proof.
  destruct x; try discriminate; intros _; unfold py_div;
    rewrite half_not_zero; unfold inf_times;
    replace (Rltb 0 2) with true by (symmetry; apply Rltb_true; lra);
    reflexivity.
Qed.

Lemma math_sin_inf x : is_inf x = true -> math_sin x = Raise ValueError.
Proof. destruct x; try discriminate; reflexivity. Qed.

Lemma math_cos_inf x : is_inf x = true -> math_cos x = Raise ValueError.
Proof. destruct x; try discriminate; reflexivity. Qed.

Lemma py_sub_cases a b :
  is_inf a || is_inf b = true ->
  is_inf (py_sub b a) = true \/ py_sub b a = NaN.
Proof. destruct a, b; cbn; try discriminate; auto. Qed.

Lemma haversine_km_inf_latitude lat1 lon1 lat2 lon2 :
  is_inf lat1 || is_inf lat2 = true ->
  haversine_km (lat1, lon1) (lat2, lon2) = Raise ValueError.
Proof.
  intros H. unfold haversine_km.
  destruct (py_sub_cases lat1 lat2 H) as [Hi | Hn].
  - rewrite (math_radians_inf _ Hi), (py_div_two_inf _ Hi). cbn [bind].
    rewrite (math_sin_inf _ Hi). reflexivity.
  - rewrite Hn. change (math_radians NaN) with NaN.
    unfold py_div at 1. rewrite half_not_zero. cbn [bind math_sin].
    destruct (is_inf lat1) eqn:H1.
    + rewrite (math_radians_inf _ H1), (math_cos_inf _ H1). reflexivity.
    + cbn [orb] in H. rewrite (math_radians_inf _ H), (math_cos_inf _ H).
      destruct (math_cos (math_radians lat1)) as [c1|e] eqn:E; cbn [bind];
        [reflexivity | f_equal; exact (math_cos_raise _ E)].
Qed.

(** Whatever [hav] is, a result is [nan] or a number that is not negative:
    the square root is not negative, and so is its arc sine. *)
Lemma haversine_km_result a b d :
  haversine_km a b = Ok d -> d = NaN \/ exists r, d = Fin r /\ 0 <= r.
Proof.
  destruct a as [lat1 lon1], b as [lat2 lon2]. unfold haversine_km.
  destruct (py_div _ (Fin 2)) as [hphi|]; cbn [bind]; [|discriminate].
  destruct (math_sin hphi) as [s1|]; cbn [bind]; [|discriminate].
  destruct (math_cos _) as [c1|]; cbn [bind]; [|discriminate].
  destruct (math_cos _) as [c2|]; cbn [bind]; [|discriminate].
  destruct (py_div _ (Fin 2)) as [hlam|]; cbn [bind]; [|discriminate].
  destruct (math_sin hlam) as [s2|]; cbn [bind]; [|discriminate].
  destruct (py_add (py_pow2 s1) (py_mul (py_mul c1 c2) (py_pow2 s2)))
    as [h| | |]; cbn [math_sqrt bind]; try discriminate.
  - destruct (Rltb h 0) eqn:Hneg; cbn [bind]; [discriminate|].
    cbn [math_asin].
    destruct (Rltb (sqrt h) (-1) || Rltb 1 (sqrt h)) eqn:Hdom; cbn [bind];
      [discriminate|].
    intros H. injection H as <-. right. cbn [py_mul].
    eexists. split; [reflexivity|].
    apply orb_false_iff in Hdom. destruct Hdom as [_ Hle].
    apply Rltb_false in Hle.
    assert (0 <= asin (sqrt h))
      by (apply asin_nonneg; split; [apply sqrt_pos | exact Hle]).
    nra.
  - intros H. injection H as <-. left. reflexivity.
Qed.

(** C6.  On geographic points (finite coordinates) the distance does not
    depend on the order of the two points, it is [0] between a point and
    itself, and whenever the function returns, what it returns is a number
    that is not negative. *)
Theorem haversine_km_symmetric_zero_nonneg :
  forall lat1 lon1 lat2 lon2 : R,
    let a := (Fin lat1, Fin lon1) in
    let b := (Fin lat2, Fin lon2) in
    haversine_km a b = haversine_km b a /\
    haversine_km a a = Ok (Fin 0) /\
    forall d, haversine_km a b = Ok d -> exists r, d = Fin r /\ 0 <= r.
Proof.
  intros lat1 lon1 lat2 lon2 a b. unfold a, b.
  split; [|split].
  - rewrite !haversine_km_fin, dist_R_sym. reflexivity.
  - rewrite haversine_km_fin, dist_R_same. reflexivity.
  - intros d Hd. destruct (haversine_km_result _ _ Hd) as [-> | H];
      [|exact H].
    rewrite haversine_km_fin in Hd. discriminate.
Qed.

Lemma haversine_km_symmetric_zero_nonneg_witness :
  exists r, Fin (dist_R 0 0 0 1) = Fin r /\ 0 <= r.
Proof.
  destruct (haversine_km_symmetric_zero_nonneg 0 0 0 1) as (_ & _ & H).
  apply H. apply haversine_km_fin.
Defined.




(** ** The detector as a whole *)

Lemma maximal_run_nil s e : ~ maximal_run [] s e.
Proof.
  intros (Hse & Hfl & _). specialize (Hfl s ltac:(lia)).
  destruct s; discriminate.
Qed.

Lemma maximal_run_bound flags s e :
  maximal_run flags s e -> (e < length flags)%nat.
Proof.
  intros (Hse & Hfl & _). specialize (Hfl e ltac:(lia)).
  destruct (Nat.lt_ge_cases e (length flags)); auto.
  rewrite nth_overflow in Hfl by lia. discriminate.
Qed.

Lemma detectar_paradas_runs df_pts mj ms sthr stops :
  detectar_paradas df_pts mj ms sthr = Ok stops ->
  exists flags,
    edge_flags df_pts mj ms sthr = Ok flags /\
    length flags = (length df_pts - 1)%nat /\
    runs_from (map latitude df_pts) (map longitude df_pts)
      (map datetime df_pts) flags 0 stops.
Proof.
  unfold detectar_paradas, edge_flags.
  destruct (length df_pts <? 2)%nat eqn:Hlen.
  - intros H. injection H as <-. exists []. apply Nat.ltb_lt in Hlen.
    split; auto. split; [cbn; lia|].
    split; auto using SSorted_nil.
    intros s e _ Hm. destruct (maximal_run_nil Hm).
  - destruct (kinematic _ _ _) as [st|] eqn:Hk; cbn [bind]; [|discriminate].
    intros H. eexists. split; [reflexivity|]. split.
    + rewrite low_flags_length, (kinematic_length _ _ _ Hk), length_map.
      reflexivity.
    + apply group_runs_spec. exact H.
Qed.

Lemma run_stop_centroid lats lons times s e st :
  run_stop lats lons times s e = Ok (Some st) ->
  present lats (seq s (S e + 1 - s)) <> [] /\
  mean (present lats (seq s (S e + 1 - s))) = Ok (fst (centroid st)) /\
  mean (present lons (seq s (S e + 1 - s))) = Ok (snd (centroid st)) /\
  start_time st = nth s times None /\
  end_time st = nth (S e) times None /\
  duration_min st = duration_of (start_time st) (end_time st).
Proof.
  unfold run_stop.
  destruct (length _ =? 0)%nat eqn:E; [discriminate|].
  destruct (mean (present lats _)) as [clat|]; cbn [bind]; [|discriminate].
  destruct (mean (present lons _)) as [clon|]; cbn [bind]; [|discriminate].
  intros H. injection H as <-.
  split; [intros Hn; rewrite Hn in E; discriminate|].
  cbn. repeat split; auto.
Qed.

Lemma run_stop_dropped lats lons times s e :
  run_stop lats lons times s e = Ok None <->
  present lats (seq s (S e + 1 - s)) = [].
Proof.
  unfold run_stop.
  destruct (present lats _) as [|x l] eqn:E; cbn [length Nat.eqb].
  - split; auto.
  - destruct (mean (x :: l)); cbn [bind];
      [destruct (mean _); cbn [bind]|]; split; discriminate.
Qed.

Lemma py_sum_fin l : forall acc,
  fold_left py_add (map Fin l) (Fin acc) = Fin (acc + Rsum l).
Proof.
  induction l as [|x l IH]; intros acc; cbn [map fold_left py_add].
  - f_equal. unfold Rsum. cbn [fold_right]. lra.
  - rewrite IH. f_equal. unfold Rsum. cbn [fold_right]. lra.
Qed.

Lemma mean_fin l :
  l <> [] -> mean (map Fin l) = Ok (Fin (Rsum l / INR (length l))).
Proof.
  intros Hl. unfold mean, py_sum. rewrite py_sum_fin, length_map.
  cbn [py_div]. rewrite is_zero_false.
  - f_equal. f_equal. lra.
  - apply not_0_INR. destruct l; [congruence | discriminate].
Qed.

Lemma mean_total l : l <> [] -> exists m, mean l = Ok m.
Proof.
  intros Hl. unfold mean. cbn [py_div]. rewrite is_zero_false.
  - destruct (py_sum l); eauto.
  - apply not_0_INR. destruct l; [congruence | discriminate].
Qed.

Lemma group_runs_total lats lons times flags :
  (forall s e, exists r, run_stop lats lons times s e = Ok r) ->
  forall i acc, exists out, group_runs lats lons times flags i acc = Ok out.
Proof.
  intros Hrs i.
  remember (length flags - i)%nat as m eqn:Hm. revert i Hm.
  induction m as [m IH] using lt_wf_ind. intros i Hm acc.
  rewrite group_runs_step.
  destruct (length flags <=? i)%nat eqn:Hlen; eauto.
  apply Nat.leb_gt in Hlen.
  pose proof (run_end_ge flags i) as Hge.
  destruct (negb (nth i flags false)).
  - apply (IH (length flags - S i)%nat); lia.
  - destruct (Hrs i (run_end flags i)) as ([st|] & ->);
      apply (IH (length flags - S (run_end flags i))%nat); lia.
Qed.

(** ** Evaluation on concrete frames *)

Arguments haversine_km : simpl never.

Ltac as_option x :=
  match x with
  | Fin ?r => constr:(Some r)
  | NaN => constr:(@None R)
  end.

Ltac hav_eval :=
  repeat match goal with
  | |- context [haversine_km (?a, ?b) (?c, ?d)] =>
      let oa := as_option a in let ob := as_option b in
      let oc := as_option c in let od := as_option d in
      change (haversine_km (a, b) (c, d))
        with (haversine_km (num_or_nan oa, num_or_nan ob)
                           (num_or_nan oc, num_or_nan od));
      rewrite haversine_km_num_or_nan
  end.

Ltac cmp_eval :=
  repeat match goal with
  | |- context [Rleb ?x ?y] =>
      first [ replace (Rleb x y) with true
                by (symmetry; apply Rleb_true; lra)
            | replace (Rleb x y) with false
                by (symmetry; apply Rleb_false; lra) ]
  | |- context [Rltb ?x ?y] =>
      first [ replace (Rltb x y) with true
                by (symmetry; apply Rltb_true; lra)
            | replace (Rltb x y) with false
                by (symmetry; apply Rltb_false; lra) ]
  end.

Ltac py_eval :=
  repeat (progress (cbn; unfold low_movement, minutes_between;
                    hav_eval; cmp_eval)).

Ltac loop_step :=
  first [rewrite run_end_step | rewrite group_runs_step]; py_eval.

Ltac kin_eval :=
  unfold kinematic; cbn [length Nat.sub seq for_range map latitude longitude
                         datetime fix_at];
  unfold kin_body; cbn [nth float_of]; py_eval.

Lemma gap_rows_flags :
  edge_flags gap_rows default_max_jump_km default_min_stop_minutes
    default_speed_threshold_kmh = Ok [true; true].
Proof. unfold edge_flags, gap_rows. kin_eval. reflexivity. Qed.

Lemma gap_rows_stops :
  detectar_paradas gap_rows default_max_jump_km default_min_stop_minutes
    default_speed_threshold_kmh = Ok [gap_stop].
Proof.
  unfold detectar_paradas, gap_rows. kin_eval.
  do 4 loop_step. unfold gap_stop. repeat f_equal; lra.
Qed.

(** ** Stops and runs *)

Lemma StronglySorted_strengthen {A : Type} (P : A -> Prop)
  (R1 R2 : A -> A -> Prop) (l : list A) :
  (forall a b, P a -> R1 a b -> R2 a b) ->
  Forall P l -> StronglySorted R1 l -> StronglySorted R2 l.
Proof.
  intros Himp HP HS. induction HS as [|a l HS IH Hall]; constructor.
  - apply IH. inversion HP; assumption.
  - inversion HP as [|? ? Pa Pl]; subst.
    eapply Forall_impl; [|exact Hall]. intros b Hb. apply Himp; assumption.
Qed.

(** C2.  The stops returned for a frame are sorted by [start_idx] and do
    not overlap, every stop has [end_idx > start_idx], and the stops are the
    maximal runs of flagged edges: the run of the [k] edges [start .. end]
    is the stop of the [k + 1] fixes [start .. end + 1], and a run of a
    single edge is a stop of two fixes.  The runs in whose span no fix has a
    latitude are the ones that the centroid step discards: they give no
    stop. *)
Theorem stops_sorted_disjoint_on_runs :
  forall (df_pts : list Fix)
         (max_jump_km min_stop_minutes speed_threshold_kmh : pyfloat)
         (stops : list Stop),
    detectar_paradas df_pts max_jump_km min_stop_minutes speed_threshold_kmh
    = Ok stops ->
    exists flags,
      edge_flags df_pts max_jump_km min_stop_minutes speed_threshold_kmh
      = Ok flags /\
      stops_follow_runs df_pts flags stops.
Proof.
  intros rows mj ms sthr stops H.
  apply detectar_paradas_runs in H.
  destruct H as (flags & Hf & Hlen & [H1 H2 H3 H4]).
  exists flags. split; [exact Hf|].
  rewrite Forall_forall in H3.
  assert (Hsound : forall st, In st stops ->
            exists e, maximal_run flags (start_idx st) e /\ end_idx st = S e
                      /\ present_lats rows (start_idx st) (S e) <> []).
  { intros st Hin. destruct (H3 st Hin) as (e & He & Hm & Hrs).
    apply run_stop_centroid in Hrs. exists e. tauto. }
  assert (Hcomplete : forall s e, maximal_run flags s e ->
            present_lats rows s (S e) <> [] ->
            exists st, In st stops /\ start_idx st = s /\ end_idx st = S e).
  { intros s e Hm Hp.
    destruct (H4 s e ltac:(lia) Hm) as [Hd | (st & Hin & Hst)].
    - apply run_stop_dropped in Hd. contradiction.
    - exists st. split; auto. apply run_stop_span in Hst. exact Hst. }
  assert (Hspan : Forall (fun s => (start_idx s < end_idx s < length rows)%nat)
                         stops).
  { rewrite Forall_forall. intros st Hin.
    destruct (Hsound st Hin) as (e & Hm & He & _).
    pose proof (maximal_run_bound Hm). destruct Hm as (Hse & _). lia. }
  split; [|split; [exact Hspan|split; [|split; [|split]]]].
  - apply StronglySorted_strengthen
      with (P := fun s => (start_idx s < end_idx s < length rows)%nat)
           (R1 := fun a b => (end_idx a < start_idx b)%nat); auto.
    cbn. intros a b Ha Hab. lia.
  - intros s e'. split.
    + intros (st & Hin & <- & <-).
      destruct (Hsound st Hin) as (e & Hm & He & Hp). exists e. tauto.
    + intros (e & -> & Hm & Hp). apply Hcomplete; assumption.
  - intros st Hin. destruct (Hsound st Hin) as (e & Hm & He & _).
    exists e. split; [exact Hm|]. split; [exact He|].
    destruct Hm as (Hse & _). lia.
  - intros s e Hm Hnil st Hin Hs. subst s.
    destruct (Hsound st Hin) as (e' & Hm' & _ & Hp).
    rewrite (maximal_run_unique Hm' Hm) in Hp. contradiction.
  - intros s Hm Hp. destruct (Hcomplete s s Hm Hp) as (st & Hin & <- & He).
    exists st. split; [exact Hin|]. split; [reflexivity | lia].
Qed.

Lemma stops_sorted_disjoint_on_runs_witness :
  exists flags,
    edge_flags gap_rows default_max_jump_km default_min_stop_minutes
      default_speed_threshold_kmh = Ok flags /\
    stops_follow_runs gap_rows flags [gap_stop].
Proof.
  apply (@stops_sorted_disjoint_on_runs gap_rows default_max_jump_km
           default_min_stop_minutes default_speed_threshold_kmh [gap_stop]).
  exact gap_rows_stops.
Defined.

(** ** Centroids *)

(** C4, on the code.  Lines 179-180 filter the latitudes and the longitudes
    of a span each on its own, and line 181 tests the latitudes only.  A fix
    with a latitude and no longitude is not skipped: its latitude enters the
    mean, and the centroid of [half_rows] is (15, 40), where the mean over
    the fixes whose coordinates are present is (20, 40).  A run in whose
    span no fix has both coordinates, but some have a latitude, is not
    discarded: line 184 divides by zero.  A fix without any coordinate
    inside a run is skipped, and the stop is returned. *)
Theorem centroid_filters_each_coordinate_alone :
  detectar_paradas half_rows default_max_jump_km default_min_stop_minutes
    default_speed_threshold_kmh
  = Ok [{| start_idx := 0; end_idx := 1; start_time := None;
           end_time := None; duration_min := None;
           centroid := (Fin 15, Fin 40) |}] /\
  stated_centroid half_rows 0 1 = Ok (Fin 20, Fin 40) /\
  (Fin 15, Fin 40) <> (Fin 20, Fin 40) /\
  fixes_with_coordinates lat_only_rows 0 1 = [] /\
  detectar_paradas lat_only_rows default_max_jump_km
    default_min_stop_minutes default_speed_threshold_kmh
  = Raise ZeroDivisionError /\
  detectar_paradas gap_rows default_max_jump_km default_min_stop_minutes
    default_speed_threshold_kmh = Ok [gap_stop].
Proof.
  split; [|split; [|split; [|split; [|split]]]].
  - unfold detectar_paradas, half_rows. kin_eval. do 3 loop_step.
    repeat f_equal; lra.
  - unfold stated_centroid, half_rows. py_eval. repeat f_equal; lra.
  - intros H. injection H as H. lra.
  - reflexivity.
  - unfold detectar_paradas, lat_only_rows. kin_eval. do 2 loop_step.
    reflexivity.
  - exact gap_rows_stops.
Qed.

(** ** Fixes without coordinates in the kinematic pass *)

(** C5, on the code.  A fix with [nan] coordinates does not stop the pass,
    but its two edges carry the distance [nan] and the speed [nan], not
    [0.0] and [0.0]: [float(nan)] does not raise, so the handler of line 136
    is not entered.  Neither edge is flagged and the stationary vessel gets
    no stop.  With coordinates on which [float] raises, the handler gives the
    edges [(None, 0.0, 0.0)], both are flagged and the stop is found. *)
Theorem nan_fix_edges_are_not_degenerate :
  kinematic (map latitude nan_rows) (map longitude nan_rows)
    (map datetime nan_rows)
  = Ok {| deltas_min := [Some (Fin 10); Some (Fin 10)];
          dists_km := [NaN; NaN];
          speeds_kmh := [NaN; NaN] |} /\
  detectar_paradas nan_rows (Fin (1 / 10)) (Fin 5) (Fin 2) = Ok [] /\
  kinematic (map latitude none_rows) (map longitude none_rows)
    (map datetime none_rows)
  = Ok {| deltas_min := [None; None];
          dists_km := [Fin 0; Fin 0];
          speeds_kmh := [Fin 0; Fin 0] |} /\
  detectar_paradas none_rows (Fin (1 / 10)) (Fin 5) (Fin 2)
  = Ok [{| start_idx := 0; end_idx := 2; start_time := Some 0%Z;
           end_time := Some 1200000000000%Z;
           duration_min := Some (Fin 20);
           centroid := (Fin 0, Fin 0) |}].
Proof.
  split; [|split; [|split]].
  - unfold nan_rows. kin_eval. unfold kin_append, minutes_between. cbn.
    repeat f_equal; lra.
  - unfold detectar_paradas, nan_rows. kin_eval. do 3 loop_step.
    reflexivity.
  - unfold none_rows. kin_eval. reflexivity.
  - unfold detectar_paradas, none_rows. kin_eval. do 4 loop_step.
    unfold minutes_between. cbn. repeat f_equal; lra.
Qed.

(** ** Two fixes far apart, without timestamps *)

(** C9.  For two fixes 500 km apart, without timestamps: the segmentation
    with [max_jump_km = 100] gives no segment; in the detector the elapsed
    time is unknown, so the speed is [0.0], clause (a) fails and clause (b)
    holds under the default thresholds, the one edge is flagged and one
    stop over the two fixes is returned. *)
Theorem far_apart_no_segment_one_stop :
  forall lat1 lon1 lat2 lon2 : R,
    dist_R lat1 lon1 lat2 lon2 = 500 ->
    let pontos := [(Fin lat1, Fin lon1); (Fin lat2, Fin lon2)] in
    let df_pts := [fix_at lat1 lon1 None; fix_at lat2 lon2 None] in
    route_segments pontos = Ok [] /\
    kinematic (map latitude df_pts) (map longitude df_pts)
      (map datetime df_pts)
    = Ok {| deltas_min := [None]; dists_km := [Fin 500];
            speeds_kmh := [Fin 0] |} /\
    edge_flags df_pts default_max_jump_km default_min_stop_minutes
      default_speed_threshold_kmh = Ok [true] /\
    py_le (Fin 0) default_speed_threshold_kmh = true /\
    py_le (Fin 500) default_max_jump_km = false /\
    detectar_paradas df_pts default_max_jump_km default_min_stop_minutes
      default_speed_threshold_kmh
    = Ok [{| start_idx := 0; end_idx := 1; start_time := None;
             end_time := None; duration_min := None;
             centroid := (Fin ((lat1 + lat2) / 2),
                          Fin ((lon1 + lon2) / 2)) |}].
Proof.
  intros lat1 lon1 lat2 lon2 Hd pontos df_pts. unfold pontos, df_pts.
  split; [|split; [|split; [|split; [|split]]]].
  - unfold route_segments, split_route, route_max_jump_km.
    cbn [adjacent seg_loop]. unfold seg_body. cbn [fst snd].
    rewrite haversine_km_fin, Hd. py_eval. reflexivity.
  - kin_eval. rewrite Hd. reflexivity.
  - unfold edge_flags. kin_eval. reflexivity.
  - py_eval. reflexivity.
  - py_eval. reflexivity.
  - unfold detectar_paradas. kin_eval.
    do 3 loop_step. repeat f_equal; lra.
Qed.

Lemma dist_R_on_equator :
  dist_R 0 0 0 (500 * 180 / (6371 * PI)) = 500.
Proof.
  pose proof PI_RGT_0 as Hpi. pose proof PI2_1 as Hpi2.
  unfold dist_R, hav_R.
  replace ((0 - 0) * (PI / 180) / 2) with 0 by lra.
  replace (0 * (PI / 180)) with 0 by lra.
  replace ((500 * 180 / (6371 * PI) - 0) * (PI / 180) / 2)
    with (250 / 6371) by (field; lra).
  rewrite sin_0, cos_0.
  replace (0 * 0 + 1 * 1 * (sin (250 / 6371) * sin (250 / 6371)))
    with (Rsqr (sin (250 / 6371))) by (unfold Rsqr; ring).
  rewrite sqrt_Rsqr by (apply sin_ge_0; lra).
  rewrite asin_sin by lra. field.
Qed.

Lemma far_apart_no_segment_one_stop_witness :
  let lon2 := 500 * 180 / (6371 * PI) in
  dist_R 0 0 0 lon2 = 500 /\
  route_segments [(Fin 0, Fin 0); (Fin 0, Fin lon2)] = Ok [] /\
  detectar_paradas [fix_at 0 0 None; fix_at 0 lon2 None]
    default_max_jump_km default_min_stop_minutes
    default_speed_threshold_kmh
  = Ok [{| start_idx := 0; end_idx := 1; start_time := None;
           end_time := None; duration_min := None;
           centroid := (Fin ((0 + 0) / 2), Fin ((0 + lon2) / 2)) |}].
Proof.
  intros lon2.
  destruct (@far_apart_no_segment_one_stop 0 0 0 lon2 dist_R_on_equator)
    as (Hseg & _ & _ & _ & _ & Hstop).
  split; [exact dist_R_on_equator|]. split; [exact Hseg | exact Hstop].
Defined.

(** ** Thresholds *)

(** Counterexample to C10 as stated: three negative thresholds are not
    rejected; the frame is processed and the list of stops is returned. *)
Lemma negative_thresholds_are_accepted :
  py_ge (Fin (-1)) (Fin 0) = false /\
  detectar_paradas gap_rows (Fin (-1)) (Fin (-1)) (Fin (-1)) = Ok [].
Proof.
  split.
  - py_eval. reflexivity.
  - unfold detectar_paradas, gap_rows. kin_eval. do 3 loop_step.
    reflexivity.
Qed.

Lemma present_paired_rows rows : forall idx,
  Forall (fun r => paired_row r = true) rows ->
  length (present (map latitude rows) idx)
  = length (present (map longitude rows) idx).
Proof.
  intros idx H. induction idx as [|k idx IH]; [reflexivity|].
  unfold present in *. cbn [flat_map]. rewrite !length_app, IH.
  f_equal.
  destruct (Nat.lt_ge_cases k (length rows)) as [Hlt | Hge].
  - rewrite nth_indep with (d' := latitude (mkFix PyNone PyNone None))
      by (rewrite length_map; exact Hlt).
    rewrite nth_indep with (l := map longitude rows)
                           (d' := longitude (mkFix PyNone PyNone None))
      by (rewrite length_map; exact Hlt).
    rewrite !map_nth. rewrite Forall_forall in H.
    specialize (H (nth k rows (mkFix PyNone PyNone None))
                  (nth_In _ _ Hlt)).
    unfold paired_row in H. apply eqb_prop in H.
    destruct (latitude _) as [[| | |]|], (longitude _) as [[| | |]|];
      cbn in *; congruence.
  - rewrite !nth_overflow by (rewrite length_map; exact Hge). reflexivity.
Qed.

Lemma run_stop_paired rows s e :
  Forall (fun r => paired_row r = true) rows ->
  exists r, run_stop (map latitude rows) (map longitude rows)
              (map datetime rows) s e = Ok r.
Proof.
  intros H. unfold run_stop.
  pose proof (present_paired_rows (seq s (S e + 1 - s)) H) as Hp.
  destruct (length (present (map latitude rows) _) =? 0)%nat eqn:E; eauto.
  apply Nat.eqb_neq in E.
  destruct (@mean_total (present (map latitude rows) (seq s (S e + 1 - s))))
    as (m1 & ->); [intros Hn; rewrite Hn in E; apply E; reflexivity|].
  destruct (@mean_total (present (map longitude rows) (seq s (S e + 1 - s))))
    as (m2 & ->);
    [intros Hn; rewrite Hn in Hp; cbn in Hp; apply E; exact Hp|].
  cbn [bind]. eauto.
Qed.

Lemma gap_rows_kinematic :
  kinematic (map latitude gap_rows) (map longitude gap_rows)
    (map datetime gap_rows)
  = Ok {| deltas_min := [None; None]; dists_km := [NaN; NaN];
          speeds_kmh := [Fin 0; Fin 0] |}.
Proof. unfold gap_rows. kin_eval. reflexivity. Qed.

(** C10, amended.  The detector does not look at its thresholds before it
    processes the frame, and no value of theirs, negative ones included,
    makes it reject a call: a frame of fewer than two fixes gives the empty
    list, and whenever the kinematic pass, which does not read the
    thresholds, returns on a frame whose latitude and longitude are present
    or missing together, the call returns a list of stops. *)
Theorem thresholds_are_not_validated :
  forall (df_pts : list Fix)
         (max_jump_km min_stop_minutes speed_threshold_kmh : pyfloat),
    ((length df_pts < 2)%nat ->
     detectar_paradas df_pts max_jump_km min_stop_minutes
       speed_threshold_kmh = Ok []) /\
    (forall st,
       kinematic (map latitude df_pts) (map longitude df_pts)
         (map datetime df_pts) = Ok st ->
       Forall (fun r => paired_row r = true) df_pts ->
       exists stops,
         detectar_paradas df_pts max_jump_km min_stop_minutes
           speed_threshold_kmh = Ok stops).
Proof.
  intros rows mj ms sthr. split.
  - intros Hlen. unfold detectar_paradas.
    apply Nat.ltb_lt in Hlen. rewrite Hlen. reflexivity.
  - intros st Hk Hp. unfold detectar_paradas.
    destruct (length rows <? 2)%nat; eauto.
    rewrite Hk. cbn [bind].
    apply group_runs_total. intros s e. apply run_stop_paired. exact Hp.
Qed.

Lemma thresholds_are_not_validated_witness :
  detectar_paradas [fix_at 0 0 None] (Fin (-1)) (Fin (-1)) (Fin (-1)) = Ok []
  /\ exists stops,
       detectar_paradas gap_rows (Fin (-1)) (Fin (-1)) (Fin (-1)) = Ok stops.
Proof.
  split.
  - apply (thresholds_are_not_validated [fix_at 0 0 None]). cbn. lia.
  - destruct (thresholds_are_not_validated gap_rows
                (Fin (-1)) (Fin (-1)) (Fin (-1))) as (_ & H).
    apply (H _ gap_rows_kinematic).
    unfold gap_rows. repeat constructor.
Defined.

Lemma speed_from_elapsed_time_witness :
  let lats := [Num (Fin 0); Num (Fin 0)] in
  let lons := [Num (Fin 0); Num (Fin 1)] in
  let times := [Some 0%Z; Some 600000000000%Z] in
  let st := {| deltas_min := [Some (Fin 10)];
               dists_km := [Fin (dist_R 0 0 0 1)];
               speeds_kmh := [Fin (dist_R 0 0 0 1 / (10 / 60))] |} in
  kinematic lats lons times = Ok st /\
  nth 0 (speeds_kmh st) NaN = Fin (dist_R 0 0 0 1 / (10 / 60)).
Proof.
  intros lats lons times st.
  assert (Hk : kinematic lats lons times = Ok st).
  { unfold lats, lons, times, st. kin_eval. unfold kin_append. cbn.
    repeat f_equal; lra. }
  split; [exact Hk|].
  destruct (speed_from_elapsed_time lats lons times) as (H & _).
  destruct (H st 0%nat Hk ltac:(cbn; lia)) as (_ & Hpos & _).
  destruct (Hpos 10 eq_refl ltac:(lra)) as (_ & Hd).
  apply Hd. reflexivity.
Defined.

(** ** Route segmentation *)

Lemma seg_loop_raise mj prs : forall st e,
  seg_loop mj prs st = Raise e ->
  exists ab, In ab prs /\ haversine_km (fst ab) (snd ab) = Raise e.
Proof.
  induction prs as [|ab prs IH]; intros st e; cbn [seg_loop].
  - discriminate.
  - unfold seg_body.
    destruct (haversine_km (fst ab) (snd ab)) as [d|e0] eqn:Hd; cbn [bind].
    + destruct (py_le d mj); cbn [bind]; intros H; apply IH in H;
        destruct H as (ab' & Hin & H); exists ab'; split; auto;
        right; exact Hin.
    + intros H. injection H as <-. exists ab. split; [left; reflexivity|].
      exact Hd.
Qed.

Lemma seg_loop_returns mj prs : forall st st',
  seg_loop mj prs st = Ok st' ->
  forall ab, In ab prs -> exists d, haversine_km (fst ab) (snd ab) = Ok d.
Proof.
  induction prs as [|ab prs IH]; intros st st'; cbn [seg_loop].
  - intros _ ab [].
  - unfold seg_body.
    destruct (haversine_km (fst ab) (snd ab)) as [d|e0] eqn:Hd; cbn [bind];
      [|discriminate].
    destruct (py_le d mj); cbn [bind]; intros H ab' [<- | Hin]; eauto.
Qed.

Lemma seg_loop_total mj prs :
  Forall (fun ab => exists d, haversine_km (fst ab) (snd ab) = Ok d) prs ->
  forall st, exists st', seg_loop mj prs st = Ok st'.
Proof.
  intros H. induction H as [|ab prs (d & Hd) _ IH]; intros st;
    cbn [seg_loop].
  - eauto.
  - unfold seg_body. rewrite Hd. cbn [bind].
    destruct (py_le d mj); cbn [bind]; apply IH.
Qed.

Section Groups.

Variable (max_jump : pyfloat).

Lemma within_jump_true a b :
  within_jump max_jump a b = true <-> no_jump max_jump a b.
Proof.
  unfold within_jump, no_jump.
  destruct (haversine_km a b) as [d|e]; split.
  - intros H. eauto.
  - intros (d' & H & Hle). injection H as <-. exact Hle.
  - discriminate.
  - intros (d' & H & _). discriminate.
Qed.

Lemma within_jump_false a b :
  (exists d, haversine_km a b = Ok d) ->
  within_jump max_jump a b = false <-> jump max_jump a b.
Proof.
  unfold within_jump, jump. intros (d & ->). split.
  - intros H. eauto.
  - intros (d' & H & Hle). injection H as <-. exact Hle.
Qed.

(** When the loop of line 365 returns, its segments are the chunks that can
    be drawn. *)
Lemma seg_loop_groups l : forall a cur done st,
  seg_loop max_jump (adjacent (a :: l))
    {| segment := cur; segments := done |} = Ok st ->
  close_segment st
  = done ++ filter drawable (groups_from max_jump cur a l).
Proof.
  induction l as [|b l IH]; intros a cur done st.
  - cbn [adjacent seg_loop]. intros H. injection H as <-.
    unfold close_segment. cbn [segment segments groups_from filter].
    unfold drawable.
    destruct (2 <=? length cur)%nat; auto using app_nil_r.
  - change (adjacent (a :: b :: l)) with ((a, b) :: adjacent (b :: l)).
    cbn [seg_loop]. unfold seg_body. cbn [fst snd groups_from].
    unfold within_jump.
    destruct (haversine_km a b) as [d|e]; cbn [bind]; [|discriminate].
    destruct (py_le d max_jump); cbn [bind segment segments].
    + apply IH.
    + intros H. apply IH in H. rewrite H.
      unfold close_segment. cbn [segment segments filter].
      unfold drawable at 2.
      destruct (2 <=? length cur)%nat;
        [rewrite <- app_assoc|]; reflexivity.
Qed.

Lemma groups_from_concat l : forall cur a,
  concat (groups_from max_jump cur a l) = cur ++ l.
Proof.
  induction l as [|b l IH]; intros cur a; cbn [groups_from].
  - cbn. rewrite app_nil_r. reflexivity.
  - destruct (within_jump max_jump a b).
    + rewrite IH, <- app_assoc. reflexivity.
    + cbn [concat]. rewrite IH. reflexivity.
Qed.

Lemma groups_from_nonempty l : forall cur a,
  cur <> [] -> Forall (fun g => g <> []) (groups_from max_jump cur a l).
Proof.
  induction l as [|b l IH]; intros cur a Hc; cbn [groups_from].
  - auto.
  - destruct (within_jump max_jump a b).
    + apply IH. destruct cur; discriminate.
    + constructor; auto. apply IH. discriminate.
Qed.

Lemma adjacent_snoc {A : Type} (g : list A) (a b d : A) :
  g <> [] -> last g d = a -> adjacent (g ++ [b]) = adjacent g ++ [(a, b)].
Proof.
  induction g as [|x g IH]; [congruence|]. intros _ Hl.
  destruct g as [|y g].
  - cbn in *. subst. reflexivity.
  - change (adjacent ((x :: y :: g) ++ [b]))
      with ((x, y) :: adjacent ((y :: g) ++ [b])).
    rewrite IH; [reflexivity | discriminate | exact Hl].
Qed.

Lemma groups_from_head l : forall cur a,
  exists tl rest, groups_from max_jump cur a l = (cur ++ tl) :: rest.
Proof.
  induction l as [|b l IH]; intros cur a; cbn [groups_from].
  - exists [], []. rewrite app_nil_r. reflexivity.
  - destruct (within_jump max_jump a b).
    + destruct (IH (cur ++ [b]) b) as (tl & rest & ->).
      exists (b :: tl), rest. rewrite <- app_assoc. reflexivity.
    + exists [], (groups_from max_jump [b] b l). rewrite app_nil_r.
      reflexivity.
Qed.

Lemma groups_from_linked l : forall cur a d,
  cur <> [] -> last cur d = a -> linked max_jump cur ->
  Forall (linked max_jump) (groups_from max_jump cur a l).
Proof.
  induction l as [|b l IH]; intros cur a d Hc Hl Hlk; cbn [groups_from].
  - auto.
  - destruct (within_jump max_jump a b) eqn:Hn.
    + apply IH with (d := d).
      * destruct cur; discriminate.
      * apply last_last.
      * unfold linked. rewrite (adjacent_snoc b d Hc Hl).
        apply Forall_app. split; [exact Hlk|]. constructor; auto.
    + constructor; [exact Hlk|].
      apply IH with (d := d); [discriminate | reflexivity | constructor].
Qed.

Lemma groups_from_apart l : forall cur a d,
  cur <> [] -> last cur d = a ->
  apart max_jump d (groups_from max_jump cur a l).
Proof.
  induction l as [|b l IH]; intros cur a d Hc Hl; cbn [groups_from].
  - constructor.
  - destruct (within_jump max_jump a b) eqn:Hn.
    + apply IH; [destruct cur; discriminate | apply last_last].
    + pose proof (IH [b] b d ltac:(discriminate) eq_refl) as Hrest.
      destruct (groups_from_head l [b] b) as (tl & rest & Heq).
      rewrite Heq in *. unfold apart.
      change (adjacent (cur :: ([b] ++ tl) :: rest))
        with ((cur, [b] ++ tl) :: adjacent (([b] ++ tl) :: rest)).
      constructor; [|exact Hrest]. cbn [fst snd hd app]. rewrite Hl.
      exact Hn.
Qed.

End Groups.

Lemma adjacent_nth {A : Type} (g : list A) : forall i a b,
  nth_error g i = Some a -> nth_error g (S i) = Some b ->
  In (a, b) (adjacent g).
Proof.
  induction g as [|x g IH]; intros i a b Ha Hb.
  - destruct i; discriminate.
  - destruct g as [|y g]; [destruct i; discriminate|].
    destruct i as [|i].
    + cbn in Ha, Hb. injection Ha as <-. injection Hb as <-. left. reflexivity.
    + right. apply (IH i); assumption.
Qed.

(** Two neighbours of [concat groups] are neighbours inside one group, or
    the first ends a group and the second starts the next one. *)
Lemma neighbours_in_concat {A : Type} (groups : list (list A)) :
  forall i a b,
    nth_error (concat groups) i = Some a ->
    nth_error (concat groups) (S i) = Some b ->
    (exists g, In g groups /\ In (a, b) (adjacent g)) \/
    (exists k, (0 < k < length groups)%nat /\
               length (concat (firstn k groups)) = S i).
Proof.
  induction groups as [|g gs IH]; intros i a b Ha Hb.
  - destruct i; discriminate.
  - cbn [concat] in Ha, Hb.
    destruct (Nat.lt_trichotomy (S i) (length g)) as [Hlt | [Heq | Hgt]].
    + left. exists g. split; [left; reflexivity|].
      rewrite nth_error_app1 in Ha, Hb by lia.
      apply (adjacent_nth g i); assumption.
    + right. exists 1%nat. split.
      * rewrite nth_error_app2 in Hb by lia.
        destruct gs; [destruct (S i - length g)%nat; discriminate|].
        cbn. lia.
      * cbn. rewrite app_nil_r. auto.
    + rewrite nth_error_app2 in Ha, Hb by lia.
      replace (S i - length g)%nat with (S (i - length g)) in Hb by lia.
      destruct (IH _ _ _ Ha Hb) as [(g' & Hin & Hadj) | (k & Hk & Hlen)].
      * left. exists g'. split; [right; exact Hin | exact Hadj].
      * right. exists (S k). split; [cbn; lia|].
        cbn [firstn concat]. rewrite length_app, Hlen. lia.
Qed.

Lemma adjacent_cons_In {A : Type} (x : A) (l : list A) ab :
  In ab (adjacent l) -> In ab (adjacent (x :: l)).
Proof. destruct l as [|y l]; intros H; [destruct H | right; exact H]. Qed.

Lemma adjacent_app_r {A : Type} (l1 l2 : list A) ab :
  In ab (adjacent l2) -> In ab (adjacent (l1 ++ l2)).
Proof.
  intros H. induction l1 as [|x l1 IH]; [exact H|].
  cbn [app]. apply adjacent_cons_In. exact IH.
Qed.

Lemma adjacent_app_mid {A : Type} (g g' : list A) (d : A) :
  g <> [] -> g' <> [] -> In (last g d, hd d g') (adjacent (g ++ g')).
Proof.
  induction g as [|x g IH]; [congruence|]. intros _ Hg'.
  destruct g as [|y g].
  - destruct g' as [|z g']; [congruence|]. left. reflexivity.
  - change (last (x :: y :: g) d) with (last (y :: g) d).
    change ((x :: y :: g) ++ g') with (x :: ((y :: g) ++ g')).
    apply adjacent_cons_In. apply IH; [discriminate | exact Hg'].
Qed.

(** The end of a group and the start of the next one are neighbours in
    [concat groups]. *)
Lemma boundaries_in_concat {A : Type} (d : A) (groups : list (list A)) :
  Forall (fun g => g <> []) groups ->
  forall gg, In gg (adjacent groups) ->
  In (last (fst gg) d, hd d (snd gg)) (adjacent (concat groups)).
Proof.
  induction groups as [|g groups IH]; intros Hne gg Hin; [destruct Hin|].
  destruct groups as [|g' rest]; [destruct Hin|].
  inversion Hne as [|? ? Hg Hne']; subst.
  inversion Hne' as [|? ? Hg' _]; subst.
  destruct Hin as [<- | Hin].
  - cbn [fst snd concat].
    replace (hd d g') with (hd d (g' ++ concat rest))
      by (destruct g'; [congruence | reflexivity]).
    apply adjacent_app_mid; [exact Hg|]. destruct g'; [congruence|].
    discriminate.
  - change (concat (g :: g' :: rest)) with (g ++ concat (g' :: rest)).
    apply adjacent_app_r. apply IH; assumption.
Qed.

Lemma chunks_cut max_jump pts :
  Forall (fun ab => exists d, haversine_km (fst ab) (snd ab) = Ok d)
         (adjacent pts) ->
  cut_at_jumps max_jump pts (chunks max_jump pts).
Proof.
  intros Hret.
  destruct pts as [|p0 rest]; [repeat split; constructor|].
  cbn [chunks].
  assert (Hcat : concat (groups_from max_jump [p0] p0 rest) = p0 :: rest)
    by apply groups_from_concat.
  assert (Hne : Forall (fun g => g <> []) (groups_from max_jump [p0] p0 rest))
    by (apply groups_from_nonempty; discriminate).
  split; [exact Hcat|]. split; [exact Hne|]. split.
  - pose proof (@groups_from_linked max_jump rest [p0] p0 (Fin 0, Fin 0)
                  ltac:(discriminate) eq_refl ltac:(constructor)) as H.
    eapply Forall_impl; [|exact H]. intros g Hg.
    eapply Forall_impl; [|exact Hg]. intros ab Hab.
    apply within_jump_true. exact Hab.
  - pose proof (@groups_from_apart max_jump rest [p0] p0 (Fin 0, Fin 0)
                  ltac:(discriminate) eq_refl) as H.
    apply Forall_forall. intros gg Hgg.
    pose proof (@boundaries_in_concat ponto (Fin 0, Fin 0) _ Hne gg Hgg)
      as Hin.
    rewrite Hcat in Hin.
    unfold apart in H. rewrite Forall_forall in H, Hret.
    apply within_jump_false; [|exact (H gg Hgg)].
    exact (Hret _ Hin).
Qed.

(** C3.  The segmentation returns exactly when [haversine_km] returns a
    distance for every two points that follow each other.  When it does,
    the points are cut into chunks at each distance that is not at most
    100 km, and the segments are the chunks of at least two points, in
    order.  So every segment has at least two points, each at most 100 km
    from the next; two neighbours of the input more than 100 km apart are
    the end of one chunk and the start of the next, hence never in one
    segment; and the segments put end to end are the input without the
    chunks of a single point, the points with a jump on both sides (or the
    end of the input on one side). *)
Theorem route_segments_cut_at_jumps :
  forall pontos : list ponto,
    ((exists segs, route_segments pontos = Ok segs) <->
     Forall (fun ab => exists dist, haversine_km (fst ab) (snd ab) = Ok dist)
            (adjacent pontos)) /\
    forall segs,
      route_segments pontos = Ok segs ->
      exists groups : list (list ponto),
        cut_at_jumps (Fin 100) pontos groups /\
        segs = filter drawable groups /\
        Forall (fun s => (2 <= length s)%nat /\
                         Forall (fun ab => no_jump (Fin 100) (fst ab) (snd ab))
                                (adjacent s))
               segs /\
        (forall i a b,
           nth_error pontos i = Some a -> nth_error pontos (S i) = Some b ->
           jump (Fin 100) a b ->
           exists k, (0 < k < length groups)%nat /\
                     length (concat (firstn k groups)) = S i) /\
        Forall (fun g => drawable g = false -> exists p, g = [p]) groups.
Proof.
  intros pontos.
  assert (Hret : forall segs,
            route_segments pontos = Ok segs ->
            Forall (fun ab => exists dist,
                      haversine_km (fst ab) (snd ab) = Ok dist)
                   (adjacent pontos)).
  { intros segs. unfold route_segments, split_route.
    destruct pontos as [|p0 rest]; [constructor|].
    destruct (seg_loop _ _ _) as [st|] eqn:Hs; cbn [bind]; [|discriminate].
    intros _. apply Forall_forall. intros ab Hab.
    exact (seg_loop_returns _ _ _ Hs _ Hab). }
  split.
  - split; [intros (segs & H); exact (Hret segs H)|].
    intros H. unfold route_segments, split_route.
    destruct pontos as [|p0 rest]; [eauto|].
    destruct (seg_loop_total route_max_jump_km H
                {| segment := [p0]; segments := [] |}) as (st & ->).
    cbn [bind]. eauto.
  - intros segs Hsegs. exists (chunks (Fin 100) pontos).
    pose proof (@chunks_cut (Fin 100) pontos (Hret segs Hsegs)) as Hcut.
    split; [exact Hcut|].
    destruct Hcut as (Hcat & Hne & Hlk & Hap).
    assert (Heq : segs = filter drawable (chunks (Fin 100) pontos)).
    { unfold route_segments, split_route, route_max_jump_km in Hsegs.
      destruct pontos as [|p0 rest];
        [injection Hsegs as <-; reflexivity|].
      destruct (seg_loop _ _ _) as [st|] eqn:Hs; cbn [bind] in Hsegs;
        [|discriminate].
      injection Hsegs as <-. apply seg_loop_groups in Hs. exact Hs. }
    split; [exact Heq|]. split; [|split].
    + rewrite Heq. rewrite Forall_forall in *. intros s Hs.
      apply filter_In in Hs.
      destruct Hs as [Hin Hd]. split; [|apply Hlk; exact Hin].
      unfold drawable in Hd. apply Nat.leb_le in Hd. exact Hd.
    + intros i a b Ha Hb (dist & Hdist & Hjump). rewrite <- Hcat in Ha, Hb.
      destruct (neighbours_in_concat _ _ Ha Hb) as [(g & Hin & Hadj) | Hk];
        [|exact Hk].
      exfalso. rewrite Forall_forall in Hlk. specialize (Hlk g Hin).
      rewrite Forall_forall in Hlk.
      destruct (Hlk (a, b) Hadj) as (dist' & Hdist' & Hle).
      cbn [fst snd] in Hdist'. congruence.
    + eapply Forall_impl; [|exact Hne]. intros g Hg Hd.
      unfold drawable in Hd. apply Nat.leb_gt in Hd.
      destruct g as [|p [|q g]]; [congruence | eauto | cbn in Hd; lia].
Qed.

(** Three points, the last one 500 km from the others: one segment of two
    points, and the third point is left out. *)
Example route_segments_drops_far_point :
  route_segments [(Fin 0, Fin 0); (Fin 0, Fin 0);
                  (Fin 0, Fin (500 * 180 / (6371 * PI)))]
  = Ok [[(Fin 0, Fin 0); (Fin 0, Fin 0)]].
Proof.
  unfold route_segments, split_route, route_max_jump_km.
  cbn [adjacent seg_loop]. unfold seg_body. cbn [fst snd].
  rewrite !haversine_km_fin, dist_R_same, dist_R_on_equator.
  py_eval. reflexivity.
Qed.

Lemma route_segments_cut_at_jumps_witness :
  exists groups : list (list ponto),
    cut_at_jumps (Fin 100)
      [(Fin 0, Fin 0); (Fin 0, Fin 0);
       (Fin 0, Fin (500 * 180 / (6371 * PI)))] groups /\
    [[(Fin 0, Fin 0); (Fin 0, Fin 0)]] = filter drawable groups.
Proof.
  destruct (route_segments_cut_at_jumps
              [(Fin 0, Fin 0); (Fin 0, Fin 0);
               (Fin 0, Fin (500 * 180 / (6371 * PI)))]) as (_ & H).
  destruct (H _ route_segments_drops_far_point)
    as (groups & Hcut & Hseg & _).
  exists groups. split; [exact Hcut | exact Hseg].
Defined.

(** * Further properties *)

(** ** Markers along a route *)

Lemma py_range_length start stop step :
  length (py_range start stop step) = ((stop - start + step - 1) / step)%nat.
Proof. unfold py_range. rewrite length_map, length_seq. reflexivity. Qed.

Lemma py_range_In start stop step j :
  In j (py_range start stop step) ->
  exists k, j = (start + k * step)%nat /\
            (k < (stop - start + step - 1) / step)%nat.
Proof.
  unfold py_range. rewrite in_map_iff. intros (k & <- & Hk).
  apply in_seq in Hk. exists k. split; [reflexivity | lia].
Qed.

(** X1.  A route of at most 10 points gets no intermediate marker; a longer
    route gets between 9 and 18 of them, whatever its length, and every
    marker sits on a point of the route other than the first one. *)
Theorem density_markers_bounded :
  forall n : nat,
    (if (10 <? n)%nat then (9 <= length (density_markers n) <= 18)%nat
     else density_markers n = []) /\
    Forall (fun j => (0 < j < n)%nat) (density_markers n).
Proof.
  intros n. unfold density_markers.
  destruct (10 <? n)%nat eqn:Hn; [|split; [reflexivity | constructor]].
  apply Nat.ltb_lt in Hn. cbv zeta.
  set (p := (n / 10)%nat).
  assert (Hp : (1 <= p)%nat)
    by (unfold p; apply Nat.div_le_lower_bound; lia).
  assert (Hlo : (10 * p <= n)%nat)
    by (unfold p; apply Nat.Div0.mul_div_le).
  assert (Hhi : (n < 10 * p + 10)%nat).
  { unfold p. pose proof (Nat.div_mod_eq n 10).
    pose proof (Nat.mod_upper_bound n 10). lia. }
  replace (n - p + p - 1)%nat with (n - 1)%nat by lia.
  assert (Hc1 : (9 <= (n - 1) / p)%nat)
    by (apply Nat.div_le_lower_bound; nia).
  assert (Hc2 : ((n - 1) / p <= 18)%nat).
  { assert ((n - 1) / p < 19)%nat; [|lia].
    apply Nat.Div0.div_lt_upper_bound. nia. }
  split.
  - rewrite py_range_length.
    replace (n - p + p - 1)%nat with (n - 1)%nat by lia. lia.
  - rewrite Forall_forall. intros j Hj. apply py_range_In in Hj.
    destruct Hj as (k & -> & Hk).
    replace (n - p + p - 1)%nat with (n - 1)%nat in Hk by lia.
    assert (Hm : (p * ((n - 1) / p) <= n - 1)%nat)
      by apply Nat.Div0.mul_div_le.
    nia.
Qed.

(** ** Colours of the ships *)

Lemma cores_NoDup : NoDup cores.
Proof.
  unfold cores.
  repeat (constructor; [cbn; intuition discriminate|]). constructor.
Qed.

(** X2.  Every ship gets a colour of the palette, whatever its rank, and two
    ships get the same colour exactly when their ranks differ by a multiple
    of 20. *)
Theorem cor_do_navio_cycles :
  forall i j : nat,
    (exists c, cor_do_navio i = Some c /\ In c cores) /\
    (cor_do_navio i = cor_do_navio j <-> (i mod 20 = j mod 20)%nat).
Proof.
  intros i j. unfold cor_do_navio.
  change (length cores) with 20%nat.
  assert (Hi : (i mod 20 < length cores)%nat)
    by (apply Nat.mod_upper_bound; discriminate).
  split.
  - destruct (nth_error cores (i mod 20)) as [c|] eqn:E.
    + exists c. split; [reflexivity|]. eapply nth_error_In; exact E.
    + apply nth_error_None in E. lia.
  - split; [|intros ->; reflexivity].
    intros H. pose proof cores_NoDup as Hnd.
    rewrite NoDup_nth_error in Hnd. apply Hnd; assumption.
Qed.

(** ** The date column *)

Lemma name_in_true names c : name_in names c = true <-> In c names.
Proof.
  unfold name_in. rewrite existsb_exists. split.
  - intros (x & Hx & Heq). apply String.eqb_eq in Heq. subst. exact Hx.
  - intros H. exists c. split; [exact H | apply String.eqb_refl].
Qed.

Lemma first_column_some names columns c :
  first_column names columns = Some c -> In c columns /\ In c names.
Proof.
  unfold first_column. intros H. apply find_some in H.
  rewrite name_in_true in H. exact H.
Qed.

Lemma first_column_none names columns :
  first_column names columns = None <->
  forall c, In c columns -> ~ In c names.
Proof.
  unfold first_column. split.
  - intros H c Hc Hn. apply (find_none _ _ H) in Hc.
    apply name_in_true in Hn. congruence.
  - intros H. destruct (find (name_in names) columns) as [c|] eqn:E; auto.
    apply find_some in E. rewrite name_in_true in E.
    destruct (H c); tauto.
Qed.

Lemma first_column_first names columns c :
  first_column names columns = Some c <->
  exists pre post,
    columns = pre ++ c :: post /\ In c names /\
    forall x, In x pre -> ~ In x names.
Proof.
  unfold first_column. split.
  - induction columns as [|x columns IH]; cbn [find]; [discriminate|].
    destruct (name_in names x) eqn:E.
    + intros H. injection H as ->. exists [], columns.
      split; [reflexivity|]. split; [apply name_in_true; exact E|].
      intros ? [].
    + intros H. destruct (IH H) as (pre & post & -> & Hc & Hpre).
      exists (x :: pre), post. split; [reflexivity|]. split; [exact Hc|].
      intros y [<- | Hy]; [|auto].
      intros Hn. apply name_in_true in Hn. congruence.
  - intros (pre & post & -> & Hc & Hpre).
    induction pre as [|x pre IH]; cbn [app find].
    + apply name_in_true in Hc. rewrite Hc. reflexivity.
    + destruct (name_in names x) eqn:E.
      * apply name_in_true in E. destruct (Hpre x); [left; reflexivity|].
        exact E.
      * apply IH. intros y Hy. apply Hpre. right. exact Hy.
Qed.

(** X3.  The branch that builds the timestamps from a ['date'] and a
    ['time'] column together (line 84) is never taken: both names are date
    names.  The timestamps are read from one column (line 90), the first
    of the columns of the frame, in their order, that bears a date name;
    a frame that has a ['date'] or a ['time'] column is read this way.  The
    timestamps are set to [NaT] by line 88 exactly when no column bears a
    date name. *)
Theorem date_and_time_never_combined :
  forall columns : list string,
    datetime_plan columns <> FromDateAndTime /\
    (forall c,
       datetime_plan columns = FromColumn c <->
       exists pre post,
         columns = pre ++ c :: post /\ In c date_names /\
         forall x, In x pre -> ~ In x date_names) /\
    (In "date"%string columns \/ In "time"%string columns ->
     exists c, datetime_plan columns = FromColumn c) /\
    (datetime_plan columns = AllNaT <->
     forall c, In c columns -> ~ In c date_names).
Proof.
  intros columns. unfold datetime_plan.
  destruct (first_column date_names columns) as [c|] eqn:E.
  - split; [discriminate|]. split; [|split].
    + intros c'. rewrite <- first_column_first, E.
      split; intros H; injection H as ->; reflexivity.
    + intros _. exists c. reflexivity.
    + apply first_column_some in E.
      split; [discriminate|]. intros H. destruct (H c); tauto.
  - pose proof E as Hnone. rewrite first_column_none in Hnone.
    assert (Hd : name_in columns "date"%string = false).
    { destruct (name_in columns "date"%string) eqn:Hd; auto.
      apply name_in_true in Hd. destruct (Hnone _ Hd). cbn. tauto. }
    rewrite Hd. cbn [andb]. split; [discriminate|]. split; [|split].
    + intros c'. rewrite <- first_column_first, E.
      split; discriminate.
    + intros [H | H]; destruct (Hnone _ H); cbn; tauto.
    + split; auto.
Qed.

Lemma date_and_time_never_combined_witness :
  datetime_plan ["lat"; "lon"; "date"; "time"]%string
  = FromColumn "date"%string.
Proof.
  destruct (date_and_time_never_combined ["lat"; "lon"; "date"; "time"]%string)
    as (_ & H & _).
  apply H. exists ["lat"; "lon"]%string, ["time"]%string.
  split; [reflexivity|]. split; [cbn; tauto|].
  intros x [<- | [<- | []]]; cbn; intuition discriminate.
Defined.

(** ** The detector on rows with coordinates *)

Lemma edge_at_raise lats lons times i e :
  edge_at lats lons times i = Raise e ->
  exists la lo lb lob,
    nth i lats PyNone = Num la /\ nth i lons PyNone = Num lo /\
    nth (S i) lats PyNone = Num lb /\ nth (S i) lons PyNone = Num lob /\
    haversine_km (la, lo) (lb, lob) = Raise e.
Proof.
  unfold edge_at.
  destruct (nth i lats PyNone) as [la|]; [|discriminate].
  destruct (nth i lons PyNone) as [lo|]; [|discriminate].
  destruct (nth (S i) lats PyNone) as [lb|]; [|discriminate].
  destruct (nth (S i) lons PyNone) as [lob|]; [|discriminate].
  cbn [float_of]. intros H. exists la, lo, lb, lob. repeat split.
  destruct (haversine_km (la, lo) (lb, lob)) as [d|e0]; cbn [bind] in H.
  - match type of H with
    | context [speed_of ?dt ?d] =>
        destruct (speed_of_total dt d) as (sp & Hsp); rewrite Hsp in H
    end.
    discriminate.
  - injection H as ->. reflexivity.
Qed.

Lemma kinematic_raise lats lons times e :
  kinematic lats lons times = Raise e ->
  exists i, (i < length lats - 1)%nat /\
            edge_at lats lons times i = Raise e.
Proof.
  unfold kinematic. intros H. apply for_range_raise in H.
  destruct H as (k & Hk & H). exists k. auto.
Qed.

Lemma skipn_nth {A : Type} (l : list A) : forall s d,
  (s < length l)%nat -> skipn s l = nth s l d :: skipn (S s) l.
Proof.
  induction l as [|a l IH]; intros [|s] d H; cbn in *; try lia; auto.
  apply IH. lia.
Qed.

(** Where no cell is missing, the list comprehension of lines 179-180 keeps
    every cell of the span. *)
Lemma present_all col :
  Forall (fun c => pd_isna c = false) col ->
  forall n s, map Num (present col (seq s n)) = firstn n (skipn s col).
Proof.
  intros H n. induction n as [|n IH]; intros s; [reflexivity|].
  cbn [seq]. unfold present in *. cbn [flat_map]. rewrite map_app, IH.
  destruct (Nat.lt_ge_cases s (length col)) as [Hlt | Hge].
  - rewrite (skipn_nth col PyNone Hlt). cbn [firstn].
    assert (Hc : pd_isna (nth s col PyNone) = false).
    { rewrite Forall_forall in H. apply H, nth_In. exact Hlt. }
    destruct (nth s col PyNone) as [x|]; [|discriminate].
    rewrite Hc. reflexivity.
  - rewrite nth_overflow by lia. rewrite !skipn_all2 by lia.
    rewrite !firstn_nil. reflexivity.
Qed.

Lemma present_all_length col n s :
  Forall (fun c => pd_isna c = false) col ->
  length (present col (seq s n)) = Nat.min n (length col - s).
Proof.
  intros H. rewrite <- (length_map Num), (present_all H).
  rewrite length_firstn, length_skipn. reflexivity.
Qed.

Lemma has_coordinates_columns rows :
  Forall (fun r => has_coordinates r = true) rows ->
  Forall (fun c => pd_isna c = false) (map latitude rows) /\
  Forall (fun c => pd_isna c = false) (map longitude rows).
Proof.
  intros H. split; apply Forall_map; eapply Forall_impl; try exact H;
    intros r Hr; unfold has_coordinates in Hr; apply negb_true_iff in Hr;
    apply orb_false_iff in Hr; tauto.
Qed.

Lemma dropna_lat_lon_valid df :
  Forall (fun r => has_coordinates r = true) (dropna_lat_lon df).
Proof.
  apply Forall_forall. intros r H. apply filter_In in H. tauto.
Qed.

Lemma run_stop_valid rows s e :
  Forall (fun r => has_coordinates r = true) rows ->
  (exists r, run_stop (map latitude rows) (map longitude rows)
               (map datetime rows) s e = Ok r) /\
  ((s <= e)%nat -> (e < length rows - 1)%nat ->
   run_stop (map latitude rows) (map longitude rows)
     (map datetime rows) s e <> Ok None).
Proof.
  intros H. destruct (has_coordinates_columns H) as [Hlat Hlon].
  pose proof (present_all_length (S e + 1 - s) s Hlat) as Ha.
  pose proof (present_all_length (S e + 1 - s) s Hlon) as Ho.
  rewrite length_map in Ha, Ho. split.
  - unfold run_stop.
    destruct (length (present (map latitude rows) _) =? 0)%nat eqn:E; eauto.
    apply Nat.eqb_neq in E.
    destruct (@mean_total (present (map latitude rows) (seq s (S e + 1 - s))))
      as (m1 & ->); [intros Hn; rewrite Hn in E; apply E; reflexivity|].
    destruct (@mean_total
                (present (map longitude rows) (seq s (S e + 1 - s))))
      as (m2 & ->);
      [intros Hn; rewrite Hn in Ho; cbn [length] in Ho; lia|].
    cbn [bind]. eauto.
  - intros Hse He Hd. apply run_stop_dropped in Hd.
    rewrite Hd in Ha. cbn [length] in Ha. lia.
Qed.

(** X4.  On a frame from which the rows without coordinates were dropped,
    as both callers do, no run is lost: the stops are exactly the maximal
    runs of flagged edges, and the centroid of a stop is the mean of the
    latitudes and the mean of the longitudes of all the fixes of its
    span. *)
Theorem dropna_every_run_is_a_stop :
  forall (df : list Fix)
         (max_jump_km min_stop_minutes speed_threshold_kmh : pyfloat)
         (stops : list Stop),
    let rows := dropna_lat_lon df in
    detectar_paradas rows max_jump_km min_stop_minutes speed_threshold_kmh
    = Ok stops ->
    exists flags,
      edge_flags rows max_jump_km min_stop_minutes speed_threshold_kmh
      = Ok flags /\
      (forall s e,
         maximal_run flags s e <->
         exists st, In st stops /\ start_idx st = s /\ end_idx st = S e) /\
      Forall (fun st =>
                let lats := present_lats rows (start_idx st) (end_idx st) in
                let lons := present_lons rows (start_idx st) (end_idx st) in
                map Num lats
                = span_cells (map latitude rows) (start_idx st) (end_idx st)
                /\ map Num lons
                   = span_cells (map longitude rows) (start_idx st)
                       (end_idx st)
                /\ length lats = (end_idx st + 1 - start_idx st)%nat
                /\ length lons = (end_idx st + 1 - start_idx st)%nat
                /\ mean lats = Ok (fst (centroid st))
                /\ mean lons = Ok (snd (centroid st))) stops.
Proof.
  intros df mj ms sthr stops rows H.
  pose proof (dropna_lat_lon_valid df) as Hv. fold rows in Hv.
  destruct (has_coordinates_columns Hv) as [Hlat Hlon].
  apply detectar_paradas_runs in H.
  destruct H as (flags & Hf & Hlen & [H1 H2 H3 H4]).
  rewrite Forall_forall in H3.
  exists flags. split; [exact Hf|]. split.
  - intros s e. split.
    + intros Hm. pose proof (maximal_run_bound Hm) as Hb.
      destruct (H4 s e ltac:(lia) Hm) as [Hd | (st & Hin & Hst)].
      * exfalso. destruct Hm as (Hse & _).
        apply (proj2 (run_stop_valid s e Hv)) in Hd; auto. lia.
      * exists st. split; [exact Hin|]. apply run_stop_span in Hst.
        exact Hst.
    + intros (st & Hin & <- & He).
      destruct (H3 st Hin) as (e' & He' & Hm & _).
      assert (e' = e) by lia. subst e'. exact Hm.
  - apply Forall_forall. intros st Hin.
    destruct (H3 st Hin) as (e & He & Hm & Hrs).
    pose proof (maximal_run_bound Hm) as Hb. destruct Hm as (Hse & _).
    apply run_stop_centroid in Hrs.
    destruct Hrs as (_ & Hm1 & Hm2 & _).
    cbn zeta. unfold present_lats, present_lons, span_cells.
    rewrite He.
    rewrite (present_all_length (S e + 1 - start_idx st) (start_idx st) Hlat).
    rewrite (present_all_length (S e + 1 - start_idx st) (start_idx st) Hlon).
    rewrite !length_map.
    rewrite (present_all Hlat), (present_all Hlon).
    repeat split; auto; lia.
Qed.

Lemma gap_rows_dropna_stops :
  detectar_paradas (dropna_lat_lon gap_rows) default_max_jump_km
    default_min_stop_minutes default_speed_threshold_kmh
  = Ok [gap_valid_stop].
Proof.
  unfold detectar_paradas, dropna_lat_lon, gap_rows.
  cbn [filter has_coordinates latitude longitude fix_at pd_isna orb negb].
  kin_eval. do 3 loop_step. unfold gap_valid_stop. repeat f_equal; lra.
Qed.

Lemma dropna_every_run_is_a_stop_witness :
  exists flags,
    edge_flags (dropna_lat_lon gap_rows) default_max_jump_km
      default_min_stop_minutes default_speed_threshold_kmh = Ok flags /\
    (forall s e,
       maximal_run flags s e <->
       exists st, In st [gap_valid_stop] /\ start_idx st = s /\
                  end_idx st = S e).
Proof.
  destruct (@dropna_every_run_is_a_stop gap_rows default_max_jump_km
              default_min_stop_minutes default_speed_threshold_kmh
              [gap_valid_stop] gap_rows_dropna_stops)
    as (flags & Hf & Hruns & _).
  exists flags. split; assumption.
Defined.

Lemma nth_valid_row rows i :
  Forall (fun r => has_coordinates r = true) rows ->
  (i < length rows)%nat ->
  exists r x y, In r rows /\ latitude r = Num x /\ longitude r = Num y /\
                nth i (map latitude rows) PyNone = Num x /\
                nth i (map longitude rows) PyNone = Num y.
Proof.
  intros H Hi. set (d := mkFix PyNone PyNone None).
  assert (Hin : In (nth i rows d) rows) by (apply nth_In; exact Hi).
  rewrite Forall_forall in H. pose proof (H _ Hin) as Hr.
  unfold has_coordinates in Hr. apply negb_true_iff in Hr.
  apply orb_false_iff in Hr. destruct Hr as [Ha Ho].
  rewrite nth_indep with (d' := latitude d)
    by (rewrite length_map; exact Hi).
  rewrite nth_indep with (l := map longitude rows) (d' := longitude d)
    by (rewrite length_map; exact Hi).
  rewrite !map_nth.
  destruct (latitude (nth i rows d)) as [x|] eqn:Ex; [|discriminate].
  destruct (longitude (nth i rows d)) as [y|] eqn:Ey; [|discriminate].
  exists (nth i rows d), x, y. repeat split; auto.
Qed.

Lemma cell_is_inf x : tame (Num x) = negb (is_inf x).
Proof. destruct x; reflexivity. Qed.

(** X5.  On a frame from which the rows without coordinates were dropped,
    the detector raises nothing but the [ValueError] of [haversine_km] at
    line 141, on two fixes that follow each other; the centroid of line 184
    never divides by zero.  With two rows or more, one infinite latitude is
    enough to make it raise. *)
Theorem dropna_raises_only_in_haversine :
  forall (df : list Fix)
         (max_jump_km min_stop_minutes speed_threshold_kmh : pyfloat),
    let rows := dropna_lat_lon df in
    (forall e,
       detectar_paradas rows max_jump_km min_stop_minutes speed_threshold_kmh
       = Raise e ->
       e = ValueError /\
       exists i la lo lb lob,
         (i < length rows - 1)%nat /\
         nth i (map latitude rows) PyNone = Num la /\
         nth i (map longitude rows) PyNone = Num lo /\
         nth (S i) (map latitude rows) PyNone = Num lb /\
         nth (S i) (map longitude rows) PyNone = Num lob /\
         haversine_km (la, lo) (lb, lob) = Raise e) /\
    ((2 <= length rows)%nat ->
     Exists (fun r => tame (latitude r) = false) rows ->
     detectar_paradas rows max_jump_km min_stop_minutes speed_threshold_kmh
     = Raise ValueError).
Proof.
  intros df mj ms sthr rows.
  pose proof (dropna_lat_lon_valid df) as Hv. fold rows in Hv.
  assert (Hgroup : forall st e,
            group_runs (map latitude rows) (map longitude rows)
              (map datetime rows) (low_flags mj ms sthr st) 0 [] <> Raise e).
  { intros st e He.
    destruct (@group_runs_total (map latitude rows) (map longitude rows)
                (map datetime rows) (low_flags mj ms sthr st)
                (fun s e => proj1 (run_stop_valid s e Hv)) 0%nat [])
      as (out & Hout).
    congruence. }
  assert (Honly : forall e,
            detectar_paradas rows mj ms sthr = Raise e ->
            e = ValueError /\
            exists i la lo lb lob,
              (i < length rows - 1)%nat /\
              nth i (map latitude rows) PyNone = Num la /\
              nth i (map longitude rows) PyNone = Num lo /\
              nth (S i) (map latitude rows) PyNone = Num lb /\
              nth (S i) (map longitude rows) PyNone = Num lob /\
              haversine_km (la, lo) (lb, lob) = Raise e).
  { intros e. unfold detectar_paradas.
    destruct (length rows <? 2)%nat; [discriminate|].
    destruct (kinematic _ _ _) as [st|e0] eqn:Hk; cbn [bind].
    - intros H. destruct (Hgroup _ _ H).
    - intros H. injection H as <-. apply kinematic_raise in Hk.
      destruct Hk as (i & Hi & He). rewrite length_map in Hi.
      apply edge_at_raise in He.
      destruct He as (la & lo & lb & lob & E1 & E2 & E3 & E4 & Hh).
      split; [exact (haversine_km_raise_value _ _ Hh)|].
      exists i, la, lo, lb, lob. repeat split; assumption. }
  split; [exact Honly|].
  intros Hlen Hinf. apply Exists_exists in Hinf.
  destruct Hinf as (r & Hin & Hr).
  destruct (In_nth _ _ (mkFix PyNone PyNone None) Hin) as (p & Hp & Hnth).
  set (k := if (p <? length rows - 1)%nat then p else (p - 1)%nat).
  assert (Hk : (k < length rows - 1)%nat).
  { unfold k. destruct (p <? length rows - 1)%nat eqn:E.
    - apply Nat.ltb_lt in E. exact E.
    - apply Nat.ltb_ge in E. lia. }
  assert (Hraise : edge_at (map latitude rows) (map longitude rows)
                     (map datetime rows) k = Raise ValueError).
  { destruct (nth_valid_row (i := k) Hv ltac:(lia))
      as (r1 & x1 & y1 & Hin1 & Hx1 & Hy1 & N1 & N2).
    destruct (nth_valid_row (i := S k) Hv ltac:(lia))
      as (r2 & x2 & y2 & Hin2 & Hx2 & Hy2 & N3 & N4).
    unfold edge_at. rewrite N1, N2, N3, N4. cbn [float_of].
    rewrite haversine_km_inf_latitude; [reflexivity|].
    assert (Hpk : p = k \/ p = S k).
    { unfold k. destruct (p <? length rows - 1)%nat eqn:E; [auto|].
      apply Nat.ltb_ge in E. right. lia. }
    assert (Hlat : forall q x,
              nth q (map latitude rows) PyNone = Num x -> q = p ->
              is_inf x = true).
    { intros q x Hq ->.
      rewrite nth_indep with (d' := latitude (mkFix PyNone PyNone None))
        in Hq by (rewrite length_map; exact Hp).
      rewrite map_nth, Hnth in Hq. rewrite Hq, cell_is_inf in Hr.
      apply negb_false_iff in Hr. exact Hr. }
    destruct Hpk as [Hpk | Hpk].
    - rewrite (Hlat _ _ N1 (eq_sym Hpk)). reflexivity.
    - rewrite (Hlat _ _ N3 (eq_sym Hpk)). apply orb_true_r. }
  destruct (detectar_paradas rows mj ms sthr) as [stops|e] eqn:Hd.
  - exfalso. unfold detectar_paradas in Hd.
    replace (length rows <? 2)%nat with false in Hd
      by (symmetry; apply Nat.ltb_ge; exact Hlen).
    destruct (kinematic _ _ _) as [st|e0] eqn:Hkin; cbn [bind] in Hd;
      [|discriminate].
    apply kinematic_nth with (i := k) in Hkin;
      [|rewrite length_map; exact Hk].
    congruence.
  - f_equal. exact (proj1 (Honly e eq_refl)).
Qed.

Lemma inf_rows_dropna : dropna_lat_lon inf_rows = inf_rows.
Proof. reflexivity. Qed.

Lemma dropna_raises_only_in_haversine_witness :
  detectar_paradas (dropna_lat_lon inf_rows) default_max_jump_km
    default_min_stop_minutes default_speed_threshold_kmh
  = Raise ValueError /\
  exists i la lo lb lob,
    (i < length (dropna_lat_lon inf_rows) - 1)%nat /\
    nth i (map latitude (dropna_lat_lon inf_rows)) PyNone = Num la /\
    nth i (map longitude (dropna_lat_lon inf_rows)) PyNone = Num lo /\
    nth (S i) (map latitude (dropna_lat_lon inf_rows)) PyNone = Num lb /\
    nth (S i) (map longitude (dropna_lat_lon inf_rows)) PyNone = Num lob /\
    haversine_km (la, lo) (lb, lob) = Raise ValueError.
Proof.
  destruct (dropna_raises_only_in_haversine inf_rows default_max_jump_km
              default_min_stop_minutes default_speed_threshold_kmh)
    as (Honly & Hraise).
  assert (H : detectar_paradas (dropna_lat_lon inf_rows) default_max_jump_km
                default_min_stop_minutes default_speed_threshold_kmh
              = Raise ValueError).
  { apply Hraise.
    - rewrite inf_rows_dropna. cbn. lia.
    - rewrite inf_rows_dropna. apply Exists_cons_tl, Exists_cons_hd.
      reflexivity. }
  split; [exact H|]. exact (proj2 (Honly _ H)).
Defined.

(** ** Errors of the route segmentation *)

Lemma adjacent_covers {A : Type} (l : list A) : forall p,
  (2 <= length l)%nat -> In p l ->
  exists ab, In ab (adjacent l) /\ (fst ab = p \/ snd ab = p).
Proof.
  induction l as [|x [|y l] IH]; intros p Hlen Hin; cbn [length] in Hlen;
    try lia.
  destruct Hin as [<- | Hin].
  - exists (x, y). split; [left; reflexivity | left; reflexivity].
  - destruct l as [|z l].
    + destruct Hin as [-> | []]. exists (x, p).
      split; [left; reflexivity | right; reflexivity].
    + destruct (IH p ltac:(cbn [length]; lia) Hin) as (ab & Hab & Hp).
      exists ab. split; [right; exact Hab | exact Hp].
Qed.

(** X6.  The segmentation of a route raises nothing but the [ValueError]
    of [haversine_km] at line 366, on two points that follow each other on
    the route; on a route of two points or more, one infinite latitude is
    enough to make it raise. *)
Theorem route_segments_raises_only_in_haversine :
  forall pontos : list ponto,
    (forall e,
       route_segments pontos = Raise e ->
       e = ValueError /\
       exists ab, In ab (adjacent pontos) /\
                  haversine_km (fst ab) (snd ab) = Raise e) /\
    ((2 <= length pontos)%nat ->
     Exists (fun p => is_inf (fst p) = true) pontos ->
     route_segments pontos = Raise ValueError).
Proof.
  intros pontos.
  assert (Honly : forall e,
            route_segments pontos = Raise e ->
            e = ValueError /\
            exists ab, In ab (adjacent pontos) /\
                       haversine_km (fst ab) (snd ab) = Raise e).
  { intros e. unfold route_segments, split_route.
    destruct pontos as [|p0 rest]; [discriminate|].
    destruct (seg_loop _ _ _) as [st|e0] eqn:Hs; cbn [bind]; [discriminate|].
    intros H. injection H as <-. apply seg_loop_raise in Hs.
    destruct Hs as (ab & Hin & Hh).
    split; [exact (haversine_km_raise_value _ _ Hh)|].
    exists ab. split; assumption. }
  split; [exact Honly|].
  intros Hlen Hinf. apply Exists_exists in Hinf.
  destruct Hinf as (p & Hin & Hp).
  destruct (adjacent_covers pontos p Hlen Hin)
    as ([[la lo] [lb lob]] & Hab & Hpp).
  assert (Hh : haversine_km (la, lo) (lb, lob) = Raise ValueError).
  { apply haversine_km_inf_latitude. cbn [fst snd] in Hpp.
    destruct Hpp as [<- | <-]; cbn [fst] in Hp; rewrite Hp;
      [reflexivity | apply orb_true_r]. }
  destruct (route_segments pontos) as [segs|e] eqn:Hr.
  - exfalso. unfold route_segments, split_route in Hr.
    destruct pontos as [|p0 rest]; [destruct Hin|].
    destruct (seg_loop _ _ _) as [st|e0] eqn:Hs; cbn [bind] in Hr;
      [|discriminate].
    destruct (seg_loop_returns _ _ _ Hs _ Hab) as (d & Hd).
    cbn [fst snd] in Hd. congruence.
  - f_equal. exact (proj1 (Honly e eq_refl)).
Qed.

Lemma route_segments_raises_only_in_haversine_witness :
  route_segments [(Fin 0, Fin 0); (PInf, Fin 0)] = Raise ValueError /\
  exists ab, In ab (adjacent [(Fin 0, Fin 0); (PInf, Fin 0)]) /\
             haversine_km (fst ab) (snd ab) = Raise ValueError.
Proof.
  destruct (route_segments_raises_only_in_haversine
              [(Fin 0, Fin 0); (PInf, Fin 0)]) as (Honly & Hraise).
  assert (H : route_segments [(Fin 0, Fin 0); (PInf, Fin 0)]
              = Raise ValueError).
  { apply Hraise.
    - cbn. lia.
    - apply Exists_cons_tl, Exists_cons_hd. reflexivity. }
  split; [exact H|]. exact (proj2 (Honly _ H)).
Defined.

(** ** The summary of a ship's page *)

Lemma or_zero_duration t1 t2 :
  or_zero (duration_of (Some t1) (Some t2))
  = Fin (IZR (t2 - t1) / 1000000000 / 60).
Proof.
  cbn [duration_of or_zero]. unfold minutes_between.
  cbn [py_truthy].
  destruct (Rleb (IZR (t2 - t1) / 1000000000 / 60) 0) eqn:E1;
    [|reflexivity].
  destruct (Rleb 0 (IZR (t2 - t1) / 1000000000 / 60)) eqn:E2;
    [|reflexivity].
  cbn [andb negb]. apply Rleb_true in E1, E2. f_equal. lra.
Qed.

Section Durations.

Variables (times : list (option Z)) (hi : Z).
Hypothesis Hsorted : sorted_by_time times.
Hypothesis Hhi : forall i t, nth i times None = Some t -> (t <= hi)%Z.

Lemma durations_bounded stops :
  StronglySorted (fun a b => (end_idx a < start_idx b)%nat) stops ->
  Forall (fun s => (start_idx s <= end_idx s)%nat /\
                   duration_min s
                   = duration_of (nth (start_idx s) times None)
                                 (nth (end_idx s) times None)) stops ->
  forall i0 lo,
    (lo <= hi)%Z ->
    Forall (fun s => (i0 <= start_idx s)%nat) stops ->
    (forall i t, (i0 <= i)%nat -> nth i times None = Some t -> (lo <= t)%Z) ->
    exists rs,
      map (fun s => or_zero (duration_min s)) stops = map Fin rs /\
      0 <= Rsum rs <= IZR (hi - lo) / 1000000000 / 60.
Proof.
  intros HS. induction HS as [|a l HS IH Hall]; intros HF i0 lo Hlo Hi0 Hlow.
  - exists []. split; [reflexivity|]. unfold Rsum. cbn [fold_right].
    apply IZR_le in Hlo. rewrite minus_IZR. lra.
  - inversion HF as [|? ? [Hse Hdur] HF']; subst.
    inversion Hi0 as [|? ? Ha Hi0']; subst.
    assert (Hnext : Forall (fun s => (S (end_idx a) <= start_idx s)%nat) l).
    { eapply Forall_impl; [|exact Hall]. cbn. intros b Hb. lia. }
    destruct (nth (start_idx a) times None) as [t1|] eqn:E1;
      [destruct (nth (end_idx a) times None) as [t2|] eqn:E2|].
    + pose proof (Hsorted Hse E1 E2) as H12.
      pose proof (Hhi _ E2) as H2hi.
      pose proof (Hlow _ _ Ha E1) as Hlo1.
      assert (Hlow' : forall i t, (S (end_idx a) <= i)%nat ->
                        nth i times None = Some t -> (t2 <= t)%Z).
      { intros i t Hi Ht. apply (Hsorted (i := end_idx a) (j := i));
          [lia | exact E2 | exact Ht]. }
      destruct (IH HF' (S (end_idx a)) t2 H2hi Hnext Hlow')
        as (rs & Hrs & Hb).
      exists (IZR (t2 - t1) / 1000000000 / 60 :: rs). split.
      * cbn [map]. rewrite Hdur, Hrs. f_equal.
        apply or_zero_duration.
      * unfold Rsum in *. cbn [fold_right].
        apply IZR_le in H12, H2hi, Hlo1.
        rewrite !minus_IZR in *. lra.
    + assert (Hi0l : Forall (fun s => (i0 <= start_idx s)%nat) l).
      { eapply Forall_impl; [|exact Hnext]. cbn. intros b Hb. lia. }
      destruct (IH HF' i0 lo Hlo Hi0l Hlow) as (rs & Hrs & Hb).
      exists (0 :: rs). split.
      * cbn [map]. rewrite Hdur, Hrs. reflexivity.
      * unfold Rsum in *. cbn [fold_right]. lra.
    + assert (Hi0l : Forall (fun s => (i0 <= start_idx s)%nat) l).
      { eapply Forall_impl; [|exact Hnext]. cbn. intros b Hb. lia. }
      destruct (IH HF' i0 lo Hlo Hi0l Hlow) as (rs & Hrs & Hb).
      exists (0 :: rs). split.
      * cbn [map]. rewrite Hdur, Hrs. reflexivity.
      * unfold Rsum in *. cbn [fold_right]. lra.
Qed.

End Durations.

Lemma disjoint_spans_count (n : nat) (stops : list Stop) :
  StronglySorted (fun a b => (end_idx a < start_idx b)%nat) stops ->
  Forall (fun s => (start_idx s < end_idx s < n)%nat) stops ->
  forall i0,
    Forall (fun s => (i0 <= start_idx s)%nat) stops ->
    (2 * length stops + i0 <= Nat.max i0 n)%nat.
Proof.
  intros HS. induction HS as [|a l HS IH Hall]; intros HF i0 Hi0.
  - cbn [length]. lia.
  - inversion HF as [|? ? Hspan HF']; subst.
    inversion Hi0 as [|? ? Ha _]; subst.
    assert (Hnext : Forall (fun s => (S (end_idx a) <= start_idx s)%nat) l).
    { eapply Forall_impl; [|exact Hall]. cbn. intros b Hb. lia. }
    specialize (IH HF' _ Hnext). cbn [length]. lia.
Qed.

(** X7.  The summary of a ship's page counts at most one stop for every two
    fixes.  When the fixes are sorted by time, the minutes it adds up are a
    number that is neither negative nor larger than the time from the
    earliest to the latest timestamp of the track; stops without a known
    duration count for nothing. *)
Theorem stops_summary_within_track :
  forall (df_valido : list Fix) (total_stops : nat) (total : pyfloat),
    stops_summary df_valido = Ok (total_stops, total) ->
    (2 * total_stops <= length df_valido)%nat /\
    forall lo hi : Z,
      sorted_by_time (map datetime df_valido) ->
      times_within lo hi (map datetime df_valido) ->
      (lo <= hi)%Z ->
      exists m, total = Fin m /\
                0 <= m <= IZR (hi - lo) / 1000000000 / 60.
Proof.
  intros rows n total. unfold stops_summary.
  destruct (detectar_paradas rows _ _ _) as [stops|] eqn:Hd; cbn [bind];
    [|discriminate].
  intros H. injection H as <- <-.
  apply detectar_paradas_runs in Hd.
  destruct Hd as (flags & Hf & Hlen & [H1 H2 H3 H4]).
  assert (Hspan : Forall (fun s => (start_idx s < end_idx s
                                    < length rows)%nat) stops).
  { eapply Forall_impl; [|exact H3]. cbn. intros st (e & He & Hm & _).
    pose proof (maximal_run_bound Hm). destruct Hm as (Hse & _). lia. }
  split.
  - pose proof (disjoint_spans_count H2 Hspan H1). lia.
  - intros lo hi Hsorted Hwithin Hlo.
    assert (Hdur : Forall
              (fun s => (start_idx s <= end_idx s)%nat /\
                        duration_min s
                        = duration_of
                            (nth (start_idx s) (map datetime rows) None)
                            (nth (end_idx s) (map datetime rows) None))
              stops).
    { rewrite Forall_forall in H3, Hspan. apply Forall_forall.
      intros st Hin. destruct (H3 st Hin) as (e & He & Hm & Hrs).
      pose proof (Hspan st Hin). split; [lia|].
      apply run_stop_centroid in Hrs.
      destruct Hrs as (_ & _ & _ & Hs & He' & Hdur).
      rewrite Hdur, Hs, He', He. reflexivity. }
    assert (Hi0 : Forall (fun s => (0 <= start_idx s)%nat) stops).
    { apply Forall_forall. intros; lia. }
    destruct (@durations_bounded (map datetime rows) hi Hsorted
                (fun i t Ht => proj2 (Hwithin i t Ht)) stops H2 Hdur
                0%nat lo Hlo Hi0
                (fun i t _ Ht => proj1 (Hwithin i t Ht)))
      as (rs & Hrs & Hb).
    exists (0 + Rsum rs). unfold total_stop_minutes, py_sum.
    rewrite Hrs, py_sum_fin. split; [reflexivity | lra].
Qed.

Lemma still_rows_stops :
  detectar_paradas still_rows default_max_jump_km default_min_stop_minutes
    default_speed_threshold_kmh = Ok [still_stop].
Proof.
  unfold detectar_paradas, still_rows. kin_eval.
  rewrite !dist_R_same. py_eval.
  do 3 loop_step. unfold still_stop. repeat f_equal; lra.
Qed.

Lemma still_rows_sorted :
  sorted_by_time (map datetime still_rows) /\
  times_within 0 2400000000000 (map datetime still_rows).
Proof.
  split.
  - intros [|[|i]] [|[|j]] ti tj Hij Hi Hj; cbn in Hi, Hj;
      try discriminate; try lia; try (destruct i; discriminate);
      try (destruct j; discriminate);
      injection Hi as <-; injection Hj as <-; lia.
  - intros [|[|i]] t Ht; cbn in Ht; try (destruct i; discriminate);
      injection Ht as <-; lia.
Qed.

Lemma stops_summary_within_track_witness :
  (2 * 1 <= length still_rows)%nat /\
  exists m, total_stop_minutes [still_stop] = Fin m /\
            0 <= m <= IZR (2400000000000 - 0) / 1000000000 / 60.
Proof.
  assert (H : stops_summary still_rows
              = Ok (1%nat, total_stop_minutes [still_stop])).
  { unfold stops_summary. rewrite still_rows_stops. reflexivity. }
  destruct (stops_summary_within_track _ H) as (Hcount & Htotal).
  split; [exact Hcount|].
  apply Htotal.
  - exact (proj1 still_rows_sorted).
  - exact (proj2 still_rows_sorted).
  - lia.
Defined.

(** ** The bounds of the map *)

Ltac order_solve :=
  cbn; intros;
  repeat match goal with
  | H : Rleb _ _ = true |- _ => apply Rleb_true in H
  | H : Rleb _ _ = false |- _ => apply Rleb_false in H
  | H : Rltb _ _ = true |- _ => apply Rltb_true in H
  | H : Rltb _ _ = false |- _ => apply Rltb_false in H
  end;
  try congruence;
  try (apply Rleb_true; lra).

Lemma py_le_trans x y z :
  py_le x y = true -> py_le y z = true -> py_le x z = true.
Proof. destruct x, y, z; order_solve. Qed.

Lemma py_lt_le a b : py_lt a b = true -> py_le a b = true.
Proof. destruct a, b; order_solve. Qed.

Lemma py_not_lt_le a b :
  is_nan a = false -> is_nan b = false ->
  py_lt b a = false -> py_le a b = true.
Proof. destruct a, b; order_solve. Qed.

Lemma py_le_refl a : is_nan a = false -> py_le a a = true.
Proof. destruct a; order_solve. Qed.

Lemma py_lt_not_nan a b :
  py_lt a b = true -> is_nan a = false /\ is_nan b = false.
Proof. destruct a, b; cbn; intros; split; congruence. Qed.

Lemma py_min_spec a b :
  is_nan a = false ->
  is_nan (py_min a b) = false /\
  py_le (py_min a b) a = true /\
  (is_nan b = false -> py_le (py_min a b) b = true) /\
  (is_nan b = true -> py_min a b = a).
Proof.
  intros Ha. unfold py_min. destruct (py_lt b a) eqn:E.
  - destruct (py_lt_not_nan _ _ E) as [Hb _].
    repeat split; auto using py_lt_le, py_le_refl. congruence.
  - repeat split; auto using py_le_refl, py_not_lt_le.
Qed.

Lemma py_max_spec a b :
  is_nan a = false ->
  is_nan (py_max a b) = false /\
  py_le a (py_max a b) = true /\
  (is_nan b = false -> py_le b (py_max a b) = true) /\
  (is_nan b = true -> py_max a b = a).
Proof.
  intros Ha. unfold py_max, py_gt. destruct (py_lt a b) eqn:E.
  - destruct (py_lt_not_nan _ _ E) as [_ Hb].
    repeat split; auto using py_lt_le, py_le_refl. congruence.
  - repeat split; auto using py_le_refl, py_not_lt_le.
Qed.

Lemma fold_min_spec l : forall x,
  is_nan x = false -> Forall (fun y => is_nan y = false) l ->
  is_nan (fold_left py_min l x) = false /\
  Forall (fun y => py_le (fold_left py_min l x) y = true) (x :: l).
Proof.
  induction l as [|y l IH]; intros x Hx Hl; cbn [fold_left].
  - split; [exact Hx|]. constructor; auto using py_le_refl.
  - inversion Hl as [|? ? Hy Hl']; subst.
    destruct (@py_min_spec x y Hx) as (Hn & H1 & H2 & _).
    destruct (IH _ Hn Hl') as (Hm & Hall).
    inversion Hall as [|? ? Hhd Htl]; subst.
    split; [exact Hm|].
    constructor; [eapply py_le_trans; eauto|].
    constructor; [eapply py_le_trans; eauto | exact Htl].
Qed.

Lemma fold_max_spec l : forall x,
  is_nan x = false -> Forall (fun y => is_nan y = false) l ->
  is_nan (fold_left py_max l x) = false /\
  Forall (fun y => py_le y (fold_left py_max l x) = true) (x :: l).
Proof.
  induction l as [|y l IH]; intros x Hx Hl; cbn [fold_left].
  - split; [exact Hx|]. constructor; auto using py_le_refl.
  - inversion Hl as [|? ? Hy Hl']; subst.
    destruct (@py_max_spec x y Hx) as (Hn & H1 & H2 & _).
    destruct (IH _ Hn Hl') as (Hm & Hall).
    inversion Hall as [|? ? Hhd Htl]; subst.
    split; [exact Hm|].
    constructor; [eapply py_le_trans; eauto|].
    constructor; [eapply py_le_trans; eauto | exact Htl].
Qed.

Lemma column_values_not_nan col :
  Forall (fun y => is_nan y = false) (column_values col).
Proof.
  unfold column_values. apply Forall_forall. intros y Hy.
  apply in_flat_map in Hy. destruct Hy as ([x|] & _ & Hy); [|destruct Hy].
  destruct (is_nan x) eqn:E; [destruct Hy|].
  destruct Hy as [<- | []]. exact E.
Qed.

Lemma column_values_In col x :
  In (Num x) col -> is_nan x = false -> In x (column_values col).
Proof.
  intros Hin Hx. unfold column_values. apply in_flat_map.
  exists (Num x). split; [exact Hin|]. rewrite Hx. left. reflexivity.
Qed.

Lemma series_min_spec col :
  (column_values col = [] /\ series_min col = NaN) \/
  (is_nan (series_min col) = false /\
   forall x, In x (column_values col) -> py_le (series_min col) x = true).
Proof.
  unfold series_min. pose proof (column_values_not_nan col) as Hn.
  destruct (column_values col) as [|x l]; [left; auto | right].
  inversion Hn as [|? ? Hx Hl]; subst.
  destruct (@fold_min_spec l x Hx Hl) as (Hm & Hall).
  split; [exact Hm|]. rewrite Forall_forall in Hall. exact Hall.
Qed.

Lemma series_max_spec col :
  (column_values col = [] /\ series_max col = NaN) \/
  (is_nan (series_max col) = false /\
   forall x, In x (column_values col) -> py_le x (series_max col) = true).
Proof.
  unfold series_max. pose proof (column_values_not_nan col) as Hn.
  destruct (column_values col) as [|x l]; [left; auto | right].
  inversion Hn as [|? ? Hx Hl]; subst.
  destruct (@fold_max_spec l x Hx Hl) as (Hm & Hall).
  split; [exact Hm|]. rewrite Forall_forall in Hall. exact Hall.
Qed.

Lemma running_min_spec (col : Fix -> cell) dados : forall init,
  is_nan init = false ->
  is_nan (running_min col dados init) = false /\
  py_le (running_min col dados init) init = true /\
  (forall rows r x,
     In (Some rows) dados -> In r rows -> col r = Num x ->
     is_nan x = false -> py_le (running_min col dados init) x = true) /\
  ((forall rows, In (Some rows) dados -> column_values (map col rows) = []) ->
   running_min col dados init = init).
Proof.
  unfold running_min.
  induction dados as [|df dados IH]; intros init Hi; cbn [fold_left].
  - repeat split; auto using py_le_refl.
  - destruct df as [rows|].
    + destruct (@py_min_spec init (series_min (map col rows)) Hi)
        as (Hn & H1 & H2 & H3).
      destruct (IH _ Hn) as (Hm & Hle & Hall & Hnone).
      split; [exact Hm|]. split; [eapply py_le_trans; eauto|]. split.
      * intros rows' r x [Heq | Hin] Hr Hc Hx.
        -- injection Heq as ->.
           destruct (series_min_spec (map col rows'))
             as [[Hcv _] | [Hs Hmin]].
           ++ assert (Hv : In x (column_values (map col rows'))).
              { apply column_values_In; auto. rewrite <- Hc.
                apply in_map. exact Hr. }
              rewrite Hcv in Hv. destruct Hv.
           ++ eapply py_le_trans; [exact Hle|].
              eapply py_le_trans; [exact (H2 Hs)|].
              apply Hmin. apply column_values_In; auto. rewrite <- Hc.
              apply in_map. exact Hr.
        -- eapply Hall; eauto.
      * intros He. rewrite Hnone by (intros; apply He; right; assumption).
        apply H3. unfold series_min.
        rewrite (He rows (or_introl eq_refl)). reflexivity.
    + destruct (IH _ Hi) as (Hm & Hle & Hall & Hnone).
      repeat split; auto.
      * intros rows r x [Heq | Hin]; [discriminate|]. eapply Hall; eauto.
      * intros He. apply Hnone. intros; apply He; right; assumption.
Qed.

Lemma running_max_spec (col : Fix -> cell) dados : forall init,
  is_nan init = false ->
  is_nan (running_max col dados init) = false /\
  py_le init (running_max col dados init) = true /\
  (forall rows r x,
     In (Some rows) dados -> In r rows -> col r = Num x ->
     is_nan x = false -> py_le x (running_max col dados init) = true) /\
  ((forall rows, In (Some rows) dados -> column_values (map col rows) = []) ->
   running_max col dados init = init).
Proof.
  unfold running_max.
  induction dados as [|df dados IH]; intros init Hi; cbn [fold_left].
  - repeat split; auto using py_le_refl.
  - destruct df as [rows|].
    + destruct (@py_max_spec init (series_max (map col rows)) Hi)
        as (Hn & H1 & H2 & H3).
      destruct (IH _ Hn) as (Hm & Hle & Hall & Hnone).
      split; [exact Hm|]. split; [eapply py_le_trans; eauto|]. split.
      * intros rows' r x [Heq | Hin] Hr Hc Hx.
        -- injection Heq as ->.
           destruct (series_max_spec (map col rows'))
             as [[Hcv _] | [Hs Hmax]].
           ++ assert (Hv : In x (column_values (map col rows'))).
              { apply column_values_In; auto. rewrite <- Hc.
                apply in_map. exact Hr. }
              rewrite Hcv in Hv. destruct Hv.
           ++ eapply py_le_trans; [|exact Hle].
              eapply py_le_trans; [|exact (H2 Hs)].
              apply Hmax. apply column_values_In; auto. rewrite <- Hc.
              apply in_map. exact Hr.
        -- eapply Hall; eauto.
      * intros He. rewrite Hnone by (intros; apply He; right; assumption).
        apply H3. unfold series_max.
        rewrite (He rows (or_introl eq_refl)). reflexivity.
    + destruct (IH _ Hi) as (Hm & Hle & Hall & Hnone).
      repeat split; auto.
      * intros rows r x [Heq | Hin]; [discriminate|]. eapply Hall; eauto.
      * intros He. apply Hnone. intros; apply He; right; assumption.
Qed.

Lemma fold_bounds_fields dados : forall b,
  fold_left bounds_body dados b
  = {| lat_min := running_min latitude dados (lat_min b);
       lat_max := running_max latitude dados (lat_max b);
       lon_min := running_min longitude dados (lon_min b);
       lon_max := running_max longitude dados (lon_max b) |}.
Proof.
  unfold running_min, running_max.
  induction dados as [|df dados IH]; intros b; cbn [fold_left].
  - destruct b; reflexivity.
  - rewrite IH. destruct df; reflexivity.
Qed.

(** X8.  Whatever the frames hold, the four bounds of the map are numbers,
    never [nan]; the southern and western bounds do not exceed 90 and 180,
    the northern and eastern ones are at least -90 and -180; every latitude
    and every longitude present in a frame that has both columns lies
    within the bounds; and the centre of the map is computed without error.
    When no frame has a coordinate, the bounds stay at their initial,
    inverted, values. *)
Theorem map_bounds_enclose :
  forall dados_ais : list (option (list Fix)),
    let b := map_bounds dados_ais in
    (is_nan (lat_min b) = false /\ is_nan (lat_max b) = false /\
     is_nan (lon_min b) = false /\ is_nan (lon_max b) = false) /\
    (py_le (lat_min b) (Fin 90) = true /\
     py_le (Fin (-90)) (lat_max b) = true /\
     py_le (lon_min b) (Fin 180) = true /\
     py_le (Fin (-180)) (lon_max b) = true) /\
    (forall rows r x,
       In (Some rows) dados_ais -> In r rows -> is_nan x = false ->
       (latitude r = Num x -> between (lat_min b) (lat_max b) x) /\
       (longitude r = Num x -> between (lon_min b) (lon_max b) x)) /\
    (exists c, map_center b = Ok c) /\
    ((forall rows, In (Some rows) dados_ais ->
        column_values (map latitude rows) = [] /\
        column_values (map longitude rows) = []) ->
     b = initial_bounds).
Proof.
  intros dados b. unfold map_bounds in b.
  assert (Hb : b = {| lat_min := running_min latitude dados (Fin 90);
                      lat_max := running_max latitude dados (Fin (-90));
                      lon_min := running_min longitude dados (Fin 180);
                      lon_max := running_max longitude dados (Fin (-180)) |})
    by apply fold_bounds_fields.
  destruct (@running_min_spec latitude dados (Fin 90) eq_refl)
    as (A1 & A2 & A3 & A4).
  destruct (@running_max_spec latitude dados (Fin (-90)) eq_refl)
    as (B1 & B2 & B3 & B4).
  destruct (@running_min_spec longitude dados (Fin 180) eq_refl)
    as (C1 & C2 & C3 & C4).
  destruct (@running_max_spec longitude dados (Fin (-180)) eq_refl)
    as (D1 & D2 & D3 & D4).
  rewrite Hb. cbn [lat_min lat_max lon_min lon_max].
  split; [auto|]. split; [auto|]. split; [|split].
  - intros rows r x Hin Hr Hx. unfold between. split; intros Hc; split; eauto.
  - unfold map_center. cbn [lat_min lat_max lon_min lon_max].
    destruct (py_div_two (py_add (running_min latitude dados (Fin 90))
                            (running_max latitude dados (Fin (-90)))))
      as (c1 & ->).
    destruct (py_div_two (py_add (running_min longitude dados (Fin 180))
                            (running_max longitude dados (Fin (-180)))))
      as (c2 & ->).
    cbn [bind]. eauto.
  - intros He. unfold initial_bounds.
    rewrite A4, B4, C4, D4; auto; intros rows Hin; apply (He rows Hin).
Qed.

Lemma map_bounds_enclose_witness :
  between (lat_min (map_bounds [Some gap_rows; None]))
          (lat_max (map_bounds [Some gap_rows; None])) (Fin 10) /\
  map_bounds [None; Some blank_rows] = initial_bounds.
Proof.
  split.
  - destruct (map_bounds_enclose [Some gap_rows; None])
      as (_ & _ & Hin & _).
    apply (Hin gap_rows (fix_at 10 20 None) (Fin 10)).
    + left. reflexivity.
    + left. reflexivity.
    + reflexivity.
    + reflexivity.
  - destruct (map_bounds_enclose [None; Some blank_rows])
      as (_ & _ & _ & _ & Hnone).
    apply Hnone. intros rows [H | [H | []]]; [discriminate|].
    injection H as <-. split; reflexivity.
Defined.

(** ** The coordinates of a loaded frame *)

Lemma df_get_set_same df c v : df_get (df_set df c v) c = Some v.
Proof.
  unfold df_get. induction df as [|[k w] df IH]; cbn [df_set find fst].
  - rewrite String.eqb_refl. reflexivity.
  - destruct (String.eqb k c) eqn:E; cbn [find fst]; rewrite E; auto.
Qed.

Lemma df_get_set_other df c c' v :
  c <> c' -> df_get (df_set df c v) c' = df_get df c'.
Proof.
  intros Hne. unfold df_get.
  induction df as [|[k w] df IH]; cbn [df_set find fst].
  - apply String.eqb_neq in Hne. rewrite Hne. reflexivity.
  - destruct (String.eqb k c) eqn:E; cbn [find fst].
    + apply String.eqb_eq in E. subst k.
      apply String.eqb_neq in Hne. rewrite Hne. reflexivity.
    + destruct (String.eqb k c'); auto.
Qed.

Lemma df_get_columns df c :
  In c (columns df) -> exists v, df_get df c = Some v.
Proof.
  unfold columns, df_get. induction df as [|[k w] df IH]; cbn [map In find fst].
  - intros [].
  - destruct (String.eqb k c) eqn:E; [cbn; eauto|].
    intros [H | H]; [|auto].
    cbn in H. subst. rewrite String.eqb_refl in E. discriminate.
Qed.

Lemma lat_lon_names_disjoint c : In c lat_names -> In c lon_names -> False.
Proof.
  unfold lat_names, lon_names. cbn [In].
  intros H1 H2.
  repeat match goal with
  | H : _ \/ _ |- _ => destruct H as [H | H]
  | H : False |- _ => destruct H
  end; subst; discriminate.
Qed.

Lemma to_numeric_floats parse c :
  to_numeric parse c = Floats (numbers parse c).
Proof. unfold numbers. destruct c; reflexivity. Qed.

Lemma detect_coordinates_spec parse df lat_col lon_col :
  first_column lat_names (columns df) = Some lat_col ->
  first_column lon_names (columns df) = Some lon_col ->
  exists clat clon df',
    df_get df lat_col = Some clat /\ df_get df lon_col = Some clon /\
    detect_coordinates parse df = Some df' /\
    let lat := numbers parse clat in
    let lon := numbers parse clon in
    df_get df' "latitude"%string
    = Some (Floats (if looks_swapped lat lon then lon else lat)) /\
    df_get df' "longitude"%string
    = Some (Floats (if looks_swapped lat lon
                    then if String.eqb lat_col "latitude"%string
                         then lon else lat
                    else lon)).
Proof.
  intros Hlat Hlon. unfold detect_coordinates. rewrite Hlat, Hlon.
  apply first_column_some in Hlat, Hlon.
  destruct Hlat as [Hc1 Hn1], Hlon as [Hc2 Hn2].
  destruct (df_get_columns df lat_col Hc1) as (clat & Hg1).
  destruct (df_get_columns df lon_col Hc2) as (clon & Hg2).
  assert (Hne : lat_col <> lon_col).
  { intros ->. exact (@lat_lon_names_disjoint _ Hn1 Hn2). }
  assert (Hne1 : "latitude"%string <> lon_col).
  { intros <-. apply (@lat_lon_names_disjoint "latitude"%string); auto.
    left. reflexivity. }
  assert (Hne2 : "longitude"%string <> "latitude"%string) by discriminate.
  exists clat, clon. rewrite Hg1. cbn [obind].
  rewrite (df_get_set_other _ _ Hne), Hg2. cbn [obind].
  rewrite (df_get_set_other _ _ (not_eq_sym Hne)), df_get_set_same.
  cbn [obind]. rewrite !to_numeric_floats. cbn [abs_median obind].
  rewrite df_get_set_same. cbn [obind abs_median].
  fold (looks_swapped (numbers parse clat) (numbers parse clon)).
  set (lat := numbers parse clat). set (lon := numbers parse clon).
  set (df2 := df_set (df_set df lat_col (Floats lat)) lon_col (Floats lon)).
  assert (G1 : df_get df2 lat_col = Some (Floats lat)).
  { unfold df2. rewrite (df_get_set_other _ _ (not_eq_sym Hne)).
    apply df_get_set_same. }
  assert (G2 : df_get df2 lon_col = Some (Floats lon))
    by apply df_get_set_same.
  destruct (looks_swapped lat lon).
  - destruct (String.eqb lat_col "latitude"%string) eqn:E.
    + apply String.eqb_eq in E. rewrite E, df_get_set_same. cbn [obind].
      eexists. repeat split; auto.
      * rewrite (df_get_set_other _ _ Hne2). apply df_get_set_same.
      * apply df_get_set_same.
    + apply String.eqb_neq in E.
      rewrite (df_get_set_other _ _ (not_eq_sym E)), G1. cbn [obind].
      eexists. repeat split; auto.
      * rewrite (df_get_set_other _ _ Hne2). apply df_get_set_same.
      * apply df_get_set_same.
  - rewrite (df_get_set_other _ _ Hne1), G2. cbn [obind].
    eexists. repeat split; auto.
    + rewrite (df_get_set_other _ _ Hne2). apply df_get_set_same.
    + apply df_get_set_same.
Qed.

Lemma swapped_frame_test : looks_swapped [Fin 100] [Fin 10] = true.
Proof.
  unfold looks_swapped, series_median. cbn.
  rewrite !Rabs_pos_eq by lra. cmp_eval. reflexivity.
Qed.

(** X9.  A frame is loaded exactly when it has a column with a latitude
    name and a column with a longitude name, and these are two different
    columns.  Its ['latitude'] and ['longitude'] columns then hold the
    converted latitude and longitude columns, in this order unless the test
    of line 70 finds them swapped.  When it does and the latitude column is
    itself labelled ['latitude'], line 73 reads the column that line 72 has
    just overwritten: both columns end up holding the same data, that of
    the longitude column. *)
Theorem coordinates_after_loading :
  forall (parse_number : string -> pyfloat) (df : frame),
    NoDup (columns df) ->
    (detect_coordinates parse_number df = None <->
     first_column lat_names (columns df) = None \/
     first_column lon_names (columns df) = None) /\
    (forall lat_col lon_col,
       first_column lat_names (columns df) = Some lat_col ->
       first_column lon_names (columns df) = Some lon_col ->
       lat_col <> lon_col /\
       exists clat clon df',
         df_get df lat_col = Some clat /\ df_get df lon_col = Some clon /\
         detect_coordinates parse_number df = Some df' /\
         let lat := numbers parse_number clat in
         let lon := numbers parse_number clon in
         df_get df' "latitude"%string
         = Some (Floats (if looks_swapped lat lon then lon else lat)) /\
         df_get df' "longitude"%string
         = Some (Floats (if looks_swapped lat lon
                         then if String.eqb lat_col "latitude"%string
                              then lon else lat
                         else lon))).
Proof.
  intros parse df _. split.
  - destruct (first_column lat_names (columns df)) as [lat_col|] eqn:Hlat;
      [destruct (first_column lon_names (columns df)) as [lon_col|] eqn:Hlon|].
    + destruct (detect_coordinates_spec parse df Hlat Hlon)
        as (clat & clon & df' & _ & _ & -> & _).
      split; [discriminate | intros [H | H]; discriminate].
    + unfold detect_coordinates. rewrite Hlat, Hlon. tauto.
    + unfold detect_coordinates. rewrite Hlat. tauto.
  - intros lat_col lon_col Hlat Hlon. split.
    + apply first_column_some in Hlat, Hlon. intros ->.
      exact (@lat_lon_names_disjoint _ (proj2 Hlat) (proj2 Hlon)).
    + exact (detect_coordinates_spec parse df Hlat Hlon).
Qed.

Lemma coordinates_after_loading_witness :
  exists df',
    detect_coordinates (fun _ => NaN) swapped_frame = Some df' /\
    df_get df' "latitude"%string = Some (Floats [Fin 10]) /\
    df_get df' "longitude"%string = Some (Floats [Fin 10]).
Proof.
  assert (Hnd : NoDup (columns swapped_frame)).
  { repeat (constructor; [cbn; intuition discriminate|]). constructor. }
  destruct (coordinates_after_loading (fun _ => NaN) swapped_frame Hnd)
    as (_ & H).
  destruct (H "latitude"%string "longitude"%string eq_refl eq_refl)
    as (_ & clat & clon & df' & H1 & H2 & Hd & Hlat & Hlon).
  cbn in H1, H2. injection H1 as <-. injection H2 as <-.
  cbn [numbers to_numeric] in Hlat, Hlon.
  rewrite swapped_frame_test in Hlat, Hlon. cbn in Hlon.
  exists df'. repeat split; assumption.
Defined.

(** ** Latitudes within range *)

Lemma insert_sorted_Forall (P : pyfloat -> Prop) x l :
  P x -> Forall P l -> Forall P (insert_sorted x l).
Proof.
  intros Hx Hl. induction Hl as [|y l Hy Hl IH]; cbn [insert_sorted].
  - constructor; auto.
  - destruct (py_le x y); repeat constructor; auto.
Qed.

Lemma sort_floats_Forall (P : pyfloat -> Prop) l :
  Forall P l -> Forall P (sort_floats l).
Proof.
  intros Hl. induction Hl as [|y l Hy Hl IH]; cbn [sort_floats fold_right].
  - constructor.
  - apply insert_sorted_Forall; assumption.
Qed.

Lemma py_le_not_lt a b : py_le a b = true -> py_lt b a = false.
Proof.
  destruct a, b; order_solve.
  apply Rltb_false. assumption.
Qed.

Lemma py_half_add_le a b c :
  py_le a (Fin c) = true -> py_le b (Fin c) = true ->
  py_le (py_half (py_add a b)) (Fin c) = true.
Proof.
  unfold py_half.
  destruct a, b; cbn [py_le py_add py_mul]; try discriminate;
    unfold inf_times;
    replace (Rltb 0 (1 / 2)) with true
      by (symmetry; apply Rltb_true; lra);
    try reflexivity.
  intros H1 H2. apply Rleb_true in H1, H2. apply Rleb_true. lra.
Qed.

Lemma series_median_le l c :
  Forall (fun x => is_nan x = true \/ py_le x (Fin c) = true) l ->
  is_nan (series_median l) = true \/
  py_le (series_median l) (Fin c) = true.
Proof.
  intros Hl. unfold series_median.
  set (v := sort_floats (filter (fun x => negb (is_nan x)) l)).
  assert (Hv : Forall (fun x => py_le x (Fin c) = true) v).
  { apply sort_floats_Forall. apply Forall_forall. intros x Hx.
    apply filter_In in Hx. destruct Hx as [Hin Hx].
    rewrite Forall_forall in Hl. destruct (Hl x Hin) as [Hn | Hle]; auto.
    rewrite Hn in Hx. discriminate. }
  destruct (length v =? 0)%nat eqn:E; [left; reflexivity | right].
  apply Nat.eqb_neq in E.
  assert (Hhalf : (length v / 2 < length v)%nat)
    by (apply Nat.div_lt; lia).
  pose proof (proj1 (Forall_nth _ v) Hv) as Hnth.
  destruct (Nat.odd (length v)).
  - apply Hnth. exact Hhalf.
  - apply py_half_add_le; apply Hnth; lia.
Qed.

Lemma in_range_not_swapped lat lon :
  Forall (fun x => latitude_in_range x = true) lat ->
  looks_swapped lat lon = false.
Proof.
  intros H. unfold looks_swapped.
  destruct (@series_median_le (map py_abs lat) 90) as [Hn | Hle].
  - apply Forall_map. eapply Forall_impl; [|exact H]. cbn.
    intros x Hx. unfold latitude_in_range in Hx.
    apply orb_true_iff in Hx. destruct Hx as [Hx | Hx]; [left | right; auto].
    destruct x; try discriminate. reflexivity.
  - destruct (series_median (map py_abs lat)); try discriminate.
    reflexivity.
  - unfold py_gt. rewrite (py_le_not_lt _ _ Hle). reflexivity.
Qed.

(** X10.  A frame whose latitudes, where present, all lie between -90 and
    90 degrees is never taken for a swapped one: its ['latitude'] and
    ['longitude'] columns hold the converted latitude and longitude
    columns, whatever the longitudes are. *)
Theorem valid_latitudes_never_swapped :
  forall (parse_number : string -> pyfloat) (df : frame)
         (lat_col lon_col : string) (clat : column),
    NoDup (columns df) ->
    first_column lat_names (columns df) = Some lat_col ->
    first_column lon_names (columns df) = Some lon_col ->
    df_get df lat_col = Some clat ->
    Forall (fun x => latitude_in_range x = true)
           (numbers parse_number clat) ->
    exists clon df',
      df_get df lon_col = Some clon /\
      detect_coordinates parse_number df = Some df' /\
      df_get df' "latitude"%string
      = Some (Floats (numbers parse_number clat)) /\
      df_get df' "longitude"%string
      = Some (Floats (numbers parse_number clon)).
Proof.
  intros parse df lat_col lon_col clat _ Hlat Hlon Hget Hrange.
  destruct (detect_coordinates_spec parse df Hlat Hlon)
    as (clat' & clon & df' & H1 & H2 & Hd & Ha & Ho).
  assert (clat' = clat) by congruence. subst clat'.
  rewrite (in_range_not_swapped _ Hrange) in Ha, Ho.
  exists clon, df'. repeat split; assumption.
Qed.

Lemma valid_latitudes_never_swapped_witness :
  exists clon df',
    df_get east_frame "lon"%string = Some clon /\
    detect_coordinates (fun _ => NaN) east_frame = Some df' /\
    df_get df' "latitude"%string = Some (Floats [Fin 10]) /\
    df_get df' "longitude"%string
    = Some (Floats (numbers (fun _ => NaN) clon)).
Proof.
  apply (@valid_latitudes_never_swapped (fun _ => NaN) east_frame
           "lat"%string "lon"%string (Floats [Fin 10])).
  - repeat (constructor; [cbn; intuition discriminate|]). constructor.
  - reflexivity.
  - reflexivity.
  - reflexivity.
  - constructor; [|constructor]. unfold latitude_in_range. cbn.
    rewrite Rabs_pos_eq by lra. apply Rleb_true. lra.
Defined.

(** ** The two copies of the detector *)

Lemma nested_kin_body_cases lats lons times i st :
  (nested_kin_body lats lons times i st = RaisesTypeError /\
   (nth i lats PyNone = PyNone \/ nth i lons PyNone = PyNone \/
    nth (S i) lats PyNone = PyNone \/ nth (S i) lons PyNone = PyNone)) \/
  nested_kin_body lats lons times i st = lift (kin_body lats lons times i st).
Proof.
  unfold nested_kin_body, kin_body.
  destruct (nth i lats PyNone); [|left; auto].
  destruct (nth i lons PyNone); [|left; auto].
  destruct (nth (S i) lats PyNone); [|left; cbn; auto].
  destruct (nth (S i) lons PyNone); [|left; cbn; auto].
  right. reflexivity.
Qed.

Lemma nested_for_range_cases lats lons times idx : forall st,
  (nested_for_range lats lons times idx st = RaisesTypeError /\
   exists i, In i idx /\
     (nth i lats PyNone = PyNone \/ nth i lons PyNone = PyNone \/
      nth (S i) lats PyNone = PyNone \/ nth (S i) lons PyNone = PyNone)) \/
  nested_for_range lats lons times idx st
  = lift (for_range (kin_body lats lons times) idx st).
Proof.
  induction idx as [|i idx IH]; intros st; cbn [nested_for_range for_range].
  - right. reflexivity.
  - destruct (nested_kin_body_cases lats lons times i st) as [[-> Hc] | ->].
    + left. split; [reflexivity|]. exists i. split; [left; reflexivity|].
      exact Hc.
    + destruct (kin_body lats lons times i st) as [st'|e]; cbn [lift bind].
      * destruct (IH st') as [[H (j & Hj & Hc)] | H]; [left | right; exact H].
        split; [exact H|]. exists j. split; [right; exact Hj | exact Hc].
      * right. reflexivity.
Qed.

Lemma nth_PyNone_row (f : Fix -> cell) rows i :
  (i < length rows)%nat -> nth i (map f rows) PyNone = PyNone ->
  exists r, In r rows /\ f r = PyNone.
Proof.
  intros Hi H. set (d := mkFix PyNone PyNone None).
  rewrite nth_indep with (d' := f d) in H
    by (rewrite length_map; exact Hi).
  rewrite map_nth in H. exists (nth i rows d). split; [|exact H].
  apply nth_In. exact Hi.
Qed.

Lemma has_coordinates_not_None r :
  has_coordinates r = true -> latitude r <> PyNone /\ longitude r <> PyNone.
Proof.
  unfold has_coordinates. intros H. apply negb_true_iff in H.
  apply orb_false_iff in H. destruct H as [H1 H2].
  split; intros E; rewrite E in *; discriminate.
Qed.

(** X11.  The detector nested in [criar_mapa_rotas], which is the one that
    marks the stops on the map, returns or raises what the detector of the
    module does, except that it raises [TypeError] where the module's
    detector skips an edge; this happens only on a frame with a coordinate
    on which [float] raises.  On a frame from which the rows without
    coordinates were dropped the two agree, and the stops marked on the map
    are those of the module's detector, or none when it raises. *)
Theorem nested_detector_agrees :
  forall (df_pts : list Fix)
         (max_jump_km min_stop_minutes speed_threshold_kmh : pyfloat),
    let nested :=
      nested_detectar_paradas df_pts max_jump_km min_stop_minutes
        speed_threshold_kmh in
    let outer :=
      detectar_paradas df_pts max_jump_km min_stop_minutes
        speed_threshold_kmh in
    (nested = RaisesTypeError \/ nested = lift outer) /\
    (nested = RaisesTypeError ->
     Exists (fun r => latitude r = PyNone \/ longitude r = PyNone) df_pts) /\
    (Forall (fun r => has_coordinates r = true) df_pts ->
     nested = lift outer) /\
    stops_on_map (dropna_lat_lon df_pts)
    = match detectar_paradas (dropna_lat_lon df_pts) default_max_jump_km
              default_min_stop_minutes default_speed_threshold_kmh with
      | Ok stops => stops
      | Raise _ => []
      end.
Proof.
  assert (Hcases : forall rows mj ms sthr,
            (nested_detectar_paradas rows mj ms sthr = RaisesTypeError /\
             Exists (fun r => latitude r = PyNone \/ longitude r = PyNone)
                    rows) \/
            nested_detectar_paradas rows mj ms sthr
            = lift (detectar_paradas rows mj ms sthr)).
  { intros rows mj ms sthr.
    unfold nested_detectar_paradas, detectar_paradas, kinematic.
    destruct (length rows <? 2)%nat; [right; reflexivity|].
    destruct (nested_for_range_cases (map latitude rows)
                (map longitude rows) (map datetime rows)
                (seq 0 (length (map latitude rows) - 1))
                {| deltas_min := []; dists_km := []; speeds_kmh := [] |})
      as [[-> (i & Hi & Hc)] | ->].
    - left. split; [reflexivity|]. apply in_seq in Hi.
      rewrite length_map in Hi. apply Exists_exists.
      destruct Hc as [Hc | [Hc | [Hc | Hc]]];
        apply nth_PyNone_row in Hc; try lia;
        destruct Hc as (r & Hin & Hr); exists r; auto.
    - right. destruct (for_range _ _ _); reflexivity. }
  assert (Hvalid : forall rows mj ms sthr,
            Forall (fun r => has_coordinates r = true) rows ->
            nested_detectar_paradas rows mj ms sthr
            = lift (detectar_paradas rows mj ms sthr)).
  { intros rows mj ms sthr Hv.
    destruct (Hcases rows mj ms sthr) as [[_ Hex] | H]; [|exact H].
    exfalso. apply Exists_exists in Hex. destruct Hex as (r & Hin & Hr).
    rewrite Forall_forall in Hv.
    destruct (has_coordinates_not_None _ (Hv r Hin)). tauto. }
  intros rows mj ms sthr nested outer. subst nested outer.
  split; [|split; [|split]].
  - destruct (Hcases rows mj ms sthr) as [[H _] | H]; auto.
  - intros H. destruct (Hcases rows mj ms sthr) as [[_ Hex] | H']; auto.
    rewrite H' in H. destruct (detectar_paradas rows mj ms sthr);
      discriminate.
  - apply Hvalid.
  - unfold stops_on_map.
    rewrite (Hvalid _ _ _ _ (dropna_lat_lon_valid rows)).
    destruct (detectar_paradas _ _ _ _); reflexivity.
Qed.

Lemma nested_detector_agrees_witness :
  nested_detectar_paradas none_rows default_max_jump_km
    default_min_stop_minutes default_speed_threshold_kmh = RaisesTypeError /\
  Exists (fun r => latitude r = PyNone \/ longitude r = PyNone) none_rows /\
  nested_detectar_paradas still_rows default_max_jump_km
    default_min_stop_minutes default_speed_threshold_kmh
  = Returns [still_stop].
Proof.
  destruct (nested_detector_agrees none_rows default_max_jump_km
              default_min_stop_minutes default_speed_threshold_kmh)
    as (_ & Hex & _).
  destruct (nested_detector_agrees still_rows default_max_jump_km
              default_min_stop_minutes default_speed_threshold_kmh)
    as (_ & _ & Hv & _).
  assert (H : nested_detectar_paradas none_rows default_max_jump_km
                default_min_stop_minutes default_speed_threshold_kmh
              = RaisesTypeError).
  { unfold nested_detectar_paradas, none_rows.
    cbn [length Nat.ltb Nat.leb map latitude longitude datetime fix_at
         Nat.sub seq nested_for_range].
    unfold nested_kin_body. cbn [nth float_of]. hav_eval. cbn [bind].
    unfold speed_of. cbn [delta_of]. unfold minutes_between. py_eval.
    reflexivity. }
  split; [exact H|]. split; [exact (Hex H)|].
  rewrite Hv, still_rows_stops; [reflexivity|].
  repeat constructor.
Defined.

(** ** Times and durations of the stops *)

(** X12.  The start and end times of every stop are the timestamps of the
    first and of the last fix of its span, and its duration is the time
    from one to the other in minutes, or [None] when either is [NaT].  On a
    frame sorted by time no duration is negative. *)
Theorem stop_times_are_span_ends :
  forall (df_pts : list Fix)
         (max_jump_km min_stop_minutes speed_threshold_kmh : pyfloat)
         (stops : list Stop),
    detectar_paradas df_pts max_jump_km min_stop_minutes speed_threshold_kmh
    = Ok stops ->
    Forall (fun st =>
              start_time st = nth (start_idx st) (map datetime df_pts) None /\
              end_time st = nth (end_idx st) (map datetime df_pts) None /\
              duration_min st
              = match start_time st, end_time st with
                | Some t1, Some t2 =>
                    Some (Fin (IZR (t2 - t1) / 1000000000 / 60))
                | _, _ => None
                end /\
              (sorted_by_time (map datetime df_pts) ->
               forall d, duration_min st = Some d ->
                         exists m, d = Fin m /\ 0 <= m)) stops.
Proof.
  intros rows mj ms sthr stops H. apply detectar_paradas_runs in H.
  destruct H as (flags & Hf & Hlen & [H1 H2 H3 H4]).
  eapply Forall_impl; [|exact H3]. cbn beta.
  intros st (e & He & Hm & Hrs). destruct Hm as (Hse & _).
  apply run_stop_centroid in Hrs.
  destruct Hrs as (_ & _ & _ & Hs & Het & Hdur).
  rewrite <- He in Het.
  split; [exact Hs|]. split; [exact Het|]. split.
  - rewrite Hdur. destruct (start_time st), (end_time st); reflexivity.
  - intros Hsorted d Hd. rewrite Hdur in Hd.
    destruct (start_time st) as [t1|] eqn:E1; [|discriminate].
    destruct (end_time st) as [t2|] eqn:E2; [|discriminate].
    cbn [duration_of] in Hd. injection Hd as <-.
    unfold minutes_between. eexists. split; [reflexivity|].
    assert (H12 : (t1 <= t2)%Z).
    { apply (Hsorted (start_idx st) (end_idx st)); try congruence. lia. }
    apply IZR_le in H12. rewrite minus_IZR. lra.
Qed.

Lemma stop_times_are_span_ends_witness :
  start_time still_stop = nth 0 (map datetime still_rows) None /\
  end_time still_stop = nth 1 (map datetime still_rows) None /\
  exists m, Fin 40 = Fin m /\ 0 <= m.
Proof.
  pose proof (@stop_times_are_span_ends still_rows default_max_jump_km
                default_min_stop_minutes default_speed_threshold_kmh
                [still_stop] still_rows_stops) as H.
  inversion H as [|? ? (Hs & He & _ & Hpos) _]; subst.
  split; [exact Hs|]. split; [exact He|].
  apply (Hpos (proj1 still_rows_sorted) (Fin 40)). reflexivity.
Defined.

(** X13.  Two fixes at one and the same place are one stop, whatever their
    timestamps and whatever [min_stop_minutes] and [max_jump_km]: the speed
    of the edge is 0, which no threshold from 0 upwards exceeds.  The
    duration of the stop is the time between the two fixes, be it shorter
    than [min_stop_minutes], zero or negative. *)
Theorem stationary_pair_is_a_stop :
  forall (lat lon : R) (t1 t2 : Z)
         (max_jump_km min_stop_minutes : pyfloat) (speed_threshold_kmh : R),
    0 <= speed_threshold_kmh ->
    detectar_paradas [fix_at lat lon (Some t1); fix_at lat lon (Some t2)]
      max_jump_km min_stop_minutes (Fin speed_threshold_kmh)
    = Ok [{| start_idx := 0; end_idx := 1;
             start_time := Some t1; end_time := Some t2;
             duration_min := Some (Fin (IZR (t2 - t1) / 1000000000 / 60));
             centroid := (Fin lat, Fin lon) |}].
Proof.
  intros lat lon t1 t2 mj ms sthr Hs.
  assert (Hsp : exists sp,
            speed_of (Some (minutes_between t1 t2)) (Fin 0) = Ok (Fin sp) /\
            sp = 0).
  { unfold minutes_between.
    destruct (Rlt_le_dec 0 (IZR (t2 - t1) / 1000000000 / 60)) as [Hp | Hn].
    - rewrite speed_of_pos by exact Hp. cbn [py_div].
      rewrite is_zero_false by lra. eexists. split; [reflexivity|].
      unfold Rdiv. apply Rmult_0_l.
    - rewrite speed_of_nonpos by exact Hn. eauto. }
  destruct Hsp as (sp & Hsp & ->).
  unfold detectar_paradas.
  cbn [length Nat.ltb Nat.leb map latitude longitude datetime fix_at].
  unfold kinematic.
  cbn [length Nat.sub seq for_range]. unfold kin_body.
  cbn [nth float_of]. rewrite haversine_km_fin, dist_R_same.
  cbn [bind delta_of]. rewrite Hsp. cbn [bind].
  unfold kin_append. cbn [deltas_min dists_km speeds_kmh app].
  assert (Hflags : forall d,
            low_flags mj ms (Fin sthr)
              {| deltas_min := [d]; dists_km := [Fin 0];
                 speeds_kmh := [Fin 0] |} = [true]).
  { intros d. unfold low_flags. cbn [length speeds_kmh seq map nth dists_km
                                     deltas_min].
    unfold low_movement. cbn [py_le].
    replace (Rleb 0 sthr) with true by (symmetry; apply Rleb_true; exact Hs).
    rewrite orb_true_r. reflexivity. }
  rewrite Hflags.
  rewrite group_runs_step. cbn [length Nat.leb nth negb].
  rewrite run_end_step. cbn [length Nat.ltb Nat.leb andb].
  unfold run_stop. cbn [Nat.add Nat.sub seq present flat_map nth pd_isna app
                        length Nat.eqb].
  change [Fin lat; Fin lat] with (map Fin [lat; lat]).
  change [Fin lon; Fin lon] with (map Fin [lon; lon]).
  rewrite !mean_fin by discriminate.
  cbn [bind nth duration_of app].
  rewrite group_runs_step. cbn [length Nat.leb].
  unfold minutes_between, Rsum. cbn [fold_right length INR].
  repeat f_equal; lra.
Qed.

Lemma stationary_pair_is_a_stop_witness :
  detectar_paradas [fix_at 0 0 (Some 0%Z); fix_at 0 0 (Some 60000000000%Z)]
    default_max_jump_km default_min_stop_minutes (Fin 2)
  = Ok [{| start_idx := 0; end_idx := 1;
           start_time := Some 0%Z; end_time := Some 60000000000%Z;
           duration_min
           := Some (Fin (IZR (60000000000 - 0) / 1000000000 / 60));
           centroid := (Fin 0, Fin 0) |}].
Proof.
  apply (@stationary_pair_is_a_stop 0 0 0%Z 60000000000%Z
           default_max_jump_km default_min_stop_minutes 2).
  lra.
Defined.

(** ** Thresholds and flags *)

Lemma low_movement_grows mj ms sthr mj' ms' sthr' dt sp dist :
  py_le mj mj' = true -> py_le ms' ms = true -> py_le sthr sthr' = true ->
  low_movement mj ms sthr dt sp dist = true ->
  low_movement mj' ms' sthr' dt sp dist = true.
Proof.
  intros Hj Hm Hs. unfold low_movement, py_ge. intros H.
  apply orb_true_iff in H. apply orb_true_iff.
  destruct H as [H | H].
  - left. destruct dt as [d|]; [|discriminate].
    apply andb_true_iff in H. destruct H as [H1 H2].
    apply andb_true_iff. split; eapply py_le_trans; eauto.
  - right. eapply py_le_trans; eauto.
Qed.

(** X14.  Loosening the thresholds never clears a flag: with a larger
    [max_jump_km], a smaller [min_stop_minutes] and a larger
    [speed_threshold_kmh], every edge that was flagged as low movement is
    still flagged, and the pass raises no error that it did not raise
    before. *)
Theorem flags_grow_with_thresholds :
  forall (df_pts : list Fix)
         (max_jump_km min_stop_minutes speed_threshold_kmh : pyfloat)
         (max_jump_km' min_stop_minutes' speed_threshold_kmh' : pyfloat)
         (flags : list bool),
    py_le max_jump_km max_jump_km' = true ->
    py_le min_stop_minutes' min_stop_minutes = true ->
    py_le speed_threshold_kmh speed_threshold_kmh' = true ->
    edge_flags df_pts max_jump_km min_stop_minutes speed_threshold_kmh
    = Ok flags ->
    exists flags',
      edge_flags df_pts max_jump_km' min_stop_minutes' speed_threshold_kmh'
      = Ok flags' /\
      length flags' = length flags /\
      forall i, nth i flags false = true -> nth i flags' false = true.
Proof.
  intros rows mj ms sthr mj' ms' sthr' flags Hj Hm Hs. unfold edge_flags.
  destruct (length rows <? 2)%nat.
  - intros H. injection H as <-. exists []. auto.
  - destruct (kinematic _ _ _) as [st|]; cbn [bind]; [|discriminate].
    intros H. injection H as <-. eexists. split; [reflexivity|].
    split; [rewrite !low_flags_length; reflexivity|].
    intros i Hi.
    destruct (Nat.lt_ge_cases i (length (speeds_kmh st))) as [Hlt | Hge].
    + rewrite low_flags_nth in * by exact Hlt.
      eapply low_movement_grows; eauto.
    + rewrite nth_overflow in Hi by (rewrite low_flags_length; exact Hge).
      discriminate.
Qed.

Lemma flags_grow_with_thresholds_witness :
  exists flags',
    edge_flags gap_rows (Fin 1) (Fin 10) (Fin 3) = Ok flags' /\
    length flags' = length [true; true] /\
    forall i, nth i [true; true] false = true -> nth i flags' false = true.
Proof.
  apply (@flags_grow_with_thresholds gap_rows default_max_jump_km
           default_min_stop_minutes default_speed_threshold_kmh
           (Fin 1) (Fin 10) (Fin 3) [true; true]).
  - apply Rleb_true. lra.
  - apply Rleb_true. lra.
  - apply Rleb_true. lra.
  - exact gap_rows_flags.
Defined.
